(** * ProjectFilePacker: a shallow embedding of [util/project_file_packer.py]

    The packer turns a mapping from relative paths to text into a zip
    archive.  It parses the mapping, validates the project name, stages
    the files under [file_path/project_name], zips the staged tree into
    [output_path/project_name.zip] and removes the staging directory.

    Conventions of the embedding.

    - A Python [str] is a list of code points ([pystr]); bytes are numbers
      below 256.
    - [pathlib.Path] is [PosixPath]: the separator is the forward slash and
      a backslash is an ordinary character.
    - A resolved absolute path is the list of its components below the
      root directory.  The file system is a finite map from such paths to
      nodes, without symbolic links, permissions, quotas or length limits;
      a name is acceptable when [os.fsencode] accepts it.
    - An archive is recorded by its list of entries (name and data); the
      container format, compression and time stamps are left abstract.
    - Exceptions are the constructors of [exn]; the message of a
      [FilePackError] is summarised by a [pack_error] kind.
    - Stateful code lives in the monad [M]: a function from the file system
      to an outcome and the file system left behind. *)

From stdpp Require Import gmap list strings.
From Stdlib Require Import NArith.

Open Scope N_scope.

#[local] Set Warnings "-register-all".

(** ** Python strings *)

Abbreviation pystr := (list N).

Definition s2py (s : string) : pystr :=
  map Ascii.N_of_ascii (String.list_ascii_of_string s).

Definition slash : N := 47.
Definition backslash : N := 92.
Definition dot : N := 46.
Definition tilde : N := 126.

(** [sub in s] on strings. *)
Fixpoint contains (sub s : pystr) : bool :=
  bool_decide (sub `prefix_of` s) ||
  match s with
  | [] => false
  | _ :: s' => contains sub s'
  end.

(** [s.split(sep)] for a one-character separator. *)
Fixpoint split (sep : N) (s : pystr) : list pystr :=
  match s with
  | [] => [[]]
  | c :: s' =>
      if bool_decide (c = sep) then [] :: split sep s'
      else match split sep s' with
           | w :: ws => (c :: w) :: ws
           | [] => [[c]]
           end
  end.

(** [sep.join(l)]. *)
Fixpoint join (sep : pystr) (l : list pystr) : pystr :=
  match l with
  | [] => []
  | [x] => x
  | x :: l' => x ++ sep ++ join sep l'
  end.

(** [s[i:j]]. *)
Definition slice (i j : nat) (s : pystr) : pystr := take (j - i) (drop i s).

(** ** Exceptions and outcomes *)

(** The four messages families of [FilePackError]. *)
Inductive pack_error : Type :=
  | InvalidFileMap
  | InvalidJson
  | InvalidProjectName
  | UnsafePath.

(** [OSError] stands for any of its subclasses ([FileExistsError],
    [IsADirectoryError], ...), [ValueError] for itself and for
    [UnicodeEncodeError]. *)
Inductive exn : Type :=
  | FilePackError (k : pack_error)
  | StorageError
  | OSError
  | ValueError
  | RuntimeError.

Inductive res (A : Type) : Type :=
  | Ok (a : A)
  | Raise (e : exn).
Arguments Ok {A} a.
Arguments Raise {A} e.

Definition res_bind {A B} (r : res A) (f : A → res B) : res B :=
  match r with
  | Ok a => f a
  | Raise e => Raise e
  end.

(** ** Python values reaching [json2file] as [file_map] *)

Inductive pyval : Type :=
  | PyNone
  | PyBool (b : bool)
  | PyInt (z : Z)
  | PyStr (s : pystr)
  | PyList (l : list pyval)
  | PyDict (items : list (pyval * pyval)).

(** A [Dict[str, str]] in insertion order. *)
Abbreviation strdict := (list (pystr * pystr)).

(** [out[k] = v]: an existing key keeps its position. *)
Fixpoint dict_set (k v : pystr) (out : strdict) : strdict :=
  match out with
  | [] => [(k, v)]
  | (k', v') :: out' =>
      if bool_decide (k' = k) then (k, v) :: out'
      else (k', v') :: dict_set k v out'
  end.

Definition str_items (d : strdict) : list (pyval * pyval) :=
  (λ kv, (PyStr kv.1, PyStr kv.2)) <$> d.

(** ** Pure paths ([pathlib.PurePosixPath]) *)

Record PurePath : Type := mkPurePath {
  root : pystr;            (* empty, ["/"] or ["//"] *)
  tail : list pystr        (* the components after the root *)
}.

(** [posixpath.splitroot], without the drive, which is always empty. *)
Definition splitroot (p : pystr) : pystr * pystr :=
  if negb (bool_decide (slice 0 1 p = [slash])) then ([], p)
  else if negb (bool_decide (slice 1 2 p = [slash]))
          || bool_decide (slice 2 3 p = [slash])
       then ([slash], drop 1 p)
       else (take 2 p, drop 2 p).

(** [Path(s)]: empty and ["."] components are dropped. *)
Definition Path (s : pystr) : PurePath :=
  match s with
  | [] => mkPurePath [] []
  | _ =>
      let '(r, rel) := splitroot s in
      mkPurePath r (filter (λ x, x ≠ [] ∧ x ≠ [dot]) (split slash rel))
  end.

Definition parts (p : PurePath) : list pystr :=
  match root p with
  | [] => tail p
  | r => r :: tail p
  end.

Definition is_absolute (p : PurePath) : bool :=
  negb (bool_decide (root p = [])).

(** ** Parsing and validation *)

Section Parsing.

(** [json.loads]: [None] stands for [json.JSONDecodeError]. *)
Variable json_loads : pystr → option pyval.

(** Lines 121-131. *)
Fixpoint _ensure_str_str_dict_from (items : list (pyval * pyval))
    (out : strdict) : res strdict :=
  match items with
  | [] => Ok out
  | (PyStr k, PyStr v) :: items' =>
      _ensure_str_str_dict_from items' (dict_set k v out)
  | _ :: _ => Raise (FilePackError InvalidFileMap)
  end.

Definition _ensure_str_str_dict (items : list (pyval * pyval)) : res strdict :=
  _ensure_str_str_dict_from items [].

(** Lines 105-119. *)
Definition _parse_file_map (file_map : pyval) : res strdict :=
  match file_map with
  | PyDict items => _ensure_str_str_dict items
  | PyStr s =>
      match json_loads s with
      | None => Raise (FilePackError InvalidJson)
      | Some (PyDict items) => _ensure_str_str_dict items
      | Some _ => Raise (FilePackError InvalidFileMap)
      end
  | _ => Raise (FilePackError InvalidFileMap)
  end.

End Parsing.

(** Lines 133-144; [project_name] is a [str], so the [isinstance] test of
    line 135 is true. *)
Definition _validate_project_name (project_name : pystr) : res unit :=
  if bool_decide (project_name = []) then
    Raise (FilePackError InvalidProjectName)
  else if contains [slash] project_name || contains [backslash] project_name then
    Raise (FilePackError InvalidProjectName)
  else if contains [dot; dot] project_name then
    Raise (FilePackError InvalidProjectName)
  else Ok ().

(** The loop of lines 158-160. *)
Fixpoint check_parts (ps : list pystr) : res unit :=
  match ps with
  | [] => Ok ()
  | part :: ps' =>
      if bool_decide (part ∈ [[dot; dot]; []]) then
        Raise (FilePackError UnsafePath)
      else check_parts ps'
  end.

(** Lines 146-162. *)
Definition _sanitize_relpath (rel_path : pystr) : res PurePath :=
  let p := Path rel_path in
  if is_absolute p then Raise (FilePackError UnsafePath)
  else res_bind (check_parts (parts p)) (λ _, Ok p).

(** ** Encodings *)

Definition surrogate (c : N) : bool := (0xD800 <=? c) && (c <=? 0xDFFF).

(** Strict UTF-8 of one code point; [None] is [UnicodeEncodeError]. *)
Definition utf8_char (c : N) : option (list N) :=
  if c <? 0x80 then Some [c]
  else if c <? 0x800 then Some [0xC0 + c / 64; 0x80 + c mod 64]
  else if surrogate c then None
  else if c <? 0x10000 then
    Some [0xE0 + c / 4096; 0x80 + (c / 64) mod 64; 0x80 + c mod 64]
  else if c <? 0x110000 then
    Some [0xF0 + c / 262144; 0x80 + (c / 4096) mod 64;
          0x80 + (c / 64) mod 64; 0x80 + c mod 64]
  else None.

(** [s.encode("utf-8")]. *)
Definition utf8_encode (s : pystr) : option (list N) :=
  mjoin <$> mapM utf8_char s.

(** [os.fsencode] (UTF-8 with [surrogateescape]) accepts the character, and
    the operating system does too (no NUL). *)
Definition fs_char_ok (c : N) : bool :=
  negb (c =? 0) &&
  (bool_decide (is_Some (utf8_char c)) || ((0xDC80 <=? c) && (c <=? 0xDCFF))).

Definition name_ok (s : pystr) : bool := forallb fs_char_ok s.

(** ** The file system *)

(** A resolved absolute path: the components below ["/"]. *)
Abbreviation path := (list pystr).

Definition path_ok (p : path) : bool := forallb name_ok p.

(** What a regular file holds: plain bytes, a finished archive, or an
    archive still open for writing (with the entries added so far). *)
Inductive content : Type :=
  | Raw (b : list N)
  | Zip (entries : list (pystr * content))
  | ZipOpen (entries : list (pystr * content)).

Inductive node : Type :=
  | Dir
  | File (c : content).

Abbreviation fs := (gmap path node).

(** The root directory always exists. *)
Definition stat (s : fs) (p : path) : option node :=
  match p with
  | [] => Some Dir
  | _ => s !! p
  end.

Definition parent (p : path) : path := take (length p - 1)%nat p.

(** [str(p)] for an absolute path. *)
Definition posix_str (p : path) : pystr := slash :: join [slash] p.

(** [str(p)] for a pure path. *)
Definition pure_str (p : PurePath) : pystr :=
  match root p, tail p with
  | [], [] => [dot]
  | r, t => r ++ join [slash] t
  end.

(** [a / p]: an absolute right operand replaces the left one. *)
Definition joinpath (a : path) (p : PurePath) : path :=
  if is_absolute p then tail p else a ++ tail p.

(** [p.resolve()]: there are no links to follow and the components hold no
    [".."]; a name that cannot be encoded is a [ValueError]. *)
Definition resolve (p : path) : res path :=
  if path_ok p then Ok p else Raise ValueError.

(** [file.relative_to(other)]. *)
Definition relative_to (file other : path) : res PurePath :=
  if bool_decide (other `prefix_of` file)
  then Ok (mkPurePath [] (drop (length other) file))
  else Raise ValueError.

(** ** The monad of file-system code *)

Definition M (A : Type) : Type := fs → res A * fs.

Definition ret {A} (a : A) : M A := λ s, (Ok a, s).

Definition raise {A} (e : exn) : M A := λ s, (Raise e, s).

Definition lift {A} (r : res A) : M A := λ s, (r, s).

Definition bind {A B} (m : M A) (f : A → M B) : M B := λ s,
  match m s with
  | (Ok a, s') => f a s'
  | (Raise e, s') => (Raise e, s')
  end.

Notation "'let!' x ':=' m 'in' k" := (bind m (λ x, k))
  (at level 10, x name, m at level 100, k at level 200).

(** [try: body finally: fin].  An exception of [fin] replaces the outcome
    of [body]; otherwise the outcome of [body] stands. *)
Definition try_finally {A} (body : M A) (fin : M unit) : M A := λ s,
  let '(r, s1) := body s in
  match fin s1 with
  | (Ok _, s2) => (r, s2)
  | (Raise e, s2) => (Raise e, s2)
  end.

(** [try: body except Exception: pass]. *)
Definition try_except_pass (body : M unit) : M unit := λ s,
  (Ok (), (body s).2).

(** [for x in l: f x]. *)
Fixpoint for_each {A} (l : list A) (f : A → M unit) : M unit :=
  match l with
  | [] => ret ()
  | x :: l' => let! _ := f x in for_each l' f
  end.

(** ** File-system calls *)

(** [p.exists()]; a [ValueError] of the underlying call reads as absent. *)
Definition exists_ (p : path) : M bool := λ s,
  (Ok (path_ok p && bool_decide (is_Some (stat s p))), s).

(** [p.is_file()]. *)
Definition is_file (p : path) : M bool := λ s,
  (Ok (path_ok p && match stat s p with Some (File _) => true | _ => false end), s).

(** The directories of [pre ++ rest] below [pre], from the top. *)
Fixpoint mkdir_from (pre : path) (rest : list pystr) (s : fs) : res unit * fs :=
  match rest with
  | [] => (Ok (), s)
  | c :: rest' =>
      let p := pre ++ [c] in
      match s !! p with
      | Some Dir => mkdir_from p rest' s
      | Some (File _) => (Raise OSError, s)
      | None => mkdir_from p rest' (<[p := Dir]> s)
      end
  end.

(** [p.mkdir(parents=True, exist_ok=True)]. *)
Definition mkdir (p : path) : M unit := λ s,
  if path_ok p then mkdir_from [] p s else (Raise ValueError, s).

(** [shutil.rmtree(p)]: [p] has to be a directory; the root directory
    loses what it holds and cannot be removed itself. *)
Definition rmtree (p : path) : M unit := λ s,
  if negb (path_ok p) then (Raise ValueError, s)
  else match stat s p with
       | Some Dir =>
           let s' := filter (λ kv, ¬ p `prefix_of` kv.1) s in
           match p with
           | [] => (Raise OSError, s')
           | _ => (Ok (), s')
           end
       | _ => (Raise OSError, s)
       end.

(** [p.unlink()]. *)
Definition unlink (p : path) : M unit := λ s,
  if negb (path_ok p) then (Raise ValueError, s)
  else match stat s p with
       | Some (File _) => (Ok (), delete p s)
       | _ => (Raise OSError, s)
       end.

(** [open(p, "w")]: creates or truncates the file, leaving [c0] in it. *)
Definition open_w (p : path) (c0 : content) : M unit := λ s,
  if negb (path_ok p) then (Raise ValueError, s)
  else match stat s (parent p), stat s p with
       | Some Dir, None | Some Dir, Some (File _) =>
           (Ok (), <[p := File c0]> s)
       | _, _ => (Raise OSError, s)
       end.

(** Writing through an open handle. *)
Definition store (p : path) (c : content) : M unit := λ s,
  (Ok (), <[p := File c]> s).

(** [p.write_text(data, encoding="utf-8")]: the file is opened, then the
    text is encoded. *)
Definition write_text (p : path) (data : pystr) : M unit :=
  let! _ := open_w p (Raw []) in
  match utf8_encode data with
  | Some b => store p (Raw b)
  | None => raise ValueError
  end.

(** Reading a file's bytes. *)
Definition read_file (p : path) : M content := λ s,
  match stat s p with
  | Some (File c) => (Ok c, s)
  | _ => (Raise OSError, s)
  end.

(** [p.rglob("*")]: everything strictly below [p]. *)
Definition rglob (p : path) : M (list path) := λ s,
  (Ok (map_to_list (filter (λ kv, p `prefix_of` kv.1 ∧ kv.1 ≠ p) s)).*1, s).

(** [zipfile.ZipFile(zp, "w", ...)]. *)
Definition zf_open (zp : path) : M unit := open_w zp (ZipOpen []).

(** [zf.write(file, arcname=arcname)]: the member name has to be encodable.
    The normalisation of [arcname] by [ZipInfo.from_file] does nothing to
    a relative name without empty, ["."] or [".."] components. *)
Definition zf_write (zp file : path) (arcname : pystr) : M unit :=
  let! c := read_file file in
  match utf8_encode arcname with
  | None => raise ValueError
  | Some _ => λ s,
      match stat s zp with
      | Some (File (ZipOpen es)) =>
          (Ok (), <[zp := File (ZipOpen (es ++ [(arcname, c)]))]> s)
      | _ => (Raise OSError, s)
      end
  end.

(** Leaving the [with] block closes the archive. *)
Definition zf_close (zp : path) : M unit := λ s,
  match stat s zp with
  | Some (File (ZipOpen es)) => (Ok (), <[zp := File (Zip es)]> s)
  | _ => (Raise OSError, s)
  end.

(** ** The packer *)

Record PackResult : Type := mkPackResult { zip_path : pystr }.

Record StorageResult : Type := mkStorageResult { url : pystr }.

(** Lines 168-170. *)
Definition _ensure_dir (p : path) : M unit := mkdir p.

(** Lines 172-176. *)
Definition _recreate_dir (p : path) : M unit :=
  let! e := exists_ p in
  let! _ := (if e then rmtree p else ret ()) in
  mkdir p.

(** Lines 178-185. *)
Definition _safe_remove_dir (p : path) : M unit :=
  try_except_pass
    (let! e := exists_ p in
     if e then rmtree p else ret ()).

(** [s.startswith(pre)]. *)
Definition startswith (s pre : pystr) : bool := bool_decide (pre `prefix_of` s).

(** The body of the loop of lines 193-203. *)
Definition write_entry (root_ : path) (rel content_ : pystr) : M unit :=
  let! safe_rel := lift (_sanitize_relpath rel) in
  let! target := lift (resolve (joinpath root_ safe_rel)) in
  let! root_resolved := lift (resolve root_) in
  if negb (startswith (posix_str target) (posix_str root_resolved ++ [slash]))
     && negb (bool_decide (target = root_resolved))
  then raise (FilePackError UnsafePath)
  else
    let! _ := mkdir (parent target) in
    write_text target content_.

(** Lines 187-203. *)
Definition _write_files (root_ : path) (file_map : strdict) : M unit :=
  for_each file_map (λ kv, write_entry root_ kv.1 kv.2).

(** The body of the loop of lines 218-222. *)
Definition zip_member (zp src_dir file : path) : M unit :=
  let! f := is_file file in
  if f then
    let! arcname := lift (relative_to file (parent src_dir)) in
    zf_write zp file (pure_str arcname)
  else ret ().

(** Lines 209-224. *)
Definition _make_zip (src_dir out_dir : path) (zip_name : pystr) : M path :=
  let! zp := lift (resolve (joinpath out_dir (Path zip_name))) in
  let! e := exists_ zp in
  let! _ := (if e then unlink zp else ret ()) in
  let! _ := zf_open zp in
  let! _ := try_finally
              (let! files := rglob src_dir in
               for_each files (zip_member zp src_dir))
              (zf_close zp) in
  ret zp.

Section Packer.

Variable json_loads : pystr → option pyval.

(** The suite of the [try] statement, lines 69-82. *)
Definition json2file_try (tmp_project_dir out_dir : path)
    (file_map_dict : strdict) (project_name : pystr) : M PackResult :=
  let! _ := _recreate_dir tmp_project_dir in
  let! _ := _write_files tmp_project_dir file_map_dict in
  let! zip_full_path :=
    _make_zip tmp_project_dir out_dir (project_name ++ s2py ".zip") in
  ret (mkPackResult (posix_str zip_full_path)).

(** Lines 45-86.  [base_dir] and [out_dir] are the resolved paths of
    lines 60-61. *)
Definition json2file (file_map : pyval) (base_dir out_dir : path)
    (project_name : pystr) : M PackResult :=
  let! file_map_dict := lift (_parse_file_map json_loads file_map) in
  let! _ := lift (_validate_project_name project_name) in
  let tmp_project_dir := joinpath base_dir (Path project_name) in
  let! _ := _ensure_dir base_dir in
  let! _ := _ensure_dir out_dir in
  try_finally
    (json2file_try tmp_project_dir out_dir file_map_dict project_name)
    (_safe_remove_dir tmp_project_dir).

End Packer.

(** ** Publishing *)

Definition hex_digit (n : N) : N :=
  if n <? 10 then 48 + n else 55 + n.

(** The characters [urllib.parse.quote] leaves alone with [safe="/"]. *)
Definition quote_safe (b : N) : bool :=
  ((65 <=? b) && (b <=? 90)) || ((97 <=? b) && (b <=? 122))
  || ((48 <=? b) && (b <=? 57))
  || bool_decide (b ∈ [95; 46; 45; 126; 47]).

Definition quote_byte (b : N) : pystr :=
  if quote_safe b then [b] else [37; hex_digit (b / 16); hex_digit (b mod 16)].

(** [urllib.parse.quote(s)]: the text is encoded as strict UTF-8 first. *)
Definition quote (s : pystr) : option pystr :=
  (λ bs, mjoin (quote_byte <$> bs)) <$> utf8_encode s.

(** Lines 230-234; [as_posix] is [str] on a POSIX path. *)
Definition _to_file_url (p : path) : res pystr :=
  match quote (posix_str p) with
  | Some q => Ok (s2py "file://" ++ q)
  | None => Raise ValueError
  end.

Section Publishing.

(** The process environment: the home directory that stands for a first
    component ["~"] or ["~user"] ([None] when it cannot be determined), and
    the current directory. *)
Variable home_of : pystr → option pystr.
Variable cwd : path.

(** [p.expanduser()]: only a relative path whose first component starts
    with ["~"] is changed. *)
Definition expanduser (p : PurePath) : res PurePath :=
  match root p, tail p with
  | [], c :: rest =>
      if bool_decide (slice 0 1 c = [tilde]) then
        match home_of c with
        | Some homedir =>
            let h := Path homedir in
            Ok (mkPurePath (root h) (tail h ++ rest))
        | None => Raise RuntimeError
        end
      else Ok p
  | _, _ => Ok p
  end.

(** Every [".."] steps to the parent; the root is its own parent. *)
Definition normalize (comps : list pystr) : path :=
  fold_left (λ acc c, if bool_decide (c = [dot; dot]) then parent acc
                      else acc ++ [c]) comps [].

(** [p.resolve()] for any pure path: it is made absolute from the current
    directory and [".."] is resolved; there are no links to follow.  Every
    other component is looked up on the way, which is a [ValueError] for a
    name that cannot be encoded. *)
Definition resolve_pure (p : PurePath) : res path :=
  let comps := joinpath cwd p in
  if forallb (λ c, bool_decide (c = [dot; dot]) || name_ok c) comps
  then Ok (normalize comps) else Raise ValueError.

(** Line 94. *)
Definition resolved_arg (file_path : pystr) : res path :=
  res_bind (expanduser (Path file_path)) resolve_pure.

(** Lines 88-99. *)
Definition file2storage (file_path : pystr) : M StorageResult :=
  let! p := lift (resolved_arg file_path) in
  let! e := exists_ p in
  let! f := is_file p in
  if negb e || negb f then raise StorageError
  else
    let! u := lift (_to_file_url p) in
    ret (mkStorageResult u).

End Publishing.

(** ** Notions used in the statements *)

Definition is_str (v : pyval) : Prop := ∃ s, v = PyStr s.

(** Where the loop of [_write_files] puts the key [k]. *)
Definition target_of (root_ : path) (k : pystr) : path :=
  root_ ++ tail (Path k).

Definition dir_at (s : fs) (p : path) : bool :=
  match stat s p with
  | Some Dir => true
  | _ => false
  end.

Definition file_at (s : fs) (f : path) : bool :=
  match s !! f with
  | Some (File _) => true
  | _ => false
  end.

(** Directories stay directories and files stay files. *)
Definition kind_le (s s' : fs) : Prop :=
  ∀ q : path,
    (stat s q = Some Dir → stat s' q = Some Dir)
    ∧ (∀ c, stat s q = Some (File c) → ∃ c', stat s' q = Some (File c')).

(** A key names the staging directory itself, or the path of one key is a
    proper prefix of the path of another. *)
Definition conflicting (d : strdict) : Prop :=
  (∃ k v, (k, v) ∈ d ∧ tail (Path k) = [])
  ∨ (∃ k1 v1 k2 v2, (k1, v1) ∈ d ∧ (k2, v2) ∈ d
       ∧ tail (Path k1) `prefix_of` tail (Path k2)
       ∧ tail (Path k1) ≠ tail (Path k2)).

(** What a computation may raise, and what it leaves alone. *)
Definition os_error (e : exn) : Prop := e = OSError ∨ e = ValueError.

Definition staging_error (e : exn) : Prop :=
  os_error e ∨ e = FilePackError UnsafePath.

Definition raises_only {A : Type} (P : exn → Prop) (m : M A) : Prop :=
  ∀ s e s', m s = (Raise e, s') → P e.

Definition preserves {A : Type} (R : fs → fs → Prop) (m : M A) : Prop :=
  ∀ s r s', m s = (r, s') → R s s'.

(** Regular files outside [tmp] are neither created, changed nor removed. *)
Definition files_outside (tmp : path) (s s' : fs) : Prop :=
  ∀ (q : path) c, ¬ tmp `prefix_of` q →
    (stat s q = Some (File c) ↔ stat s' q = Some (File c)).

(** The member name [project_name/key]. *)
Definition entry_name (name k : pystr) : pystr := name ++ [slash] ++ k.

(** The archive member of one item of the mapping. *)
Definition member_of (name : pystr) (kv : pystr * pystr) : option (pystr * content) :=
  (λ b, (entry_name name kv.1, Raw b)) <$> utf8_encode kv.2.

Definition expected_entries (name : pystr) (d : strdict) : list (pystr * content) :=
  omap (member_of name) d.

(** The key passes [_sanitize_relpath], names a file below the root, and is
    written the way [pathlib] prints it. *)
Definition normal_key (k : pystr) : Prop :=
  _sanitize_relpath k = Ok (Path k)
  ∧ tail (Path k) ≠ []
  ∧ pure_str (Path k) = k.

(** Key, member name and text can be encoded. *)
Definition encodable (name : pystr) (kv : pystr * pystr) : Prop :=
  path_ok (tail (Path kv.1)) = true
  ∧ is_Some (utf8_encode (entry_name name kv.1))
  ∧ is_Some (utf8_encode kv.2).

Definition incomparable (a b : path) : Prop :=
  ¬ a `prefix_of` b ∧ ¬ b `prefix_of` a.

(** No path is a prefix of another one, later or earlier in the list. *)
Fixpoint prefix_free (ts : list path) : Prop :=
  match ts with
  | [] => True
  | t :: ts' => Forall (incomparable t) ts' ∧ prefix_free ts'
  end.

Definition valid_file_map (name : pystr) (d : strdict) : Prop :=
  Forall (λ kv, normal_key kv.1 ∧ encodable name kv) d
  ∧ prefix_free ((λ kv, tail (Path kv.1)) <$> d).

(** The staging directory [tmp] after the items [done] were written,
    starting from the state [s3] that [_recreate_dir] left. *)
Definition staged (tmp : path) (s3 : fs) (done : strdict) (s : fs) : Prop :=
  (∀ q : path, ¬ tmp `prefix_of` q → s !! q = s3 !! q)
  ∧ s !! tmp = Some Dir
  ∧ (∀ (q : path) c, tmp `prefix_of` q →
       (s !! q = Some (File c)
        ↔ ∃ k v b, (k, v) ∈ done ∧ q = target_of tmp k
                   ∧ utf8_encode v = Some b ∧ c = Raw b))
  ∧ (∀ q : path, tmp `prefix_of` q → s !! q = Some Dir →
       q = tmp ∨ ∃ k v, (k, v) ∈ done ∧ q `prefix_of` target_of tmp k
                        ∧ q ≠ target_of tmp k).

(** The member name that line 221 gives to [file]. *)
Definition arcname_of (src file : path) : pystr :=
  pure_str (mkPurePath [] (drop (length (parent src)) file)).

(** The member that one round of the loop of lines 218-222 adds. *)
Definition zip_entry (src : path) (s : fs) (file : path) : option (pystr * content) :=
  if path_ok file then
    match stat s file with
    | Some (File c) => Some (arcname_of src file, c)
    | _ => None
    end
  else None.

(** What [rglob] enumerates. *)
Definition below (src : path) (s : fs) : list path :=
  (map_to_list (filter (λ kv : path * node, src `prefix_of` kv.1 ∧ kv.1 ≠ src) s)).*1.

(** A component that names a file or a directory. *)
Definition ordinary (c : pystr) : Prop :=
  c ≠ [] ∧ c ≠ [dot] ∧ c ≠ [dot; dot] ∧ slash ∉ c.

(** Only the entry at [zp] may differ. *)
Definition same_except (zp : path) (s s' : fs) : Prop :=
  ∀ q : path, q ≠ zp → s' !! q = s !! q.

(** The ways out of [json2file]: an exception of one of the four steps
    before the [try] statement, or the outcome of its suite followed by the
    cleanup. *)
Section ExitPaths.
Variable json_loads : pystr → option pyval.
Context (file_map : pyval) (base_dir out_dir : path) (project_name : pystr).

Inductive exit_path (s : fs) : res PackResult → fs → Prop :=
  | exit_parse e :
      _parse_file_map json_loads file_map = Raise e →
      exit_path s (Raise e) s
  | exit_name d e :
      _parse_file_map json_loads file_map = Ok d →
      _validate_project_name project_name = Raise e →
      exit_path s (Raise e) s
  | exit_base d e s1 :
      _parse_file_map json_loads file_map = Ok d →
      _validate_project_name project_name = Ok () →
      _ensure_dir base_dir s = (Raise e, s1) →
      exit_path s (Raise e) s1
  | exit_out d e s1 s2 :
      _parse_file_map json_loads file_map = Ok d →
      _validate_project_name project_name = Ok () →
      _ensure_dir base_dir s = (Ok (), s1) →
      _ensure_dir out_dir s1 = (Raise e, s2) →
      exit_path s (Raise e) s2
  | exit_staged d s1 s2 r s3 :
      _parse_file_map json_loads file_map = Ok d →
      _validate_project_name project_name = Ok () →
      _ensure_dir base_dir s = (Ok (), s1) →
      _ensure_dir out_dir s1 = (Ok (), s2) →
      json2file_try (joinpath base_dir (Path project_name)) out_dir d
        project_name s2 = (r, s3) →
      exit_path s r (_safe_remove_dir (joinpath base_dir (Path project_name)) s3).2.

End ExitPaths.

(** ** Small inputs *)

Module Samples.

(** A reader for a fragment of JSON: an object whose values are strings,
    [true], [false], [null] or unsigned integers, or one such value alone.
    It stands in for [json.loads] on concrete texts. *)

Definition is_ws (c : N) : bool := bool_decide (c ∈ [32; 9; 10; 13]).

Fixpoint skip_ws (s : pystr) : pystr :=
  match s with
  | c :: s' => if is_ws c then skip_ws s' else s
  | [] => []
  end.

Definition unescape (e : N) : option N :=
  if e =? 34 then Some 34
  else if e =? 92 then Some 92
  else if e =? 47 then Some 47
  else if e =? 110 then Some 10
  else if e =? 116 then Some 9
  else if e =? 114 then Some 13
  else None.

(** The text after an opening quote, up to the closing one. *)
Fixpoint read_string (s : pystr) : option (pystr * pystr) :=
  match s with
  | [] => None
  | c :: rest =>
      if c =? 34 then Some ([], rest)
      else if c =? 92 then
        match rest with
        | e :: rest' =>
            match unescape e, read_string rest' with
            | Some x, Some (w, r) => Some (x :: w, r)
            | _, _ => None
            end
        | [] => None
        end
      else if c <? 32 then None
      else match read_string rest with
           | Some (w, r) => Some (c :: w, r)
           | None => None
           end
  end.

Fixpoint read_digits (s : pystr) (acc : N) : N * pystr :=
  match s with
  | c :: s' =>
      if (48 <=? c) && (c <=? 57) then read_digits s' (10 * acc + (c - 48))
      else (acc, s)
  | [] => (acc, [])
  end.

Definition read_value (s : pystr) : option (pyval * pystr) :=
  match s with
  | 34 :: rest =>
      match read_string rest with
      | Some (w, r) => Some (PyStr w, r)
      | None => None
      end
  | 116 :: 114 :: 117 :: 101 :: r => Some (PyBool true, r)
  | 102 :: 97 :: 108 :: 115 :: 101 :: r => Some (PyBool false, r)
  | 110 :: 117 :: 108 :: 108 :: r => Some (PyNone, r)
  | c :: _ =>
      if (48 <=? c) && (c <=? 57)
      then let '(n, r) := read_digits s 0 in Some (PyInt (Z.of_N n), r)
      else None
  | [] => None
  end.

(** [items[k] = v] while the object is read: a repeated key keeps its
    place and takes the last value. *)
Fixpoint items_set (k : pystr) (v : pyval) (items : list (pyval * pyval))
    : list (pyval * pyval) :=
  match items with
  | [] => [(PyStr k, v)]
  | (PyStr k', v') :: items' =>
      if bool_decide (k' = k) then (PyStr k, v) :: items'
      else (PyStr k', v') :: items_set k v items'
  | kv :: items' => kv :: items_set k v items'
  end.

(** The members after the opening brace. *)
Fixpoint read_members (fuel : nat) (s : pystr) (acc : list (pyval * pyval))
    : option (list (pyval * pyval) * pystr) :=
  match fuel with
  | O => None
  | S fuel' =>
      match skip_ws s with
      | 34 :: rest =>
          match read_string rest with
          | Some (k, r1) =>
              match skip_ws r1 with
              | 58 :: r2 =>
                  match read_value (skip_ws r2) with
                  | Some (v, r3) =>
                      match skip_ws r3 with
                      | 44 :: r4 => read_members fuel' r4 (items_set k v acc)
                      | 125 :: r4 => Some (items_set k v acc, r4)
                      | _ => None
                      end
                  | None => None
                  end
              | _ => None
              end
          | None => None
          end
      | _ => None
      end
  end.

Definition loads (s : pystr) : option pyval :=
  match skip_ws s with
  | 123 :: rest =>
      match skip_ws rest with
      | 125 :: r => if bool_decide (skip_ws r = []) then Some (PyDict []) else None
      | _ =>
          match read_members (length rest) rest [] with
          | Some (items, r) =>
              if bool_decide (skip_ws r = []) then Some (PyDict items) else None
          | None => None
          end
      end
  | s' =>
      match read_value s' with
      | Some (v, r) => if bool_decide (skip_ws r = []) then Some v else None
      | None => None
      end
  end.

(** A string between double quotes. *)
Definition dq (s : string) : pystr := [34] ++ s2py s ++ [34].

(** A parser that rejects every text. *)
Definition no_json : pystr → option pyval := λ _, None.

(** An environment in which only the home directory of ["~"] is known. *)
Definition homes (c : pystr) : option pystr :=
  if bool_decide (c = [tilde]) then Some (s2py "/home/me") else None.

Definition work : path := [s2py "tmp"; s2py "work"].
Definition out : path := [s2py "tmp"; s2py "out"].

(** The state after the two directories were created on an empty disk. *)
Definition disk1 : fs := (_ensure_dir work ∅).2.
Definition disk2 : fs := (_ensure_dir out disk1).2.

Definition demo_dict : strdict :=
  [(s2py "src/main.py", s2py "print('hello')" ++ [10]);
   (s2py "README.md", s2py "# Demo" ++ [10]);
   (s2py "config/app.json",
    s2py "{" ++ dq "env" ++ s2py ":" ++ dq "dev" ++ s2py "}" ++ [10])].

Definition demo_zip : path := out ++ [s2py "demo.zip"].

Definition old_dict : strdict := [(s2py "old.txt", s2py "old")].
Definition new_dict : strdict := [(s2py "x.txt", s2py "new" ++ [10])].

Definition traversal_dict : strdict :=
  [(s2py "ok.txt", s2py "x"); (s2py "../evil.txt", s2py "boom")].

Definition colliding_dict : strdict :=
  [(s2py "a", s2py "x"); (s2py "a/b", s2py "y")].

Definition same_file_dict : strdict :=
  [(s2py "a.txt", s2py "1"); (s2py "./a.txt", s2py "2")].

(** A disk on which an earlier run left its staging directory behind. *)
Definition stale_disk : fs :=
  <[work ++ [s2py "demo"; s2py "stale.txt"] := File (Raw [])]>
    (<[work ++ [s2py "demo"] := Dir]> disk2).

(** A file whose name is a byte that is not UTF-8 ([b"\xff"]). *)
Definition odd_file : path := [s2py "tmp"; [0xDCFF]].
Definition odd_disk : fs := <[odd_file := File (Raw [])]> (<[[s2py "tmp"] := Dir]> ∅).

Definition json_text : pystr :=
  s2py "{" ++ dq "a.txt" ++ s2py ": " ++ dq "A\n" ++ s2py ", "
  ++ dq "dir/b.txt" ++ s2py ": " ++ dq "B\n" ++ s2py "}".

End Samples.

(** * Lemmas *)

(** ** Strings *)

Lemma contains_spec (sub s : pystr) :
  contains sub s = true ↔ ∃ a b, s = a ++ sub ++ b.
Proof.
  induction s as [|c s IH]; simpl.
  - rewrite orb_false_r, bool_decide_eq_true. split.
    + intros [b ->]. by exists [], b.
    + intros (a & b & H). symmetry in H.
      apply app_eq_nil in H as [-> H]. apply app_eq_nil in H as [-> ->].
      done.
  - rewrite orb_true_iff, bool_decide_eq_true, IH. split.
    + intros [[b ->] | (a & b & ->)].
      * by exists [], b.
      * by exists (c :: a), b.
    + intros ([|c' a] & b & H); simpl in H.
      * left. exists b. done.
      * right. injection H as -> ->. eauto.
Qed.

Lemma contains_char (c : N) (s : pystr) : contains [c] s = true ↔ c ∈ s.
Proof.
  rewrite contains_spec. split.
  - intros (a & b & ->). set_solver.
  - intros (a & b & ->)%list_elem_of_split. by exists a, b.
Qed.

Lemma validate_project_name_iff (name : pystr) :
  _validate_project_name name = Raise (FilePackError InvalidProjectName)
  ↔ name = [] ∨ slash ∈ name ∨ backslash ∈ name
    ∨ ∃ a b, name = a ++ [dot; dot] ++ b.
Proof.
  unfold _validate_project_name.
  rewrite <- !contains_char, <- contains_spec.
  case_bool_decide as H0; [tauto|].
  destruct (contains [slash] name), (contains [backslash] name),
    (contains [dot; dot] name); simpl; split; try tauto; try discriminate.
  intros [?|[?|[?|?]]]; try done.
Qed.

Lemma validate_project_name_total (name : pystr) :
  _validate_project_name name = Ok ()
  ∨ _validate_project_name name = Raise (FilePackError InvalidProjectName).
Proof.
  unfold _validate_project_name.
  repeat (case_match; try tauto).
Qed.

(** ** Early exits of [json2file] *)

Section Early.
Variable json_loads : pystr → option pyval.


Lemma json2file_name_error fm base out name d e s :
  _parse_file_map json_loads fm = Ok d →
  _validate_project_name name = Raise e →
  json2file json_loads fm base out name s = (Raise e, s).
Proof. intros H1 H2. unfold json2file, bind, lift. by rewrite H1, H2. Qed.

End Early.





Lemma ensure_str_str_dict_from_total items out :
  (∃ d, _ensure_str_str_dict_from items out = Ok d)
  ∨ _ensure_str_str_dict_from items out = Raise (FilePackError InvalidFileMap).
Proof.
  revert out. induction items as [|[k v] items IH]; intros out; simpl; [eauto|].
  destruct k; eauto. destruct v; eauto.
Qed.

(** ** Paths *)

Lemma prefix_step (pre rest q : path) c :
  pre `prefix_of` q → q ≠ pre → q `prefix_of` pre ++ c :: rest →
  (pre ++ [c]) `prefix_of` q.
Proof.
  intros [k ->] Hne Hq. apply prefix_app_inv in Hq.
  destruct k as [|c' k]; [by rewrite app_nil_r in Hne|].
  pose proof (prefix_cons_inv_1 _ _ _ _ Hq) as ->.
  exists k. by rewrite <- app_assoc.
Qed.

Lemma prefix_step_inv (pre q : path) c :
  (pre ++ [c]) `prefix_of` q → pre `prefix_of` q ∧ q ≠ pre.
Proof.
  intros H. split.
  - by eapply prefix_app_l.
  - intros ->. by eapply prefix_snoc_not.
Qed.

Lemma stat_nonroot (s : fs) (p : path) : p ≠ [] → stat s p = s !! p.
Proof. by destruct p. Qed.

Lemma stat_root (s : fs) : stat s [] = Some Dir.
Proof. done. Qed.

(** ** [mkdir] *)

Lemma mkdir_from_spec pre rest s r s' :
  mkdir_from pre rest s = (r, s') →
  (∀ (q : path) n, s !! q = Some n → s' !! q = Some n)
  ∧ (∀ (q : path) n, s' !! q = Some n →
       s !! q = Some n
       ∨ (n = Dir ∧ pre `prefix_of` q ∧ q ≠ pre ∧ q `prefix_of` pre ++ rest))
  ∧ (r = Ok () →
       ∀ q : path, pre `prefix_of` q → q ≠ pre → q `prefix_of` pre ++ rest →
            s' !! q = Some Dir)
  ∧ (r = Ok () ∨ r = Raise OSError).
Proof.
  revert pre s. induction rest as [|c rest IH]; intros pre s H; simpl in H.
  - injection H as <- <-. rewrite app_nil_r. split_and!; eauto.
    intros _ q Hq Hne Hq'. destruct Hne. by apply (anti_symm prefix).
  - assert (Hcat : pre ++ c :: rest = (pre ++ [c]) ++ rest)
      by (by rewrite <- app_assoc).
    destruct (s !! (pre ++ [c])) as [[|cnt]|] eqn:Hp.
    + apply IH in H as (Ha & Hb & Hc & Hd). split_and!; [done| | |done].
      * intros q n Hq. destruct (Hb q n Hq) as [?|(-> & H1 & H2 & H3)]; [by left|].
        right. apply prefix_step_inv in H1 as H1'. rewrite Hcat. tauto.
      * intros -> q H1 H2 H3.
        destruct (decide (q = pre ++ [c])) as [->|Hne]; [by apply Ha|].
        apply Hc; [done| |done|by rewrite <- Hcat].
        by eapply prefix_step.
    + injection H as <- <-. split_and!; eauto. intros; discriminate.
    + apply IH in H as (Ha & Hb & Hc & Hd).
      assert (Hfresh : ∀ q n, s !! q = Some n → q ≠ pre ++ [c])
        by (intros q n Hq ->; congruence).
      split_and!; [| | |done].
      * intros q n Hq. apply Ha. rewrite lookup_insert_ne; [done|].
        intros <-. by eapply Hfresh.
      * intros q n Hq. destruct (Hb q n Hq) as [Hq'|(-> & H1 & H2 & H3)].
        -- destruct (decide (q = pre ++ [c])) as [->|Hne].
           ++ rewrite lookup_insert_eq in Hq'. injection Hq' as <-.
              right. split_and!; [done| | |].
              ** by apply prefix_app_r.
              ** intros E. apply (f_equal length) in E.
                 rewrite length_app in E. simpl in E. lia.
              ** rewrite Hcat. by apply prefix_app_r.
           ++ rewrite lookup_insert_ne in Hq' by done. by left.
        -- right. apply prefix_step_inv in H1 as H1'. rewrite Hcat. tauto.
      * intros -> q H1 H2 H3.
        destruct (decide (q = pre ++ [c])) as [->|Hne].
        -- apply Ha. by rewrite lookup_insert_eq.
        -- apply Hc; [done| |done|by rewrite <- Hcat]. by eapply prefix_step.
Qed.

Lemma mkdir_from_succeeds pre rest s :
  (∀ (q : path) c, pre `prefix_of` q → q ≠ pre → q `prefix_of` pre ++ rest →
          s !! q ≠ Some (File c)) →
  ∃ s', mkdir_from pre rest s = (Ok (), s').
Proof.
  revert pre s. induction rest as [|c rest IH]; intros pre s H; simpl; [eauto|].
  assert (Hcat : pre ++ c :: rest = (pre ++ [c]) ++ rest)
    by (by rewrite <- app_assoc).
  assert (Hp : pre `prefix_of` pre ++ [c] ∧ pre ++ [c] ≠ pre
               ∧ pre ++ [c] `prefix_of` pre ++ c :: rest).
  { split_and!.
    - by apply prefix_app_r.
    - intros E. apply (f_equal length) in E. rewrite length_app in E.
      simpl in E. lia.
    - rewrite Hcat. by apply prefix_app_r. }
  destruct Hp as (Hp1 & Hp2 & Hp3).
  destruct (s !! (pre ++ [c])) as [[|cnt]|] eqn:Hp.
  - apply IH. intros q c' H1 H2 H3.
    apply prefix_step_inv in H1 as [? ?]. apply H; [done..|by rewrite Hcat].
  - by destruct (H _ cnt Hp1 Hp2 Hp3).
  - apply IH. intros q c' H1 H2 H3.
    rewrite lookup_insert_ne by done.
    apply prefix_step_inv in H1 as [? ?]. apply H; [done..|by rewrite Hcat].
Qed.

Lemma mkdir_from_noop pre rest s :
  (∀ q : path, pre `prefix_of` q → q ≠ pre → q `prefix_of` pre ++ rest →
        s !! q = Some Dir) →
  mkdir_from pre rest s = (Ok (), s).
Proof.
  revert pre. induction rest as [|c rest IH]; intros pre H; simpl; [done|].
  assert (Hcat : pre ++ c :: rest = (pre ++ [c]) ++ rest)
    by (by rewrite <- app_assoc).
  rewrite (H (pre ++ [c])).
  - apply IH. intros q H1 H2 H3.
    apply prefix_step_inv in H1 as [? ?]. apply H; [done..|by rewrite Hcat].
  - by apply prefix_app_r.
  - intros E. apply (f_equal length) in E. rewrite length_app in E.
    simpl in E. lia.
  - rewrite Hcat. by apply prefix_app_r.
Qed.

Section Mkdir.
Context (p : path) (s s' : fs) (r : res unit).
Hypothesis Hrun : mkdir p s = (r, s').

Lemma mkdir_keeps (q : path) n : s !! q = Some n → s' !! q = Some n.
Proof.
  unfold mkdir in Hrun. destruct (path_ok p).
  - apply mkdir_from_spec in Hrun as (Ha & _). apply Ha.
  - by injection Hrun as <- <-.
Qed.

Lemma mkdir_adds_dirs (q : path) n :
  s' !! q = Some n →
  s !! q = Some n ∨ (s !! q = None ∧ n = Dir ∧ q ≠ [] ∧ q `prefix_of` p).
Proof.
  intros Hq. destruct (s !! q) as [n'|] eqn:Hs.
  - left. apply mkdir_keeps in Hs. congruence.
  - right. unfold mkdir in Hrun. destruct (path_ok p).
    + apply mkdir_from_spec in Hrun as (_ & Hb & _).
      destruct (Hb q n Hq) as [?|(-> & _ & ? & ?)]; [congruence|done].
    + injection Hrun as <- <-. congruence.
Qed.

Lemma mkdir_files (q : path) c : s' !! q = Some (File c) ↔ s !! q = Some (File c).
Proof.
  split; [|apply mkdir_keeps].
  intros [?|(_ & ? & _)]%mkdir_adds_dirs; done.
Qed.

Lemma mkdir_stat_keeps (q : path) n : stat s q = Some n → stat s' q = Some n.
Proof. destruct q; [done|]. apply mkdir_keeps. Qed.

Lemma mkdir_raises e : r = Raise e → e = OSError ∨ e = ValueError.
Proof.
  intros ->. unfold mkdir in Hrun. destruct (path_ok p).
  - apply mkdir_from_spec in Hrun as (_ & _ & _ & [?|?]); [done|].
    left. congruence.
  - right. congruence.
Qed.

Lemma mkdir_ok_dirs (q : path) : r = Ok () → q `prefix_of` p → stat s' q = Some Dir.
Proof.
  intros -> Hq. destruct q as [|c q]; [done|]. simpl.
  unfold mkdir in Hrun. destruct (path_ok p); [|done].
  apply mkdir_from_spec in Hrun as (_ & _ & Hc & _).
  apply Hc; [done|apply prefix_nil|done|done].
Qed.

Lemma mkdir_ok_path : r = Ok () → path_ok p = true.
Proof. intros ->. unfold mkdir in Hrun. by destruct (path_ok p). Qed.
End Mkdir.

Lemma mkdir_succeeds p s :
  path_ok p = true →
  (∀ (q : path) c, q `prefix_of` p → stat s q ≠ Some (File c)) →
  ∃ s', mkdir p s = (Ok (), s').
Proof.
  intros Hok H. unfold mkdir. rewrite Hok. apply mkdir_from_succeeds.
  intros q c _ Hne Hq. specialize (H q c Hq). by destruct q.
Qed.

Lemma mkdir_noop p s :
  path_ok p = true →
  (∀ q : path, q `prefix_of` p → stat s q = Some Dir) →
  mkdir p s = (Ok (), s).
Proof.
  intros Hok H. unfold mkdir. rewrite Hok. apply mkdir_from_noop.
  intros q _ Hne Hq. specialize (H q Hq). by destruct q.
Qed.

(** ** Running monadic code *)

Lemma bind_run {A B} (m : M A) (f : A → M B) s r s' :
  bind m f s = (r, s') →
  (∃ e, m s = (Raise e, s') ∧ r = Raise e)
  ∨ (∃ a s1, m s = (Ok a, s1) ∧ f a s1 = (r, s')).
Proof.
  unfold bind. destruct (m s) as [[a|e] s1]; intros H.
  - right. eauto.
  - left. injection H as <- <-. eauto.
Qed.

Lemma bind_ok {A B} (m : M A) (f : A → M B) s a s1 :
  m s = (Ok a, s1) → bind m f s = f a s1.
Proof. unfold bind. by intros ->. Qed.

Lemma bind_raise {A B} (m : M A) (f : A → M B) s e s1 :
  m s = (Raise e, s1) → bind m f s = (Raise e, s1).
Proof. unfold bind. by intros ->. Qed.

Lemma lift_run {A} (x : res A) s r s' : lift x s = (r, s') → r = x ∧ s' = s.
Proof. unfold lift. by intros [= <- <-]. Qed.

(** ** [rmtree], [unlink], [open_w] *)

Lemma rmtree_run p s r s' :
  rmtree p s = (r, s') →
  (s' = s ∧ (r = Raise OSError ∨ r = Raise ValueError))
  ∨ (path_ok p = true ∧ stat s p = Some Dir
     ∧ s' = filter (λ kv, ¬ p `prefix_of` kv.1) s
     ∧ (if decide (p = []) then r = Raise OSError else r = Ok ())).
Proof.
  unfold rmtree. destruct (path_ok p); simpl; [|intros [= <- <-]; eauto].
  destruct (stat s p) as [[|c]|] eqn:Hp; try (intros [= <- <-]; eauto).
  destruct p; intros [= <- <-]; right; split_and!; done.
Qed.

Lemma rmtree_outside p s r s' (q : path) :
  rmtree p s = (r, s') → ¬ p `prefix_of` q → s' !! q = s !! q.
Proof.
  intros [[-> _]|(_ & _ & -> & _)]%rmtree_run Hq; [done|].
  destruct (s !! q) as [n|] eqn:Hs.
  - by apply map_lookup_filter_Some.
  - apply map_lookup_filter_None. by left.
Qed.

Lemma rmtree_inside p s s' (q : path) :
  rmtree p s = (Ok (), s') → p `prefix_of` q → s' !! q = None.
Proof.
  intros [[_ [?|?]]|(_ & _ & -> & _)]%rmtree_run Hq; [done..|].
  apply map_lookup_filter_None. right. intros n _. simpl. tauto.
Qed.

Lemma rmtree_raises p s e s' :
  rmtree p s = (Raise e, s') → e = OSError ∨ e = ValueError.
Proof.
  intros [[_ [?|?]]|(_ & _ & _ & H)]%rmtree_run.
  - left. congruence.
  - right. congruence.
  - case_decide; [left|]; congruence.
Qed.

Lemma filter_outside (p : path) (s : fs) (q : path) :
  filter (λ kv : path * node, ¬ p `prefix_of` kv.1) s !! q
  = if decide (p `prefix_of` q) then None else s !! q.
Proof.
  case_decide as H.
  - apply map_lookup_filter_None. right. intros n _. simpl. tauto.
  - destruct (s !! q) as [n|] eqn:Hs.
    + by apply map_lookup_filter_Some.
    + apply map_lookup_filter_None. by left.
Qed.

Lemma parent_snoc (p : path) c : parent (p ++ [c]) = p.
Proof.
  unfold parent. rewrite length_app. simpl.
  replace (length p + 1 - 1)%nat with (length p) by lia.
  by rewrite take_app_length.
Qed.

Lemma parent_app (p t : path) : t ≠ [] → parent (p ++ t) = p ++ parent t.
Proof.
  intros Ht. induction t as [|c t' _] using rev_ind; [done|].
  by rewrite app_assoc, !parent_snoc.
Qed.

Lemma parent_prefix (p : path) : parent p `prefix_of` p.
Proof. apply prefix_take. Qed.

Lemma parent_ne (p : path) : p ≠ [] → parent p ≠ p.
Proof.
  intros Hp E. apply (f_equal length) in E. unfold parent in E.
  rewrite length_take in E. destruct p; [done|]. simpl in E. lia.
Qed.

Lemma open_w_run p c0 s r s' :
  open_w p c0 s = (r, s') →
  (s' = s ∧ (r = Raise OSError ∨ r = Raise ValueError))
  ∨ (r = Ok () ∧ path_ok p = true ∧ stat s (parent p) = Some Dir
     ∧ stat s p ≠ Some Dir ∧ s' = <[p := File c0]> s).
Proof.
  unfold open_w. destruct (path_ok p); simpl; [|intros [= <- <-]; eauto].
  destruct (stat s (parent p)) as [[|c]|] eqn:Hpp; try (intros [= <- <-]; eauto).
  destruct (stat s p) as [[|c]|] eqn:Hp; intros [= <- <-]; eauto 10.
Qed.

Lemma open_w_ok p c0 s :
  path_ok p = true → stat s (parent p) = Some Dir → stat s p ≠ Some Dir →
  open_w p c0 s = (Ok (), <[p := File c0]> s).
Proof.
  intros H1 H2 H3. unfold open_w. rewrite H1, H2. simpl.
  by destruct (stat s p) as [[|c]|].
Qed.

Lemma write_text_run p data s r s' :
  write_text p data s = (r, s') →
  (s' = s ∧ (r = Raise OSError ∨ r = Raise ValueError))
  ∨ (path_ok p = true ∧ stat s (parent p) = Some Dir ∧ stat s p ≠ Some Dir
     ∧ match utf8_encode data with
       | Some b => r = Ok () ∧ s' = <[p := File (Raw b)]> s
       | None => r = Raise ValueError ∧ s' = <[p := File (Raw [])]> s
       end).
Proof.
  unfold write_text. intros [(e & H & ->)|([] & s1 & H & H')]%bind_run.
  - apply open_w_run in H as [[-> [?|?]]|[? _]]; [left; eauto..|done].
  - apply open_w_run in H as [[_ [?|?]]|(_ & ? & ? & ? & ->)]; [done..|].
    right. split_and!; [done..|].
    destruct (utf8_encode data).
    + unfold store in H'. injection H' as <- <-.
      by rewrite insert_insert_eq.
    + unfold raise in H'. by injection H' as <- <-.
Qed.

(** ** Sanitising and writing one entry *)

Lemma sanitize_total k :
  (_sanitize_relpath k = Ok (Path k) ∧ root (Path k) = []
   ∧ check_parts (tail (Path k)) = Ok ())
  ∨ _sanitize_relpath k = Raise (FilePackError UnsafePath).
Proof.
  unfold _sanitize_relpath, is_absolute, parts.
  destruct (root (Path k)) as [|c r] eqn:Hr; simpl; [|by right].
  destruct (check_parts (tail (Path k))) as [[]|e] eqn:Hc; simpl; [by left|].
  right. clear Hr. induction (tail (Path k)) as [|x l IH]; simpl in Hc; [done|].
  case_bool_decide; [congruence|eauto].
Qed.

Lemma join_app sep (a b : list pystr) :
  a ≠ [] → b ≠ [] → join sep (a ++ b) = join sep a ++ sep ++ join sep b.
Proof.
  intros Ha Hb. induction a as [|x a IH]; [done|].
  destruct a as [|y a]; simpl.
  - by destruct b.
  - simpl in IH. rewrite IH by done. by rewrite <- !app_assoc.
Qed.

Lemma containment_holds (root_ t : path) :
  root_ ≠ [] →
  negb (startswith (posix_str (root_ ++ t)) (posix_str root_ ++ [slash]))
  && negb (bool_decide (root_ ++ t = root_)) = false.
Proof.
  intros Hr. destruct t as [|c t].
  - rewrite app_nil_r. rewrite (bool_decide_eq_true_2 _ eq_refl).
    by rewrite andb_false_r.
  - unfold startswith, posix_str. rewrite join_app by done.
    rewrite bool_decide_eq_true_2; [done|].
    exists (join [slash] (c :: t)). rewrite <- app_assoc. reflexivity.
Qed.

Lemma write_entry_run root_ k v s r s' :
  root_ ≠ [] →
  write_entry root_ k v s = (r, s') →
  (_sanitize_relpath k = Raise (FilePackError UnsafePath)
   ∧ r = Raise (FilePackError UnsafePath) ∧ s' = s)
  ∨ (_sanitize_relpath k = Ok (Path k)
     ∧ ((r = Raise ValueError ∧ s' = s)
        ∨ (path_ok (target_of root_ k) = true
           ∧ ∃ rm s1, mkdir (parent (target_of root_ k)) s = (rm, s1)
              ∧ match rm with
                | Ok _ => write_text (target_of root_ k) v s1 = (r, s')
                | Raise e => r = Raise e ∧ s' = s1
                end))).
Proof.
  intros Hroot. unfold write_entry.
  destruct (sanitize_total k) as [(Hs & Hrel & _)|Hs].
  2:{ rewrite (bind_raise _ _ _ _ s) by (by unfold lift; rewrite Hs).
      intros [= <- <-]. by left. }
  rewrite (bind_ok _ _ s (Path k) s) by (by unfold lift; rewrite Hs).
  intros H. right. split; [done|].
  assert (Hj : joinpath root_ (Path k) = target_of root_ k).
  { unfold joinpath, is_absolute. by rewrite Hrel. }
  rewrite Hj in H. unfold resolve in H.
  destruct (path_ok (target_of root_ k)) eqn:Hok.
  2:{ rewrite (bind_raise _ _ _ ValueError s) in H by done.
      injection H as <- <-. by left. }
  rewrite (bind_ok _ _ s (target_of root_ k) s) in H by done.
  destruct (path_ok root_) eqn:Hok'.
  2:{ rewrite (bind_raise _ _ _ ValueError s) in H by done.
      injection H as <- <-. by left. }
  rewrite (bind_ok _ _ s root_ s) in H by done.
  unfold target_of in H at 1 2. rewrite containment_holds in H by done.
  right. split; [done|].
  apply bind_run in H as [(e & H & ->)|([] & s1 & H & H')].
  - by exists (Raise e), s'.
  - by exists (Ok ()), s1.
Qed.

Lemma stat_insert_ne (s : fs) (p q : path) n :
  q ≠ p → stat (<[p := n]> s) q = stat s q.
Proof. intros H. destruct q; [done|]. simpl. by rewrite lookup_insert_ne. Qed.

Lemma stat_insert_eq (s : fs) (p : path) n :
  p ≠ [] → stat (<[p := n]> s) p = Some n.
Proof. intros H. destruct p; [done|]. simpl. by rewrite lookup_insert_eq. Qed.

Lemma prefix_parent (q p : path) :
  q `prefix_of` p → q ≠ p → q `prefix_of` parent p.
Proof.
  intros [k ->] Hne. induction k as [|c k _] using rev_ind.
  - by rewrite app_nil_r in Hne.
  - rewrite app_assoc, parent_snoc. by apply prefix_app_r.
Qed.

Lemma kind_le_refl s : kind_le s s.
Proof. intros q. eauto. Qed.

Lemma kind_le_trans s1 s2 s3 : kind_le s1 s2 → kind_le s2 s3 → kind_le s1 s3.
Proof.
  intros H1 H2 q. destruct (H1 q) as [Ha Hb], (H2 q) as [Hc Hd]. split; [eauto|].
  intros c [c' Hc']%Hb. eauto.
Qed.

Lemma mkdir_kind p s r s' : mkdir p s = (r, s') → kind_le s s'.
Proof.
  intros H q. split.
  - by apply (mkdir_stat_keeps _ _ _ _ H).
  - intros c Hc. exists c. by apply (mkdir_stat_keeps _ _ _ _ H).
Qed.

Lemma insert_file_kind (s : fs) (p : path) c :
  stat s p ≠ Some Dir → kind_le s (<[p := File c]> s).
Proof.
  intros Hp q. destruct (decide (q = p)) as [->|Hne].
  - split; [done|]. intros c' Hc'. destruct p; [done|].
    exists c. simpl. by rewrite lookup_insert_eq.
  - rewrite stat_insert_ne by done. eauto.
Qed.

Lemma write_text_kind p data s r s' :
  write_text p data s = (r, s') → kind_le s s'.
Proof.
  intros [[-> _]|(_ & _ & Hp & H)]%write_text_run; [apply kind_le_refl|].
  destruct (utf8_encode data); destruct H as [_ ->]; by apply insert_file_kind.
Qed.

Lemma write_entry_kind root_ k v s r s' :
  root_ ≠ [] → write_entry root_ k v s = (r, s') → kind_le s s'.
Proof.
  intros Hr [(_ & _ & ->)|(_ & [[_ ->]|(_ & rm & s1 & Hm & H)])]%write_entry_run;
    [apply kind_le_refl..| |done].
  apply mkdir_kind in Hm. destruct rm as [[]|e].
  - apply write_text_kind in H. by eapply kind_le_trans.
  - by destruct H as [_ ->].
Qed.

Lemma write_entry_raises root_ k v s e s' :
  root_ ≠ [] → (∃ p, _sanitize_relpath k = Ok p) →
  write_entry root_ k v s = (Raise e, s') → e = OSError ∨ e = ValueError.
Proof.
  intros Hr [p Hp] [(Hs & _)|(_ & [[? _]|(_ & rm & s1 & Hm & H)])]%write_entry_run;
    [congruence|right; congruence| |done].
  destruct rm as [[]|e'].
  - apply write_text_run in H as [[_ [?|?]]|(_ & _ & _ & H)].
    + left; congruence.
    + right; congruence.
    + destruct (utf8_encode v); destruct H as [? _]; [done|right; congruence].
  - destruct H as [[= ->] _]. by eapply mkdir_raises.
Qed.

Lemma write_entry_post root_ k v s s' :
  root_ ≠ [] → stat s root_ = Some Dir →
  write_entry root_ k v s = (Ok (), s') →
  tail (Path k) ≠ []
  ∧ (∃ c, stat s' (target_of root_ k) = Some (File c))
  ∧ (∀ q : path, q `prefix_of` target_of root_ k → q ≠ target_of root_ k →
       stat s' q = Some Dir).
Proof.
  intros Hr Hdir [(_ & ? & _)|(_ & [[? _]|(_ & rm & s1 & Hm & H)])]%write_entry_run;
    [done..| |done].
  destruct rm as [[]|e]; [|by destruct H].
  apply write_text_run in H as [[_ [?|?]]|(_ & _ & Hnd & H)]; [done..|].
  destruct (utf8_encode v) as [b|]; destruct H as [? ->]; [|done].
  assert (Ht : target_of root_ k ≠ []).
  { unfold target_of. intros [? _]%app_eq_nil. done. }
  split_and!.
  - intros Hnil. apply Hnd. unfold target_of. rewrite Hnil, app_nil_r.
    by apply (mkdir_stat_keeps _ _ _ _ Hm).
  - exists (Raw b). by apply stat_insert_eq.
  - intros q Hq Hne. rewrite stat_insert_ne by done.
    apply (mkdir_ok_dirs _ _ _ _ Hm); [done|]. by apply prefix_parent.
Qed.

(** ** The loop of [_write_files] *)

Lemma write_files_cons root_ k v d :
  _write_files root_ ((k, v) :: d)
  = (let! _ := write_entry root_ k v in _write_files root_ d).
Proof. reflexivity. Qed.

Lemma write_files_kind root_ d s r s' :
  root_ ≠ [] → _write_files root_ d s = (r, s') → kind_le s s'.
Proof.
  intros Hr. revert s. induction d as [|[k v] d IH]; intros s.
  - intros [= <- <-]. apply kind_le_refl.
  - rewrite write_files_cons.
    intros [(e & H & ->)|([] & s1 & H & H')]%bind_run.
    + by eapply write_entry_kind.
    + eapply kind_le_trans; [by eapply write_entry_kind|by apply IH].
Qed.

Lemma write_files_raises root_ d s e s' :
  root_ ≠ [] →
  (∀ k v, (k, v) ∈ d → ∃ p, _sanitize_relpath k = Ok p) →
  _write_files root_ d s = (Raise e, s') → e = OSError ∨ e = ValueError.
Proof.
  intros Hr. revert s. induction d as [|[k v] d IH]; intros s Hs; [done|].
  rewrite write_files_cons.
  intros [(e' & H & [= <-])|([] & s1 & H & H')]%bind_run.
  - eapply write_entry_raises; [done| |done]. eapply Hs. left.
  - eapply IH; [|done]. intros k' v' Hin. eapply Hs. by right.
Qed.

Lemma write_files_post root_ d s s' :
  root_ ≠ [] → stat s root_ = Some Dir →
  _write_files root_ d s = (Ok (), s') →
  ∀ k v, (k, v) ∈ d →
    tail (Path k) ≠ []
    ∧ (∃ c, stat s' (target_of root_ k) = Some (File c))
    ∧ (∀ q : path, q `prefix_of` target_of root_ k → q ≠ target_of root_ k →
         stat s' q = Some Dir).
Proof.
  intros Hr. revert s. induction d as [|[k v] d IH]; intros s Hdir.
  - intros _ k v Hin. by apply elem_of_nil in Hin.
  - rewrite write_files_cons.
    intros [(e & _ & ?)|([] & s1 & H & H')]%bind_run; [done|].
    intros k' v' Hin.
    pose proof (write_entry_kind _ _ _ _ _ _ Hr H) as Hk1.
    pose proof (write_files_kind _ _ _ _ _ Hr H') as Hk2.
    apply elem_of_cons in Hin as [[= -> ->]|Hin].
    + destruct (write_entry_post _ _ _ _ _ Hr Hdir H) as (Ha & [c Hb] & Hc).
      split_and!; [done| |].
      * by apply (proj2 (Hk2 _) c).
      * intros q Hq Hne. apply (proj1 (Hk2 q)). by apply Hc.
    + eapply IH; [|done..]. by apply (proj1 (Hk1 root_)).
Qed.

(** ** The staging directory *)

Lemma recreate_dir_run p s r s' :
  _recreate_dir p s = (r, s') →
  (∃ e, r = Raise e ∧ (e = OSError ∨ e = ValueError))
  ∨ (r = Ok () ∧ stat s' p = Some Dir).
Proof.
  unfold _recreate_dir.
  intros [(e & H & _)|(b & s1 & H & H')]%bind_run; [done|].
  injection H as <- <-.
  apply bind_run in H' as [(e & H & ->)|([] & s1 & H & H')].
  - left. exists e. split; [done|]. destruct (_ && _); [|done].
    by eapply rmtree_raises.
  - destruct r as [[]|e].
    + right. split; [done|]. by eapply mkdir_ok_dirs.
    + left. exists e. split; [done|]. by eapply mkdir_raises.
Qed.

Lemma safe_remove_dir_ok p s : (_safe_remove_dir p s).1 = Ok ().
Proof. done. Qed.

Lemma safe_remove_dir_state p s :
  (_safe_remove_dir p s).2
  = if path_ok p && dir_at s p
    then filter (λ kv, ¬ p `prefix_of` kv.1) s else s.
Proof.
  unfold _safe_remove_dir, try_except_pass, bind, exists_, rmtree, ret, dir_at.
  simpl.
  destruct (path_ok p); simpl; [|done].
  destruct (stat s p) as [[|c]|] eqn:Hp; simpl; try done.
  - rewrite Hp. by destruct p.
  - by rewrite Hp.
Qed.

Lemma try_finally_safe_remove {A} (body : M A) p s :
  try_finally body (_safe_remove_dir p) s
  = ((body s).1, (_safe_remove_dir p (body s).2).2).
Proof. unfold try_finally. by destruct (body s) as [r s1]. Qed.

(** ** The ways out of [json2file] *)

Section Exits.
Variable json_loads : pystr → option pyval.
Context (file_map : pyval) (base_dir out_dir : path) (project_name : pystr).

Lemma json2file_exit (s : fs) :
  exit_path json_loads file_map base_dir out_dir project_name s
    (json2file json_loads file_map base_dir out_dir project_name s).1
    (json2file json_loads file_map base_dir out_dir project_name s).2.
Proof.
  unfold json2file, bind, lift.
  destruct (_parse_file_map json_loads file_map) as [d|e] eqn:Hp; simpl;
    [|by apply exit_parse].
  destruct (_validate_project_name project_name) as [[]|e] eqn:Hn; simpl;
    [|by eapply exit_name].
  destruct (_ensure_dir base_dir s) as [[[]|e] s1] eqn:Hb; simpl;
    [|by eapply exit_base].
  destruct (_ensure_dir out_dir s1) as [[[]|e] s2] eqn:Ho; simpl;
    [|by eapply exit_out].
  rewrite try_finally_safe_remove. simpl.
  eapply exit_staged; try done. by destruct (json2file_try _ _ _ _ _).
Qed.
End Exits.

(** ** Keys that collide on disk *)

Lemma write_files_conflict root_ d s s' :
  root_ ≠ [] → stat s root_ = Some Dir → conflicting d →
  _write_files root_ d s ≠ (Ok (), s').
Proof.
  intros Hr Hdir Hc Hrun.
  pose proof (write_files_post _ _ _ _ Hr Hdir Hrun) as Hpost.
  destruct Hc as [(k & v & Hin & Hnil)|(k1 & v1 & k2 & v2 & H1 & H2 & Hpre & Hne)].
  - by destruct (Hpost k v Hin) as [? _].
  - destruct (Hpost k1 v1 H1) as (_ & [c Hf] & _).
    destruct (Hpost k2 v2 H2) as (_ & _ & Hd).
    rewrite Hd in Hf; [done| |].
    + by apply prefix_app.
    + unfold target_of. intros E. by apply app_inv_head in E.
Qed.

Lemma json2file_try_conflict root_ out d name s r s' :
  root_ ≠ [] → conflicting d →
  (∀ k v, (k, v) ∈ d → ∃ p, _sanitize_relpath k = Ok p) →
  json2file_try root_ out d name s = (r, s') →
  ∃ e, r = Raise e ∧ (e = OSError ∨ e = ValueError).
Proof.
  intros Hr Hc Hs. unfold json2file_try.
  intros [(e & H & ->)|([] & s1 & H & H')]%bind_run.
  - apply recreate_dir_run in H as [(e' & [= ->] & ?)|[? _]]; [eauto|done].
  - apply recreate_dir_run in H as [(e' & ? & _)|[_ Hdir]]; [done|].
    apply bind_run in H' as [(e & H & ->)|([] & s2 & H & _)].
    + exists e. split; [done|]. by eapply write_files_raises.
    + by destruct (write_files_conflict _ _ _ _ Hr Hdir Hc H).
Qed.

(** ** What a computation may raise, and what it leaves alone *)

Section Combinators.
Context {A B : Type}.

Lemma raises_only_bind P (m : M A) (f : A → M B) :
  raises_only P m → (∀ a, raises_only P (f a)) → raises_only P (bind m f).
Proof.
  intros Hm Hf s e s' [(e' & H & [= <-])|(a & s1 & H & H')]%bind_run.
  - by eapply Hm.
  - by eapply Hf.
Qed.

Lemma raises_only_ret P (a : A) : raises_only P (ret a).
Proof. by intros s e s'. Qed.

Lemma raises_only_try_finally P (m : M A) (fin : M ()) :
  raises_only P m → raises_only P fin → raises_only P (try_finally m fin).
Proof.
  intros Hm Hf s e s'. unfold try_finally.
  destruct (m s) as [r s1] eqn:H1. destruct (fin s1) as [[[]|e'] s2] eqn:H2.
  - intros [= -> <-]. by eapply Hm.
  - intros [= <- <-]. by eapply Hf.
Qed.

Lemma preserves_bind R `{!Transitive R} (m : M A) (f : A → M B) :
  preserves R m → (∀ a, preserves R (f a)) → preserves R (bind m f).
Proof.
  intros Hm Hf s r s' [(e' & H & ->)|(a & s1 & H & H')]%bind_run.
  - by eapply Hm.
  - etrans; [by eapply Hm|by eapply Hf].
Qed.

Lemma preserves_pure R `{!Reflexive R} (x : res A) : preserves R (lift x).
Proof. by intros s r s' [= <- <-]. Qed.
End Combinators.

Lemma raises_only_for_each {A : Type} P (l : list A) (f : A → M ()) :
  (∀ a, raises_only P (f a)) → raises_only P (for_each l f).
Proof.
  intros Hf. induction l as [|x l IH]; [by intros s e s'|].
  by apply raises_only_bind.
Qed.

Lemma preserves_for_each {A : Type} R `{!PreOrder R} (l : list A) (f : A → M ()) :
  (∀ a, preserves R (f a)) → preserves R (for_each l f).
Proof.
  intros Hf. induction l as [|x l IH]; [by intros s r s' [= <- <-]|].
  apply preserves_bind; [apply _|done|done].
Qed.

Global Instance files_outside_preorder (tmp : path) : PreOrder (files_outside tmp).
Proof.
  split.
  - by intros s q c _.
  - intros s1 s2 s3 H1 H2 q c Hq. by rewrite (H1 q c Hq), (H2 q c Hq).
Qed.

Lemma files_outside_lookup (tmp : path) (s s' : fs) :
  (∀ q : path, ¬ tmp `prefix_of` q → s' !! q = s !! q) → files_outside tmp s s'.
Proof. intros H q c Hq. destruct q; [done|]. simpl. by rewrite H. Qed.

(** *** What raises what *)

Lemma mkdir_os p : raises_only os_error (mkdir p).
Proof. intros s e s' H. by eapply mkdir_raises. Qed.

Lemma rmtree_os p : raises_only os_error (rmtree p).
Proof. intros s e s' H. by eapply rmtree_raises. Qed.

Lemma unlink_os p : raises_only os_error (unlink p).
Proof.
  intros s e s'. unfold unlink. destruct (path_ok p); simpl.
  - destruct (stat s p) as [[|c]|]; intros [= <-]; by left.
  - intros [= <-]. by right.
Qed.

Lemma open_w_os p c0 : raises_only os_error (open_w p c0).
Proof.
  intros s e s' [[_ [?|?]]|[? _]]%open_w_run; [left|right|]; congruence.
Qed.

Lemma resolve_os p : raises_only os_error (lift (resolve p)).
Proof.
  intros s e s'. unfold lift, resolve. destruct (path_ok p); [done|].
  intros [= <-]. by right.
Qed.

Lemma zip_member_os zp src file : raises_only os_error (zip_member zp src file).
Proof.
  unfold zip_member. apply raises_only_bind; [by intros s e s'|].
  intros [|]; [|apply raises_only_ret].
  apply raises_only_bind.
  - intros s e s'. unfold lift, relative_to. case_bool_decide; [done|].
    intros [= <-]. by right.
  - intros arc. unfold zf_write. apply raises_only_bind.
    + intros s e s'. unfold read_file.
      destruct (stat s file) as [[|c]|]; intros [= <-]; by left.
    + intros c. destruct (utf8_encode (pure_str arc)).
      * intros s e s'. destruct (stat s zp) as [[|[]]|]; intros [= <-]; by left.
      * intros s e s' [= <-]. by right.
Qed.

Lemma make_zip_os src out zip_name : raises_only os_error (_make_zip src out zip_name).
Proof.
  unfold _make_zip. apply raises_only_bind; [apply resolve_os|]. intros zp.
  apply raises_only_bind; [by intros s e s'|]. intros b.
  apply raises_only_bind.
  { destruct b; [apply unlink_os|apply raises_only_ret]. }
  intros _. apply raises_only_bind; [apply open_w_os|]. intros _.
  apply raises_only_bind; [|intros; apply raises_only_ret].
  apply raises_only_try_finally.
  - apply raises_only_bind; [by intros s e s'|]. intros files.
    apply raises_only_for_each. intros f. apply zip_member_os.
  - intros s e s'. unfold zf_close.
    destruct (stat s zp) as [[|[]]|]; intros [= <-]; by left.
Qed.

(** *** What stays outside the staging directory *)

Lemma mkdir_frame (tmp p : path) : preserves (files_outside tmp) (mkdir p).
Proof.
  intros s r s' H q c _. destruct q; [done|]. simpl.
  by rewrite (mkdir_files _ _ _ _ H).
Qed.

Lemma rmtree_frame (tmp : path) : preserves (files_outside tmp) (rmtree tmp).
Proof.
  intros s r s' H. apply files_outside_lookup. intros q Hq.
  by eapply rmtree_outside.
Qed.

Lemma recreate_dir_frame (tmp : path) :
  preserves (files_outside tmp) (_recreate_dir tmp).
Proof.
  unfold _recreate_dir. apply preserves_bind; [apply _| |].
  - by intros s r s' [= <- <-].
  - intros b. apply preserves_bind; [apply _| |intros; apply mkdir_frame].
    destruct b; [apply rmtree_frame|by intros s r s' [= <- <-]].
Qed.

Lemma safe_remove_dir_frame (tmp : path) s :
  files_outside tmp s (_safe_remove_dir tmp s).2.
Proof.
  rewrite safe_remove_dir_state. destruct (_ && _); [|done].
  apply files_outside_lookup. intros q Hq. rewrite filter_outside.
  by case_decide.
Qed.

Lemma write_text_frame (tmp p : path) data :
  tmp `prefix_of` p → preserves (files_outside tmp) (write_text p data).
Proof.
  intros Hp s r s' [[-> _]|(_ & _ & _ & H)]%write_text_run; [done|].
  apply files_outside_lookup. intros q Hq.
  assert (q ≠ p) by (by intros ->).
  destruct (utf8_encode data); destruct H as [_ ->];
    by rewrite lookup_insert_ne.
Qed.

Lemma write_entry_frame (tmp : path) k v :
  preserves (files_outside tmp) (write_entry tmp k v).
Proof.
  destruct (decide (tmp = [])) as [->|Hr].
  { intros s r s' _ q c Hq. destruct Hq. apply prefix_nil. }
  intros s r s' [(_ & _ & ->)|(_ & [[_ ->]|(_ & rm & s1 & Hm & H)])]%write_entry_run;
    [done..| |done].
  apply mkdir_frame with (tmp := tmp) in Hm. destruct rm as [[]|e].
  - etrans; [done|]. eapply write_text_frame; [|done].
    by apply prefix_app_r.
  - by destruct H as [_ ->].
Qed.

Lemma write_files_frame (tmp : path) d :
  preserves (files_outside tmp) (_write_files tmp d).
Proof. apply preserves_for_each; [apply _|]. intros. apply write_entry_frame. Qed.

Lemma write_entry_staging_error root_ k v :
  raises_only staging_error (write_entry root_ k v).
Proof.
  unfold write_entry. apply raises_only_bind.
  { intros s e s' [H _]%lift_run.
    destruct (sanitize_total k) as [[? _]|?]; [congruence|].
    right. congruence. }
  intros p. apply raises_only_bind.
  { intros s e s' H. left. by eapply resolve_os. }
  intros target. apply raises_only_bind.
  { intros s e s' H. left. by eapply resolve_os. }
  intros root'. destruct (_ && _).
  { intros s e s' [= <-]. by right. }
  apply raises_only_bind.
  { intros s e s' H. left. by eapply mkdir_os. }
  intros _ s e s' [[_ [?|?]]|(_ & _ & _ & H)]%write_text_run.
  - left; left; congruence.
  - left; right; congruence.
  - destruct (utf8_encode v); destruct H as [? _]; [done|].
    left; right; congruence.
Qed.

Lemma recreate_dir_ok_path p s s' :
  _recreate_dir p s = (Ok (), s') → path_ok p = true.
Proof.
  unfold _recreate_dir.
  intros [(e & _ & ?)|(b & s1 & _ & [(e & _ & ?)|([] & s2 & _ & H)]%bind_run)]%bind_run;
    [done..|].
  by eapply mkdir_ok_path.
Qed.

Lemma json2file_try_pack_error (tmp out : path) d name s k s' :
  json2file_try tmp out d name s = (Raise (FilePackError k), s') →
  k = UnsafePath ∧ files_outside tmp s s'
  ∧ stat s' tmp = Some Dir ∧ path_ok tmp = true.
Proof.
  unfold json2file_try.
  intros [(e & H & [= <-])|([] & s1 & H & H')]%bind_run.
  { by apply recreate_dir_run in H as [(e' & [= <-] & [?|?])|[? _]]. }
  pose proof (recreate_dir_frame tmp _ _ _ H) as Hf1.
  pose proof (recreate_dir_ok_path _ _ _ H) as Hok.
  apply recreate_dir_run in H as [(e' & ? & _)|[_ Hdir]]; [done|].
  apply bind_run in H' as [(e & H & [= <-])|([] & s2 & H & H')].
  - pose proof (write_files_frame tmp _ _ _ _ H) as Hf2.
    split_and!; [|by etrans| |done].
    + assert (Hw : raises_only staging_error (_write_files tmp d)).
      { apply raises_only_for_each. intros. apply write_entry_staging_error. }
      by destruct (Hw _ _ _ H) as [[?|?]|[= ->]].
    + destruct (decide (tmp = [])) as [->|Hr]; [done|].
      by apply (proj1 (write_files_kind _ _ _ _ _ Hr H tmp)).
  - apply bind_run in H' as [(e & H2 & [= <-])|(zp & s3 & _ & ?)]; [|done].
    by apply make_zip_os in H2 as [?|?].
Qed.

(** ** File maps that can be staged *)

Lemma prefix_free_middle (l1 l2 : list path) x :
  prefix_free (l1 ++ x :: l2) → Forall (incomparable x) l1.
Proof.
  induction l1 as [|y l1 IH]; simpl; [by constructor|].
  intros [Hy Hrest]. constructor; [|by apply IH].
  apply Forall_app in Hy as [_ Hy]. apply Forall_cons in Hy as [[? ?] _].
  by split.
Qed.

Lemma prefix_free_NoDup (l : list path) : prefix_free l → NoDup l.
Proof.
  induction l as [|x l IH]; simpl; [constructor|].
  intros [Hx Hl]. constructor; [|by apply IH].
  intros Hin. rewrite Forall_forall in Hx. destruct (Hx x Hin) as [Hxx _].
  by apply Hxx.
Qed.

(** ** Recreating the staging directory *)

Lemma recreate_dir_fresh (tmp : path) (s : fs) :
  tmp ≠ [] → path_ok tmp = true →
  (∀ q : path, q `prefix_of` tmp → q ≠ tmp → stat s q = Some Dir) →
  (dir_at s tmp = true ∨ ∀ q : path, tmp `prefix_of` q → s !! q = None) →
  ∃ s', _recreate_dir tmp s = (Ok (), s')
        ∧ s' !! tmp = Some Dir
        ∧ (∀ q : path, tmp `prefix_of` q → q ≠ tmp → s' !! q = None)
        ∧ (∀ q : path, ¬ tmp `prefix_of` q → s' !! q = s !! q).
Proof.
  intros Hne Hok Hpar Hfree.
  set (s0 := filter (λ kv : path * node, ¬ tmp `prefix_of` kv.1) s).
  assert (Hrm : ∃ b : bool, (if b then rmtree tmp else ret ()) s = (Ok (), s0)
                     ∧ b = path_ok tmp && bool_decide (is_Some (stat s tmp))).
  { rewrite Hok. simpl. destruct Hfree as [Hd|Hfree].
    - unfold dir_at in Hd. destruct (stat s tmp) as [[|c]|] eqn:Hs; try done.
      exists true. split; [|by rewrite bool_decide_eq_true_2].
      unfold rmtree. rewrite Hok, Hs. simpl. by destruct tmp.
    - exists false. split.
      + unfold ret. f_equal. apply map_eq. intros q. unfold s0.
        rewrite filter_outside. case_decide; [by rewrite Hfree|done].
      + symmetry. apply bool_decide_eq_false_2. rewrite stat_nonroot by done.
        rewrite Hfree by done. by intros []. }
  destruct Hrm as (b & Hrm & Hb).
  assert (Hs0 : ∀ q : path, s0 !! q = if decide (tmp `prefix_of` q) then None else s !! q)
    by (intros q; apply filter_outside).
  destruct (mkdir_succeeds tmp s0 Hok) as [s' Hmk].
  { intros q c Hq. destruct (decide (q = tmp)) as [->|Hqne].
    - rewrite stat_nonroot, Hs0 by done. by rewrite decide_True.
    - destruct q as [|x q]; [done|]. simpl. rewrite Hs0.
      rewrite decide_False.
      + specialize (Hpar (x :: q) Hq Hqne). simpl in Hpar. by rewrite Hpar.
      + intros Hq'. apply Hqne. by apply (anti_symm prefix). }
  exists s'. split_and!.
  - unfold _recreate_dir, bind, exists_. rewrite <- Hb, Hrm. done.
  - pose proof (mkdir_ok_dirs _ _ _ _ Hmk tmp eq_refl) as H.
    rewrite stat_nonroot in H by done. by apply H.
  - intros q Hq Hqne. destruct (s' !! q) as [n|] eqn:Hsq; [|done].
    apply (mkdir_adds_dirs _ _ _ _ Hmk) in Hsq as [Hsq|(_ & _ & _ & Hq')].
    + rewrite Hs0, decide_True in Hsq by done. done.
    + destruct Hqne. by apply (anti_symm prefix).
  - intros q Hq. destruct (s' !! q) as [n|] eqn:Hsq.
    + apply (mkdir_adds_dirs _ _ _ _ Hmk) in Hsq as [Hsq|(Hnone & -> & Hq0 & Hq')].
      * rewrite Hs0, decide_False in Hsq by done. done.
      * rewrite Hs0, decide_False in Hnone by done.
        assert (q ≠ tmp) by (intros ->; by apply Hq).
        specialize (Hpar q Hq' H). rewrite stat_nonroot in Hpar by done.
        congruence.
    + destruct (s !! q) as [n|] eqn:Hsq'; [|done].
      assert (s0 !! q = Some n) as Hs0q by (by rewrite Hs0, decide_False).
      apply (mkdir_keeps _ _ _ _ Hmk) in Hs0q. congruence.
Qed.

(** ** Writing the entries into a fresh staging directory *)

Lemma path_ok_app (p q : path) : path_ok (p ++ q) = path_ok p && path_ok q.
Proof. apply forallb_app. Qed.

Lemma path_ok_prefix (p q : path) :
  p `prefix_of` q → path_ok q = true → path_ok p = true.
Proof. intros [k ->]. rewrite path_ok_app. by intros [? _]%andb_true_iff. Qed.

Lemma target_of_ne_root (tmp : path) k : tail (Path k) ≠ [] → target_of tmp k ≠ tmp.
Proof.
  intros Ht E. unfold target_of in E.
  rewrite <- (app_nil_r tmp) in E at 2. by apply app_inv_head in E.
Qed.

Lemma target_of_nonempty (tmp : path) k : tmp ≠ [] → target_of tmp k ≠ [].
Proof. intros Ht [? _]%app_eq_nil. done. Qed.

Lemma target_of_prefix (tmp : path) k k' :
  target_of tmp k `prefix_of` target_of tmp k' →
  tail (Path k) `prefix_of` tail (Path k').
Proof. apply prefix_app_inv. Qed.

Section Staging.
Context (tmp : path) (s3 : fs).
Hypothesis Htmp : tmp ≠ [].
Hypothesis Hok : path_ok tmp = true.
Hypothesis Hpar : ∀ q : path, q `prefix_of` tmp → stat s3 q = Some Dir.

Lemma staged_above done s (q : path) :
  staged tmp s3 done s → q `prefix_of` tmp → stat s q = Some Dir.
Proof.
  intros (Ho & Hd & _) Hq. destruct (decide (q = tmp)) as [->|Hne].
  - by rewrite stat_nonroot.
  - destruct q as [|x q]; [done|]. simpl. rewrite Ho.
    + by apply (Hpar (x :: q)).
    + intros Hq'. apply Hne. by apply (anti_symm prefix).
Qed.

Lemma write_entry_staged done s k v b :
  staged tmp s3 done s →
  normal_key k →
  path_ok (tail (Path k)) = true →
  utf8_encode v = Some b →
  Forall (λ kv, incomparable (tail (Path k)) (tail (Path kv.1))) done →
  ∃ s', write_entry tmp k v s = (Ok (), s')
        ∧ staged tmp s3 (done ++ [(k, v)]) s'.
Proof.
  intros Hst (Hsan & Hne & _) Hpok Hv Hinc.
  pose proof Hst as (Ho & Hd & Hf & Hdir).
  rewrite Forall_forall in Hinc.
  set (t := target_of tmp k).
  assert (Ht : t ≠ []) by by apply target_of_nonempty.
  assert (Htt : t ≠ tmp) by by apply target_of_ne_root.
  assert (Hunder : tmp `prefix_of` t) by by apply prefix_app_r.
  assert (Htok : path_ok t = true).
  { unfold t, target_of. by rewrite path_ok_app, Hok, Hpok. }
  assert (Hpt : parent t = tmp ++ parent (tail (Path k))) by by apply parent_app.
  (* the parents can be created *)
  destruct (mkdir_succeeds (parent t) s) as [s1 Hmk].
  { eapply path_ok_prefix; [apply parent_prefix|done]. }
  { intros q c Hq Hfile.
    destruct (prefix_weak_total q tmp (parent t)) as [Hqt|Hqt];
      [done|rewrite Hpt; by apply prefix_app_r| |].
    - rewrite (staged_above _ _ _ Hst Hqt) in Hfile. done.
    - assert (q ≠ []) by (intros ->; by apply prefix_nil_inv in Hqt).
      rewrite stat_nonroot in Hfile by done.
      apply Hf in Hfile as (k' & v' & b' & Hin & -> & _); [|done].
      destruct (Hinc _ Hin) as [_ Hbad]. apply Hbad. simpl.
      apply target_of_prefix with (tmp := tmp).
      etrans; [done|]. apply parent_prefix. }
  (* the target is not a directory *)
  assert (Hnd : stat s1 t ≠ Some Dir).
  { rewrite stat_nonroot by done. intros Hs1.
    apply (mkdir_adds_dirs _ _ _ _ Hmk) in Hs1 as [Hs|(_ & _ & _ & Hq)].
    - apply Hdir in Hs as [?|(k' & v' & Hin & Hp & Hpne)]; [done| |done].
      destruct (Hinc _ Hin) as [Hbad _]. apply Hbad. simpl.
      by apply target_of_prefix with (tmp := tmp).
    - apply (parent_ne t Ht). apply (anti_symm prefix); [apply parent_prefix|done]. }
  assert (Hpd : stat s1 (parent t) = Some Dir)
    by by apply (mkdir_ok_dirs _ _ _ _ Hmk).
  exists (<[t := File (Raw b)]> s1). split.
  - unfold write_entry.
    rewrite (bind_ok _ _ s (Path k) s) by (by unfold lift; rewrite Hsan).
    assert (Hj : joinpath tmp (Path k) = t).
    { unfold joinpath, is_absolute.
      destruct (sanitize_total k) as [(_ & -> & _)|?]; [done|congruence]. }
    rewrite Hj.
    rewrite (bind_ok _ _ s t s) by (by unfold lift, resolve; rewrite Htok).
    rewrite (bind_ok _ _ s tmp s) by (by unfold lift, resolve; rewrite Hok).
    unfold t at 1 2, target_of. rewrite containment_holds by done.
    fold (target_of tmp k). fold t.
    rewrite (bind_ok _ _ s () s1) by done.
    unfold write_text.
    rewrite (bind_ok _ _ s1 () (<[t := File (Raw [])]> s1))
      by by apply open_w_ok.
    rewrite Hv. unfold store. by rewrite insert_insert_eq.
  - split_and!.
    + intros q Hq. assert (q ≠ t) by (by intros ->).
      rewrite lookup_insert_ne by done. rewrite <- Ho by done.
      destruct (s1 !! q) as [n|] eqn:Hs1.
      * apply (mkdir_adds_dirs _ _ _ _ Hmk) in Hs1 as [?|(Hnone & -> & Hq0 & Hq')];
          [done|].
        destruct (prefix_weak_total q tmp (parent t)) as [Hqt|Hqt];
          [done|rewrite Hpt; by apply prefix_app_r| |done].
        pose proof (staged_above _ _ _ Hst Hqt) as Hsq.
        rewrite stat_nonroot in Hsq by done. congruence.
      * destruct (s !! q) as [n|] eqn:Hsq; [|done].
        apply (mkdir_keeps _ _ _ _ Hmk) in Hsq. congruence.
    + rewrite lookup_insert_ne by done. by apply (mkdir_keeps _ _ _ _ Hmk).
    + intros q c Hq. destruct (decide (q = t)) as [->|Hqt].
      * rewrite lookup_insert_eq. split.
        -- intros [= <-]. exists k, v, b. split_and!; try done.
           apply elem_of_app. right. left.
        -- intros (k' & v' & b' & Hin & Heq & Hv' & ->).
           apply elem_of_app in Hin as [Hin|Hin].
           ++ destruct (Hinc _ Hin) as [Hbad _]. destruct Hbad. simpl.
              apply target_of_prefix with (tmp := tmp). fold t. by rewrite Heq.
           ++ apply list_elem_of_singleton in Hin as [= -> ->]. congruence.
      * rewrite lookup_insert_ne by done.
        rewrite (mkdir_files _ _ _ _ Hmk). rewrite Hf by done. split.
        -- intros (k' & v' & b' & Hin & ?). exists k', v', b'.
           split; [|done]. apply elem_of_app. by left.
        -- intros (k' & v' & b' & Hin & Heq & ?).
           apply elem_of_app in Hin as [Hin|Hin]; [by exists k', v', b'|].
           apply list_elem_of_singleton in Hin as [= -> ->]. done.
    + intros q Hq Hsq. destruct (decide (q = t)) as [->|Hqt].
      { by rewrite lookup_insert_eq in Hsq. }
      rewrite lookup_insert_ne in Hsq by done.
      apply (mkdir_adds_dirs _ _ _ _ Hmk) in Hsq as [Hs|(_ & _ & _ & Hq')].
      * apply Hdir in Hs as [?|(k' & v' & Hin & ?)]; [by left| |done].
        right. exists k', v'. split; [|done]. apply elem_of_app. by left.
      * right. exists k, v. split_and!.
        -- apply elem_of_app. right. left.
        -- etrans; [done|]. apply parent_prefix.
        -- done.
Qed.
End Staging.

Lemma write_files_staged (tmp : path) (s3 : fs) todo :
  tmp ≠ [] → path_ok tmp = true →
  (∀ q : path, q `prefix_of` tmp → stat s3 q = Some Dir) →
  ∀ done s,
    staged tmp s3 done s →
    Forall (λ kv, normal_key kv.1 ∧ path_ok (tail (Path kv.1)) = true
                  ∧ is_Some (utf8_encode kv.2)) todo →
    prefix_free ((λ kv, tail (Path kv.1)) <$> (done ++ todo)) →
    ∃ s', _write_files tmp todo s = (Ok (), s')
          ∧ staged tmp s3 (done ++ todo) s'.
Proof.
  intros Htmp Hok Hpar. induction todo as [|[k v] todo IH]; intros done s Hst Hall Hpf.
  - exists s. by rewrite app_nil_r.
  - apply Forall_cons in Hall as [(Hnk & Hpk & [b Hb]) Hall].
    destruct (write_entry_staged tmp s3 Htmp Hok Hpar done s k v b)
      as (s1 & Hrun & Hst1); [done..| |].
    { rewrite fmap_app in Hpf. simpl in Hpf.
      apply prefix_free_middle in Hpf. rewrite Forall_fmap in Hpf. exact Hpf. }
    destruct (IH (done ++ [(k, v)]) s1) as (s' & Hrun' & Hst'); [done..| |].
    { by rewrite <- app_assoc. }
    exists s'. split.
    + rewrite write_files_cons. by rewrite (bind_ok _ _ s () s1).
    + by rewrite <- app_assoc in Hst'.
Qed.

(** ** Zipping the staged tree *)

Lemma zip_entry_insert (src zp f : path) (n : node) (s : fs) :
  f ≠ zp → zip_entry src (<[zp := n]> s) f = zip_entry src s f.
Proof. intros H. unfold zip_entry. by rewrite stat_insert_ne. Qed.

Lemma zip_member_run (zp src file : path) (es0 : list (pystr * content)) (s : fs) :
  zp ≠ [] → stat s zp = Some (File (ZipOpen es0)) →
  src `prefix_of` file →
  (∀ c, stat s file = Some (File c) → is_Some (utf8_encode (arcname_of src file))) →
  zip_member zp src file s
  = (Ok (), <[zp := File (ZipOpen (es0 ++ option_list (zip_entry src s file)))]> s).
Proof.
  intros Hzp Hopen Hsrc Henc.
  assert (Hid : <[zp := File (ZipOpen (es0 ++ []))]> s = s).
  { rewrite app_nil_r. apply insert_id. by rewrite <- stat_nonroot. }
  unfold zip_member, zip_entry, bind, is_file.
  destruct (path_ok file); simpl; [|by rewrite Hid].
  destruct (stat s file) as [[|c]|] eqn:Hf; simpl; try by rewrite Hid.
  unfold lift, relative_to. rewrite bool_decide_eq_true_2.
  2:{ etrans; [apply parent_prefix|done]. }
  unfold zf_write, bind, read_file. rewrite Hf.
  fold (arcname_of src file).
  destruct (Henc c eq_refl) as [bs ->]. by rewrite Hopen.
Qed.

Lemma zip_loop (zp src : path) files :
  zp ≠ [] →
  ∀ (es0 : list (pystr * content)) (s : fs),
    stat s zp = Some (File (ZipOpen es0)) →
    Forall (λ f, src `prefix_of` f ∧ f ≠ zp
                 ∧ ∀ c, stat s f = Some (File c) →
                        is_Some (utf8_encode (arcname_of src f))) files →
    for_each files (zip_member zp src) s
    = (Ok (), <[zp := File (ZipOpen (es0 ++ omap (zip_entry src s) files))]> s).
Proof.
  intros Hzp. induction files as [|f files IH]; intros es0 s Hopen Hall.
  - simpl. unfold ret. rewrite app_nil_r. f_equal. symmetry.
    apply insert_id. by rewrite <- stat_nonroot.
  - apply Forall_cons in Hall as [(Hsrc & Hne & Henc) Hall].
    change (for_each (f :: files) (zip_member zp src))
      with (let! _ := zip_member zp src f in for_each files (zip_member zp src)).
    rewrite (bind_ok _ _ s () _ (zip_member_run zp src f es0 s Hzp Hopen Hsrc Henc)).
    rewrite (IH (es0 ++ option_list (zip_entry src s f))).
    + rewrite insert_insert_eq. do 3 f_equal. rewrite <- app_assoc. f_equal.
      simpl. rewrite (list_omap_ext (zip_entry src (<[zp:=_]> s)) (zip_entry src s) files files).
      * by destruct (zip_entry src s f).
      * apply Forall_Forall2_diag. eapply Forall_impl; [done|].
        intros f' (_ & Hne' & _). simpl. by rewrite zip_entry_insert.
    + by apply stat_insert_eq.
    + eapply Forall_impl; [done|]. intros f' (? & ? & Henc'). split_and!; [done..|].
      intros c. rewrite stat_insert_ne by done. apply Henc'.
Qed.

Lemma below_spec (src : path) (s : fs) (f : path) :
  f ∈ below src s ↔ is_Some (s !! f) ∧ src `prefix_of` f ∧ f ≠ src.
Proof.
  unfold below. rewrite list_elem_of_fmap. split.
  - intros ([f' n] & -> & Hin). apply elem_of_map_to_list in Hin.
    apply map_lookup_filter_Some in Hin as [Hs [? ?]]. simpl in *. eauto.
  - intros ([n Hn] & ? & ?). exists (f, n). split; [done|].
    apply elem_of_map_to_list. by apply map_lookup_filter_Some.
Qed.

Lemma below_insert_outside (src zp : path) (n : node) (s : fs) :
  ¬ src `prefix_of` zp → below src (<[zp := n]> s) = below src s.
Proof.
  intros H. unfold below. rewrite map_filter_insert_not'; [done|by intros [? _]|].
  by intros y _ [? _].
Qed.

Lemma make_zip_ok (src out : path) (z : pystr) (s : fs) :
  Path z = mkPurePath [] [z] →
  path_ok (out ++ [z]) = true →
  stat s out = Some Dir →
  stat s (out ++ [z]) ≠ Some Dir →
  ¬ src `prefix_of` out ++ [z] →
  (∀ (f : path) c, src `prefix_of` f → s !! f = Some (File c) →
                   is_Some (utf8_encode (arcname_of src f))) →
  _make_zip src out z s
  = (Ok (out ++ [z]),
     <[out ++ [z] := File (Zip (omap (zip_entry src s) (below src s)))]> s).
Proof.
  intros Hz Hok Hout Hnd Hsrc Henc.
  set (zp := out ++ [z]) in *.
  assert (Hzp : zp ≠ []) by (intros [_ ?]%app_eq_nil; done).
  set (s_o := <[zp := File (ZipOpen [])]> s).
  assert (Hfiles : Forall (λ f, src `prefix_of` f ∧ f ≠ zp
             ∧ ∀ c, stat s_o f = Some (File c) →
                    is_Some (utf8_encode (arcname_of src f))) (below src s)).
  { apply Forall_forall. intros f (_ & Hf & Hne)%below_spec.
    assert (f ≠ zp) by (by intros ->).
    split_and!; [done..|]. intros c. unfold s_o.
    rewrite stat_insert_ne by done.
    assert (f ≠ []) by (intros ->; apply Hne; symmetry; by apply prefix_nil_inv).
    rewrite stat_nonroot by done. by apply Henc. }
  unfold _make_zip.
  assert (Hj : joinpath out (Path z) = zp).
  { unfold joinpath, is_absolute. by rewrite Hz. }
  rewrite Hj.
  rewrite (bind_ok _ _ s zp s) by (by unfold lift, resolve; rewrite Hok).
  unfold exists_ at 1.
  rewrite (bind_ok _ _ s (path_ok zp && bool_decide (is_Some (stat s zp))) s) by done.
  rewrite (bind_ok _ _ s () (delete zp s)).
  2:{ rewrite Hok. simpl. rewrite stat_nonroot in * by done.
      destruct (s !! zp) as [[|c]|] eqn:Hs; [done| |].
      - rewrite bool_decide_eq_true_2 by eauto.
        unfold unlink. rewrite Hok. simpl. rewrite stat_nonroot by done.
        by rewrite Hs.
      - rewrite bool_decide_eq_false_2 by (by intros []).
        unfold ret. by rewrite delete_id. }
  unfold zf_open.
  rewrite (bind_ok _ _ (delete zp s) () s_o).
  2:{ rewrite open_w_ok; [by unfold s_o; rewrite insert_delete_eq|done| |].
      - unfold zp. rewrite parent_snoc. destruct out as [|x o]; [done|].
        simpl. rewrite lookup_delete_ne; [done|].
        intros E. apply (f_equal length) in E. unfold zp in E.
        simpl in E. rewrite length_app in E. simpl in E. lia.
      - rewrite stat_nonroot by done. by rewrite lookup_delete_eq. }
  rewrite (bind_ok _ _ s_o ()
    (<[zp := File (Zip (omap (zip_entry src s) (below src s)))]> s)); [done|].
  assert (Hb : below src s_o = below src s) by by apply below_insert_outside.
  unfold try_finally.
  rewrite (bind_ok _ _ s_o (below src s_o) s_o) by done.
  rewrite Hb.
  rewrite (zip_loop zp src (below src s) Hzp [] s_o); [|by apply stat_insert_eq|done].
  unfold zf_close. rewrite stat_insert_eq by done.
  unfold s_o. rewrite !insert_insert_eq. do 4 f_equal. simpl.
  apply list_omap_ext, Forall_Forall2_diag. eapply Forall_impl; [exact Hfiles|].
  intros f (_ & ? & _). simpl. by rewrite zip_entry_insert.
Qed.

(** ** The members of the archive *)

Lemma omap_all_None {A B} (h : A → option B) (l : list A) :
  Forall (λ x, h x = None) l → omap h l = [].
Proof.
  induction 1 as [|x l Hx _ IH]; [done|]. csimpl. by rewrite Hx.
Qed.

Lemma omap_after_fmap {A B C} (g : A → B) (h : B → option C) (l : list A) :
  omap h (g <$> l) = omap (h ∘ g) l.
Proof. induction l as [|x l IH]; [done|]. csimpl. by rewrite IH. Qed.

Lemma pure_str_relative (t : list pystr) :
  t ≠ [] → pure_str (mkPurePath [] t) = join [slash] t.
Proof. by destruct t. Qed.

Lemma arcname_of_target (base : path) (name k : pystr) :
  normal_key k →
  arcname_of (base ++ [name]) (target_of (base ++ [name]) k) = entry_name name k.
Proof.
  intros (Hsan & Hne & Hstr).
  unfold arcname_of, target_of. rewrite parent_snoc.
  rewrite <- !app_assoc, drop_app_length.
  rewrite pure_str_relative by done.
  rewrite join_app by done. simpl. unfold entry_name. do 2 f_equal.
  unfold pure_str in Hstr.
  destruct (sanitize_total k) as [(_ & Hr & _)|?]; [|congruence].
  rewrite Hr in Hstr. by destruct (tail (Path k)).
Qed.

Lemma staged_entries (base : path) (name : pystr) (s3 : fs) (d : strdict) (s : fs) :
  path_ok (base ++ [name]) = true →
  staged (base ++ [name]) s3 d s →
  valid_file_map name d →
  omap (zip_entry (base ++ [name]) s) (below (base ++ [name]) s)
  ≡ₚ expected_entries name d.
Proof.
  set (tmp := base ++ [name]).
  intros Hok (Ho & Hd & Hf & Hdir) [Hall Hpf].
  assert (Htmp : tmp ≠ []) by (intros [_ ?]%app_eq_nil; done).
  rewrite Forall_forall in Hall.
  set (L := below tmp s).
  set (T := (λ kv : pystr * pystr, target_of tmp kv.1) <$> d).
  (* the files below the staging directory are the targets of the keys *)
  assert (HLT : filter (λ f, file_at s f) L ≡ₚ T).
  { apply NoDup_Permutation.
    - apply NoDup_filter. unfold L, below. apply NoDup_fst_map_to_list.
    - unfold T.
      rewrite (list_fmap_compose (λ kv : pystr * pystr, tail (Path kv.1)) (app tmp)).
      apply NoDup_fmap_2; [apply _|]. by apply prefix_free_NoDup.
    - intros f. rewrite list_elem_of_filter. unfold L. rewrite below_spec.
      unfold T. rewrite list_elem_of_fmap. unfold file_at. split.
      + intros (Hfile & _ & Hpre & _).
        destruct (s !! f) as [[|c]|] eqn:Hsf; try done.
        apply Hf in Hsf as (k & v & b & Hin & -> & _); [|done].
        by exists (k, v).
      + intros ([k v] & -> & Hin). simpl.
        destruct (Hall _ Hin) as [Hnk (_ & _ & [b Hb])].
        assert (Hs : s !! target_of tmp k = Some (File (Raw b))).
        { apply Hf; [by apply prefix_app_r|]. by exists k, v, b. }
        rewrite Hs. split_and!; [done|by eauto|by apply prefix_app_r|].
        apply target_of_ne_root. by destruct Hnk as (_ & ? & _). }
  rewrite <- (filter_app_complement (λ f, file_at s f) L).
  rewrite omap_app.
  rewrite (omap_all_None _ (filter (λ f, ¬ file_at s f) L)).
  2:{ apply Forall_forall. intros f [Hnf Hin]%list_elem_of_filter.
      unfold zip_entry. destruct (path_ok f); [|done].
      unfold L in Hin. apply below_spec in Hin as (_ & Hpre & Hne).
      assert (f ≠ []) by (intros ->; apply Hne; symmetry; by apply prefix_nil_inv).
      rewrite stat_nonroot by done. unfold file_at in Hnf.
      by destruct (s !! f) as [[|c]|]. }
  rewrite app_nil_r, HLT. unfold T, expected_entries.
  rewrite omap_after_fmap.
  rewrite (list_omap_ext _ (member_of name) d d); [done|].
  apply Forall_Forall2_diag, Forall_forall. intros [k v] Hin. simpl.
  destruct (Hall _ Hin) as [Hnk (Hpk & _ & [b Hb])]. simpl in *.
  unfold zip_entry, member_of. simpl. rewrite Hb. simpl.
  assert (Hpt : path_ok (target_of tmp k) = true).
  { unfold target_of. by rewrite path_ok_app, Hok, Hpk. }
  rewrite Hpt, stat_nonroot by by apply target_of_nonempty.
  assert (Hs : s !! target_of tmp k = Some (File (Raw b))).
  { apply Hf; [by apply prefix_app_r|]. by exists k, v, b. }
  rewrite Hs. unfold tmp. by rewrite arcname_of_target.
Qed.

Lemma expected_entries_length (name : pystr) (d : strdict) :
  Forall (λ kv, is_Some (utf8_encode kv.2)) d →
  length (expected_entries name d) = length d.
Proof.
  induction 1 as [|[k v] d [b Hb] _ IH]; [done|].
  unfold expected_entries in *. csimpl. unfold member_of at 1. simpl in *.
  rewrite Hb. simpl. by rewrite IH.
Qed.

(** ** The project name as a path component *)

Lemma split_no_sep (sep : N) (s : pystr) : sep ∉ s → split sep s = [s].
Proof.
  induction s as [|c s IH]; [done|]. intros [Hc Hs]%not_elem_of_cons. simpl.
  rewrite bool_decide_eq_false_2 by done. by rewrite IH.
Qed.

Lemma Path_single (s : pystr) :
  s ≠ [] → slash ∉ s → s ≠ [dot] → Path s = mkPurePath [] [s].
Proof.
  intros Hne Hsl Hdot. destruct s as [|c s]; [done|].
  assert (Hc : c ≠ slash) by (intros ->; apply Hsl; left).
  assert (Hsr : splitroot (c :: s) = ([], c :: s)).
  { unfold splitroot, slice. simpl.
    rewrite bool_decide_eq_false_2 by congruence. done. }
  unfold Path. rewrite Hsr, split_no_sep by done.
  rewrite filter_cons_True; [done|]. split; congruence.
Qed.

Lemma validate_project_name_ok (name : pystr) :
  _validate_project_name name = Ok () →
  name ≠ [] ∧ (slash ∉ name) ∧ (backslash ∉ name).
Proof.
  unfold _validate_project_name. case_bool_decide; [done|].
  destruct (contains [slash] name) eqn:H1; [done|].
  destruct (contains [backslash] name) eqn:H2; [done|]. intros _.
  split_and!; [done| |]; rewrite <- contains_char; congruence.
Qed.

Lemma Path_project_name (name : pystr) :
  _validate_project_name name = Ok () → name ≠ [dot] →
  Path name = mkPurePath [] [name].
Proof.
  intros (? & ? & _)%validate_project_name_ok ?. by apply Path_single.
Qed.

Lemma zip_suffix_no_slash : slash ∉ s2py ".zip".
Proof. apply (bool_decide_unpack _). by vm_compute. Qed.

Lemma zip_suffix_length : length (s2py ".zip") = 4%nat.
Proof. reflexivity. Qed.

Lemma Path_zip_name (name : pystr) :
  _validate_project_name name = Ok () →
  Path (name ++ s2py ".zip") = mkPurePath [] [name ++ s2py ".zip"].
Proof.
  intros (? & Hs & _)%validate_project_name_ok. apply Path_single.
  - by intros [? _]%app_eq_nil.
  - rewrite elem_of_app. intros [?|Hin]; [done|].
    by apply zip_suffix_no_slash.
  - intros E. apply (f_equal length) in E.
    rewrite length_app, zip_suffix_length in E. simpl in E. lia.
Qed.

Lemma zip_not_staged (base out : path) (name : pystr) :
  ¬ base ++ [name] `prefix_of` out →
  ¬ base ++ [name] `prefix_of` out ++ [name ++ s2py ".zip"].
Proof.
  intros Hout Hp.
  destruct (decide (base ++ [name] = out ++ [name ++ s2py ".zip"])) as [E|Hne].
  - apply app_inj_2 in E as [_ E]; [|done]. injection E as E.
    apply (f_equal length) in E. rewrite length_app, zip_suffix_length in E. lia.
  - apply Hout. apply prefix_parent in Hp; [|done]. by rewrite parent_snoc in Hp.
Qed.

(** ** A complete run of [json2file] *)

Lemma name_ok_zip (name : pystr) : name_ok name = true → name_ok (name ++ s2py ".zip") = true.
Proof. intros H. unfold name_ok in *. rewrite forallb_app, H. reflexivity. Qed.

Lemma path_ok_snoc (p : path) (c : pystr) :
  path_ok (p ++ [c]) = path_ok p && name_ok c.
Proof. rewrite path_ok_app. simpl. by rewrite andb_true_r. Qed.

Lemma staged_start (tmp : path) (s3 : fs) :
  s3 !! tmp = Some Dir →
  (∀ q : path, tmp `prefix_of` q → q ≠ tmp → s3 !! q = None) →
  staged tmp s3 [] s3.
Proof.
  intros Hd Hnone. split_and!; [done..| |].
  - intros q c Hq. split.
    + intros Hf. destruct (decide (q = tmp)) as [->|Hne]; [congruence|].
      rewrite Hnone in Hf by done. done.
    + intros (k & v & b & Hin & _). by apply elem_of_nil in Hin.
  - intros q Hq Hdir. destruct (decide (q = tmp)) as [->|Hne]; [by left|].
    rewrite Hnone in Hdir by done. done.
Qed.

Section Run.
Variable json_loads : pystr → option pyval.
Context (file_map : pyval) (d : strdict) (base out : path) (name : pystr).
Context (s s1 s2 : fs).

Let tmp : path := base ++ [name].
Let zp : path := out ++ [name ++ s2py ".zip"].

Hypothesis Hparse : _parse_file_map json_loads file_map = Ok d.
Hypothesis Hname : _validate_project_name name = Ok ().
Hypothesis Hdot : name ≠ [dot].
Hypothesis Hnok : name_ok name = true.
Hypothesis Hvalid : valid_file_map name d.
Hypothesis Hbase : _ensure_dir base s = (Ok (), s1).
Hypothesis Hout : _ensure_dir out s1 = (Ok (), s2).
Hypothesis Hfree :
  dir_at s2 tmp = true ∨ ∀ q : path, tmp `prefix_of` q → s2 !! q = None.
Hypothesis Hzip : stat s2 zp ≠ Some Dir.
Hypothesis Hsep : ¬ tmp `prefix_of` out.

Lemma json2file_try_succeeds :
  ∃ es sz,
    json2file_try tmp out d name s2 = (Ok (mkPackResult (posix_str zp)), sz)
    ∧ es ≡ₚ expected_entries name d
    ∧ sz !! zp = Some (File (Zip es))
    ∧ sz !! tmp = Some Dir
    ∧ (∀ q : path, ¬ tmp `prefix_of` q → q ≠ zp → sz !! q = s2 !! q).
Proof.
  assert (Htmp : tmp ≠ []) by (intros [_ ?]%app_eq_nil; done).
  assert (Hokb : path_ok base = true) by by eapply mkdir_ok_path.
  assert (Hoko : path_ok out = true) by by eapply mkdir_ok_path.
  assert (Hok : path_ok tmp = true).
  { unfold tmp. by rewrite path_ok_snoc, Hokb, Hnok. }
  assert (Hokz : path_ok zp = true).
  { unfold zp. by rewrite path_ok_snoc, Hoko, name_ok_zip. }
  assert (Hzs : ¬ tmp `prefix_of` zp) by by apply zip_not_staged.
  assert (Hpar2 : ∀ q : path, q `prefix_of` tmp → q ≠ tmp → stat s2 q = Some Dir).
  { intros q Hq Hne. apply (mkdir_stat_keeps _ _ _ _ Hout).
    apply (mkdir_ok_dirs _ _ _ _ Hbase); [done|].
    apply prefix_parent in Hq; [|done]. unfold tmp in Hq.
    by rewrite parent_snoc in Hq. }
  destruct (recreate_dir_fresh tmp s2 Htmp Hok Hpar2 Hfree)
    as (s3 & Hrec & Hd3 & Hnone3 & Hout3).
  assert (Hpar3 : ∀ q : path, q `prefix_of` tmp → stat s3 q = Some Dir).
  { intros q Hq. destruct (decide (q = tmp)) as [->|Hne].
    - by rewrite stat_nonroot.
    - destruct q as [|x q]; [done|]. simpl. rewrite Hout3.
      + by apply (Hpar2 (x :: q)).
      + intros Hq'. apply Hne. by apply (anti_symm prefix). }
  destruct Hvalid as [Hall Hpf].
  destruct (write_files_staged tmp s3 d Htmp Hok Hpar3 [] s3)
    as (sw & Hwr & Hst); [by apply staged_start| |done|].
  { eapply Forall_impl; [exact Hall|]. intros kv [? (? & _ & ?)]. done. }
  simpl in Hst. pose proof Hst as (Ho & Hdw & Hf & _).
  assert (Hmz : _make_zip tmp out (name ++ s2py ".zip") sw
          = (Ok zp, <[zp := File (Zip (omap (zip_entry tmp sw) (below tmp sw)))]> sw)).
  { apply make_zip_ok.
    - by apply Path_zip_name.
    - done.
    - destruct out as [|x o]; [done|]. simpl. rewrite Ho, Hout3 by done.
      by apply (mkdir_ok_dirs _ _ _ _ Hout (x :: o)).
    - assert (zp ≠ []) by (intros [_ ?]%app_eq_nil; done).
      fold zp. rewrite stat_nonroot in * by done. by rewrite Ho, Hout3.
    - done.
    - intros f c Hpre Hfile.
      apply Hf in Hfile as (k & v & b & Hin & -> & _); [|done].
      rewrite Forall_forall in Hall. destruct (Hall _ Hin) as [Hnk (_ & Hen & _)].
      unfold tmp. by rewrite arcname_of_target. }
  exists (omap (zip_entry tmp sw) (below tmp sw)),
         (<[zp := File (Zip (omap (zip_entry tmp sw) (below tmp sw)))]> sw).
  split_and!.
  - unfold json2file_try.
    rewrite (bind_ok _ _ s2 () s3) by done.
    rewrite (bind_ok _ _ s3 () sw) by done.
    by rewrite (bind_ok _ _ sw zp _ Hmz).
  - by apply (staged_entries base name s3 d sw).
  - by rewrite lookup_insert_eq.
  - rewrite lookup_insert_ne; [done|]. intros E. apply Hzs. by rewrite E.
  - intros q Hq Hne. rewrite lookup_insert_ne by done.
    by rewrite Ho, Hout3.
Qed.

Lemma json2file_succeeds :
  ∃ es s',
    json2file json_loads file_map base out name s
    = (Ok (mkPackResult (posix_str zp)), s')
    ∧ es ≡ₚ expected_entries name d
    ∧ s' !! zp = Some (File (Zip es))
    ∧ (∀ q : path, tmp `prefix_of` q → s' !! q = None)
    ∧ (∀ q : path, ¬ tmp `prefix_of` q → q ≠ zp → s' !! q = s2 !! q).
Proof.
  destruct json2file_try_succeeds as (es & sz & Hrun & Hes & Hz & Hd & Hsame).
  assert (Hokb : path_ok base = true) by by eapply mkdir_ok_path.
  assert (Hok : path_ok tmp = true).
  { unfold tmp. by rewrite path_ok_snoc, Hokb, Hnok. }
  assert (Htmp : tmp ≠ []) by (intros [_ ?]%app_eq_nil; done).
  assert (Hzs : ¬ tmp `prefix_of` zp) by by apply zip_not_staged.
  exists es, (filter (λ kv : path * node, ¬ tmp `prefix_of` kv.1) sz).
  split_and!; [|done|..].
  - unfold json2file.
    rewrite (bind_ok _ _ s d s) by (by unfold lift; rewrite Hparse).
    rewrite (bind_ok _ _ s () s) by (by unfold lift; rewrite Hname).
    rewrite (bind_ok _ _ s () s1) by done.
    rewrite (bind_ok _ _ s1 () s2) by done.
    rewrite try_finally_safe_remove, safe_remove_dir_state.
    assert (Hj : joinpath base (Path name) = tmp).
    { by rewrite Path_project_name. }
    rewrite Hj, Hrun. simpl. unfold dir_at.
    rewrite stat_nonroot by done. by rewrite Hok, Hd.
  - rewrite filter_outside. by rewrite decide_False.
  - intros q Hq. rewrite filter_outside. by rewrite decide_True.
  - intros q Hq Hne. rewrite filter_outside. rewrite decide_False by done.
    by apply Hsame.
Qed.

(** The state that a successful run leaves is ready for the next run. *)
Lemma ready_again (s' : fs) (c : content) :
  s' !! zp = Some (File c) →
  (∀ q : path, tmp `prefix_of` q → s' !! q = None) →
  (∀ q : path, ¬ tmp `prefix_of` q → q ≠ zp → s' !! q = s2 !! q) →
  _ensure_dir base s' = (Ok (), s') ∧ _ensure_dir out s' = (Ok (), s')
  ∧ (dir_at s' tmp = true ∨ ∀ q : path, tmp `prefix_of` q → s' !! q = None)
  ∧ stat s' zp ≠ Some Dir.
Proof.
  intros Hz Hnone Hsame.
  assert (Hzp : zp ≠ []) by (intros [_ ?]%app_eq_nil; done).
  assert (Hkeep : ∀ q : path, ¬ tmp `prefix_of` q →
            stat s2 q = Some Dir → stat s' q = Some Dir).
  { intros q Hq Hdir. destruct q as [|x q]; [done|]. simpl in *.
    rewrite Hsame; [done..|]. intros E. apply Hzip.
    rewrite stat_nonroot by done. by rewrite <- E. }
  split_and!.
  - apply mkdir_noop; [by eapply mkdir_ok_path|].
    intros q Hq. apply Hkeep.
    + intros Hq'. assert (Hlen := prefix_length _ _ (transitivity Hq' Hq)).
      unfold tmp in Hlen. rewrite length_app in Hlen. simpl in Hlen. lia.
    + apply (mkdir_stat_keeps _ _ _ _ Hout).
      by apply (mkdir_ok_dirs _ _ _ _ Hbase).
  - apply mkdir_noop; [by eapply mkdir_ok_path|].
    intros q Hq. apply Hkeep.
    + intros Hq'. apply Hsep. by etrans.
    + by apply (mkdir_ok_dirs _ _ _ _ Hout).
  - by right.
  - rewrite stat_nonroot by done. by rewrite Hz.
Qed.
End Run.

(** * Properties of the packer *)

Lemma entry_names_of_expected (name : pystr) (d : strdict) :
  ∀ n, n ∈ (expected_entries name d).*1 → ∃ k, k ∈ d.*1 ∧ n = entry_name name k.
Proof.
  intros n ([n' c] & -> & Hin)%list_elem_of_fmap.
  unfold expected_entries in Hin.
  apply list_elem_of_omap in Hin as ([k v] & Hin & Hm).
  unfold member_of in Hm. simpl in Hm.
  destruct (utf8_encode v); [|done]. injection Hm as <- <-.
  exists k. split; [|done]. apply list_elem_of_fmap. by exists (k, v).
Qed.

Section TwoRuns.
Variable json_loads : pystr → option pyval.
Context (base out : path) (name : pystr) (s s1 s2 : fs).

Let tmp : path := base ++ [name].
Let zp : path := out ++ [name ++ s2py ".zip"].

Hypothesis Hname : _validate_project_name name = Ok ().
Hypothesis Hdot : name ≠ [dot].
Hypothesis Hnok : name_ok name = true.
Hypothesis Hbase : _ensure_dir base s = (Ok (), s1).
Hypothesis Hout : _ensure_dir out s1 = (Ok (), s2).
Hypothesis Hfree :
  dir_at s2 tmp = true ∨ ∀ q : path, tmp `prefix_of` q → s2 !! q = None.
Hypothesis Hzip : stat s2 zp ≠ Some Dir.
Hypothesis Hsep : ¬ tmp `prefix_of` out.

Lemma two_runs (fm1 fm2 : pyval) (d1 d2 : strdict) :
  _parse_file_map json_loads fm1 = Ok d1 → valid_file_map name d1 →
  _parse_file_map json_loads fm2 = Ok d2 → valid_file_map name d2 →
  ∃ es1 es2 sA sB,
    json2file json_loads fm1 base out name s = (Ok (mkPackResult (posix_str zp)), sA)
    ∧ json2file json_loads fm2 base out name sA = (Ok (mkPackResult (posix_str zp)), sB)
    ∧ stat sA zp = Some (File (Zip es1)) ∧ es1 ≡ₚ expected_entries name d1
    ∧ stat sB zp = Some (File (Zip es2)) ∧ es2 ≡ₚ expected_entries name d2.
Proof.
  intros Hp1 Hv1 Hp2 Hv2.
  assert (Hzp : zp ≠ []) by (intros [_ ?]%app_eq_nil; done).
  destruct (json2file_succeeds json_loads fm1 d1 base out name s s1 s2)
    as (es1 & sA & Hrun1 & Hes1 & Hz1 & Hnone1 & Hsame1); [done..|].
  destruct (ready_again base out name s s1 s2 Hbase Hout Hzip Hsep sA _ Hz1 Hnone1 Hsame1)
    as (HbA & HoA & HfA & HzA).
  destruct (json2file_succeeds json_loads fm2 d2 base out name sA sA sA)
    as (es2 & sB & Hrun2 & Hes2 & Hz2 & _); [done..|].
  exists es1, es2, sA, sB. rewrite !stat_nonroot by done. done.
Qed.
End TwoRuns.

Lemma nothing_below (tmp : path) (s : fs) :
  forallb (λ kv : path * node, negb (bool_decide (tmp `prefix_of` kv.1)))
    (map_to_list s) = true →
  ∀ q : path, tmp `prefix_of` q → s !! q = None.
Proof.
  intros H q Hq. destruct (s !! q) as [n|] eqn:Hs; [|done].
  apply elem_of_map_to_list in Hs. rewrite forallb_forall in H.
  apply list_elem_of_In, H in Hs. simpl in Hs.
  by rewrite bool_decide_eq_true_2 in Hs.
Qed.

(** Closed decidable facts are settled by evaluation. *)
Ltac by_decide := apply (bool_decide_unpack _); vm_compute; exact I.

Ltac by_eval :=
  vm_compute; first [reflexivity | exact I | discriminate | by eauto].

Ltac valid_map_by_eval :=
  split;
  [ repeat constructor; by_eval
  | simpl; repeat (split || constructor); by_decide ].

(** C2 (amended).  Let the mapping parse to [d], let every key of [d] pass
    sanitisation, be written in normal form and name a file, let no key be
    a path prefix of another, let names and texts be encodable, and let the
    project name be valid and different from ["."].  If the staging root
    and the output directory can be created, the staging path is a
    directory or free, the archive path is not a directory and the output
    directory is not inside the staging directory, then [json2file]
    returns [out/name.zip]; the archive there has, up to order, exactly
    one member [name/key] per key, holding the UTF-8 bytes of its text;
    the staging directory is gone. *)
Theorem pack_archive_contents
    (json_loads : pystr → option pyval) (file_map : pyval) (d : strdict)
    (base out : path) (name : pystr) (s s1 s2 : fs) :
  _parse_file_map json_loads file_map = Ok d →
  _validate_project_name name = Ok () →
  name ≠ [dot] →
  name_ok name = true →
  valid_file_map name d →
  _ensure_dir base s = (Ok (), s1) →
  _ensure_dir out s1 = (Ok (), s2) →
  (dir_at s2 (base ++ [name]) = true
   ∨ ∀ q : path, base ++ [name] `prefix_of` q → s2 !! q = None) →
  stat s2 (out ++ [name ++ s2py ".zip"]) ≠ Some Dir →
  ¬ base ++ [name] `prefix_of` out →
  ∃ es s',
    json2file json_loads file_map base out name s
    = (Ok (mkPackResult (posix_str (out ++ [name ++ s2py ".zip"]))), s')
    ∧ stat s' (out ++ [name ++ s2py ".zip"]) = Some (File (Zip es))
    ∧ es ≡ₚ expected_entries name d
    ∧ length es = length d
    ∧ stat s' (base ++ [name]) = None.
Proof.
  intros Hp Hn Hdot Hnok Hv Hb Ho Hfree Hzip Hsep.
  destruct (json2file_succeeds json_loads file_map d base out name s s1 s2)
    as (es & s' & Hrun & Hes & Hz & Hnone & _); [done..|].
  exists es, s'. split_and!; [done| |done| |].
  - rewrite stat_nonroot; [done|]. by intros [_ ?]%app_eq_nil.
  - rewrite Hes. apply expected_entries_length.
    destruct Hv as [Hall _]. eapply Forall_impl; [exact Hall|].
    by intros kv (_ & _ & _ & ?).
  - rewrite stat_nonroot by (by intros [_ ?]%app_eq_nil). by apply Hnone.
Qed.

Lemma pack_archive_contents_witness :
  ∃ es s',
    json2file Samples.no_json (PyDict (str_items Samples.demo_dict))
      Samples.work Samples.out (s2py "demo") ∅
    = (Ok (mkPackResult (posix_str Samples.demo_zip)), s')
    ∧ stat s' Samples.demo_zip = Some (File (Zip es))
    ∧ es ≡ₚ expected_entries (s2py "demo") Samples.demo_dict
    ∧ length es = length Samples.demo_dict
    ∧ stat s' (Samples.work ++ [s2py "demo"]) = None.
Proof.
  apply (pack_archive_contents Samples.no_json _ Samples.demo_dict
           Samples.work Samples.out (s2py "demo") ∅ Samples.disk1 Samples.disk2).
  - by_eval.
  - by_eval.
  - by_eval.
  - by_eval.
  - valid_map_by_eval.
  - by_eval.
  - by_eval.
  - right. apply nothing_below. by_eval.
  - by_eval.
  - by_decide.
Defined.

(** C2, as stated, fails on maps whose keys are all inside the project
    root: two spellings of one path give one member, named after the
    normalised path, and a key that is a directory of another key makes the
    run end in an [OSError] with no archive. *)
Lemma valid_maps_without_one_member_per_key :
  let run1 := json2file Samples.no_json (PyDict (str_items Samples.same_file_dict))
                Samples.work Samples.out (s2py "demo") ∅ in
  let run2 := json2file Samples.no_json (PyDict (str_items Samples.colliding_dict))
                Samples.work Samples.out (s2py "demo") ∅ in
  Forall (λ kv, _sanitize_relpath kv.1 = Ok (Path kv.1))
    (Samples.same_file_dict ++ Samples.colliding_dict)
  ∧ run1.1 = Ok (mkPackResult (posix_str Samples.demo_zip))
  ∧ stat run1.2 Samples.demo_zip
    = Some (File (Zip [(s2py "demo/a.txt", Raw [50])]))
  ∧ run2.1 = Raise OSError
  ∧ stat run2.2 Samples.demo_zip = None.
Proof.
  split_and!; [repeat constructor|..]; vm_compute; reflexivity.
Qed.

(** C6.  Under the conditions of [pack_archive_contents], a second run on
    the state the first run left, with the same inputs, succeeds with the
    same result and its archive has the members of the first one. *)
Theorem pack_twice_same_archive
    (json_loads : pystr → option pyval) (file_map : pyval) (d : strdict)
    (base out : path) (name : pystr) (s s1 s2 : fs) :
  _parse_file_map json_loads file_map = Ok d →
  _validate_project_name name = Ok () →
  name ≠ [dot] →
  name_ok name = true →
  valid_file_map name d →
  _ensure_dir base s = (Ok (), s1) →
  _ensure_dir out s1 = (Ok (), s2) →
  (dir_at s2 (base ++ [name]) = true
   ∨ ∀ q : path, base ++ [name] `prefix_of` q → s2 !! q = None) →
  stat s2 (out ++ [name ++ s2py ".zip"]) ≠ Some Dir →
  ¬ base ++ [name] `prefix_of` out →
  ∃ r es1 es2 sA sB,
    json2file json_loads file_map base out name s = (Ok r, sA)
    ∧ json2file json_loads file_map base out name sA = (Ok r, sB)
    ∧ stat sA (out ++ [name ++ s2py ".zip"]) = Some (File (Zip es1))
    ∧ stat sB (out ++ [name ++ s2py ".zip"]) = Some (File (Zip es2))
    ∧ es1 ≡ₚ es2.
Proof.
  intros Hp Hn Hdot Hnok Hv Hb Ho Hfree Hzip Hsep.
  destruct (two_runs json_loads base out name s s1 s2 Hn Hdot Hnok Hb Ho Hfree
              Hzip Hsep file_map file_map d d Hp Hv Hp Hv)
    as (es1 & es2 & sA & sB & H1 & H2 & Hz1 & He1 & Hz2 & He2).
  exists (mkPackResult (posix_str (out ++ [name ++ s2py ".zip"]))), es1, es2, sA, sB.
  split_and!; [done..|]. by rewrite He1, He2.
Qed.

Lemma pack_twice_same_archive_witness :
  ∃ r es1 es2 sA sB,
    json2file Samples.no_json (PyDict (str_items Samples.demo_dict))
      Samples.work Samples.out (s2py "demo") ∅ = (Ok r, sA)
    ∧ json2file Samples.no_json (PyDict (str_items Samples.demo_dict))
        Samples.work Samples.out (s2py "demo") sA = (Ok r, sB)
    ∧ stat sA Samples.demo_zip = Some (File (Zip es1))
    ∧ stat sB Samples.demo_zip = Some (File (Zip es2))
    ∧ es1 ≡ₚ es2.
Proof.
  apply (pack_twice_same_archive Samples.no_json _ Samples.demo_dict
           Samples.work Samples.out (s2py "demo") ∅ Samples.disk1 Samples.disk2).
  - by_eval.
  - by_eval.
  - by_eval.
  - by_eval.
  - valid_map_by_eval.
  - by_eval.
  - by_eval.
  - right. apply nothing_below. by_eval.
  - by_eval.
  - by_decide.
Defined.

(** C7.  When two runs with valid maps [d1] and [d2] use the same project
    name, the second run replaces the archive that the first one wrote: its
    members are those of [d2], and no member is named after a key that
    occurs only in [d1]. *)
Theorem second_pack_replaces_archive
    (json_loads : pystr → option pyval) (fm1 fm2 : pyval) (d1 d2 : strdict)
    (base out : path) (name : pystr) (s s1 s2 : fs) :
  _parse_file_map json_loads fm1 = Ok d1 → valid_file_map name d1 →
  _parse_file_map json_loads fm2 = Ok d2 → valid_file_map name d2 →
  _validate_project_name name = Ok () →
  name ≠ [dot] →
  name_ok name = true →
  _ensure_dir base s = (Ok (), s1) →
  _ensure_dir out s1 = (Ok (), s2) →
  (dir_at s2 (base ++ [name]) = true
   ∨ ∀ q : path, base ++ [name] `prefix_of` q → s2 !! q = None) →
  stat s2 (out ++ [name ++ s2py ".zip"]) ≠ Some Dir →
  ¬ base ++ [name] `prefix_of` out →
  ∃ r es1 es2 sA sB,
    json2file json_loads fm1 base out name s = (Ok r, sA)
    ∧ stat sA (out ++ [name ++ s2py ".zip"]) = Some (File (Zip es1))
    ∧ json2file json_loads fm2 base out name sA = (Ok r, sB)
    ∧ stat sB (out ++ [name ++ s2py ".zip"]) = Some (File (Zip es2))
    ∧ es2 ≡ₚ expected_entries name d2
    ∧ ∀ k, k ∈ d1.*1 → k ∉ d2.*1 → entry_name name k ∉ es2.*1.
Proof.
  intros Hp1 Hv1 Hp2 Hv2 Hn Hdot Hnok Hb Ho Hfree Hzip Hsep.
  destruct (two_runs json_loads base out name s s1 s2 Hn Hdot Hnok Hb Ho Hfree
              Hzip Hsep fm1 fm2 d1 d2 Hp1 Hv1 Hp2 Hv2)
    as (es1 & es2 & sA & sB & H1 & H2 & Hz1 & He1 & Hz2 & He2).
  exists (mkPackResult (posix_str (out ++ [name ++ s2py ".zip"]))), es1, es2, sA, sB.
  split_and!; [done..|].
  intros k Hk1 Hk2 Hin. rewrite He2 in Hin.
  apply entry_names_of_expected in Hin as (k' & Hk' & E).
  unfold entry_name in E. apply app_inv_head in E. injection E as ->. done.
Qed.

Lemma second_pack_replaces_archive_witness :
  ∃ r es1 es2 sA sB,
    json2file Samples.no_json (PyDict (str_items Samples.old_dict))
      Samples.work Samples.out (s2py "demo") ∅ = (Ok r, sA)
    ∧ stat sA Samples.demo_zip = Some (File (Zip es1))
    ∧ json2file Samples.no_json (PyDict (str_items Samples.new_dict))
        Samples.work Samples.out (s2py "demo") sA = (Ok r, sB)
    ∧ stat sB Samples.demo_zip = Some (File (Zip es2))
    ∧ es2 ≡ₚ expected_entries (s2py "demo") Samples.new_dict
    ∧ ∀ k, k ∈ Samples.old_dict.*1 → k ∉ Samples.new_dict.*1 →
           entry_name (s2py "demo") k ∉ es2.*1.
Proof.
  apply (second_pack_replaces_archive Samples.no_json _ _ Samples.old_dict
           Samples.new_dict Samples.work Samples.out (s2py "demo")
           ∅ Samples.disk1 Samples.disk2).
  - by_eval.
  - valid_map_by_eval.
  - by_eval.
  - valid_map_by_eval.
  - by_eval.
  - by_eval.
  - by_eval.
  - by_eval.
  - by_eval.
  - right. apply nothing_below. by_eval.
  - by_eval.
  - by_decide.
Defined.

Lemma parse_file_map_raises (json_loads : pystr → option pyval) fm e :
  _parse_file_map json_loads fm = Raise e →
  e = FilePackError InvalidJson ∨ e = FilePackError InvalidFileMap.
Proof.
  assert (Hd : ∀ items, _ensure_str_str_dict items = Raise e →
                        e = FilePackError InvalidFileMap).
  { intros items. unfold _ensure_str_str_dict.
    destruct (ensure_str_str_dict_from_total items []) as [[d ->]| ->]; congruence. }
  destruct fm as [| | |t| |items]; simpl; try (intros [= <-]; by right).
  - destruct (json_loads t) as [[| | | | |items]|]; try (intros [= <-]; eauto).
    intros H. right. by eapply Hd.
  - intros H. right. by eapply Hd.
Qed.

Lemma exit_path_pack_error (json_loads : pystr → option pyval) (fm : pyval)
    (base out : path) (name : pystr) (s : fs) (r : res PackResult) (s' : fs)
    (k : pack_error) :
  exit_path json_loads fm base out name s r s' →
  r = Raise (FilePackError k) →
  (k ≠ UnsafePath → s' = s)
  ∧ files_outside (joinpath base (Path name)) s s'
  ∧ (k = UnsafePath → joinpath base (Path name) ≠ [] →
     ∀ q : path, joinpath base (Path name) `prefix_of` q → stat s' q = None).
Proof.
  set (tmp := joinpath base (Path name)).
  intros [e H|d e H1 H2|d e s1 H1 H2 H3|d e s1 s2 H1 H2 H3 H4
          |d s1 s2 r' s3 H1 H2 H3 H4 H5].
  - intros [= ->]. split_and!; [done..|]. intros ->.
    by apply parse_file_map_raises in H as [?|?].
  - intros [= ->]. split_and!; [done..|]. intros ->.
    destruct (validate_project_name_total name) as [E|E];
      rewrite E in H2; congruence.
  - intros [= ->]. by destruct (mkdir_raises _ _ _ _ H3 _ eq_refl) as [?|?].
  - intros [= ->]. by destruct (mkdir_raises _ _ _ _ H4 _ eq_refl) as [?|?].
  - intros ->.
    apply json2file_try_pack_error in H5 as (-> & Hf & Hd & Hok).
    split_and!; [done| |].
    + etrans; [by eapply mkdir_frame|]. etrans; [by eapply mkdir_frame|].
      etrans; [done|]. apply safe_remove_dir_frame.
    + intros _ Htmp q Hq. rewrite safe_remove_dir_state. unfold dir_at.
      rewrite Hok, Hd. simpl.
      assert (q ≠ []) by (intros ->; by apply prefix_nil_inv in Hq).
      rewrite stat_nonroot by done. rewrite filter_outside.
      by rewrite decide_True.
Qed.

(** C4 (amended).  When [json2file] ends in a [FilePackError], then: for
    the kinds raised while the input is parsed and the name is checked
    ([InvalidFileMap], [InvalidJson], [InvalidProjectName]) the file system
    is untouched; [UnsafePath] is raised by the writing loop, possibly
    after earlier entries were staged, and the staging directory is then
    removed by the cleanup; in both cases no regular file outside the
    staging directory is created, changed or removed, so no archive
    appears or changes at an archive path outside the staging directory. *)
Theorem validation_failure_effects
    (json_loads : pystr → option pyval) (file_map : pyval)
    (base out : path) (name : pystr) (s : fs) (k : pack_error) :
  (json2file json_loads file_map base out name s).1 = Raise (FilePackError k) →
  let s' := (json2file json_loads file_map base out name s).2 in
  let tmp := joinpath base (Path name) in
  let zp := joinpath out (Path (name ++ s2py ".zip")) in
  (k ≠ UnsafePath → s' = s)
  ∧ files_outside tmp s s'
  ∧ (¬ tmp `prefix_of` zp →
     ∀ c, stat s' zp = Some (File c) ↔ stat s zp = Some (File c))
  ∧ (k = UnsafePath → tmp ≠ [] → ∀ q : path, tmp `prefix_of` q → stat s' q = None).
Proof.
  intros Hres s' tmp zp.
  destruct (exit_path_pack_error json_loads file_map base out name s _ _ k
              (json2file_exit json_loads file_map base out name s) Hres)
    as (H1 & H2 & H3).
  split_and!; [done..| |done].
  intros Hz c. symmetry. by apply H2.
Qed.

Lemma validation_failure_effects_witness :
  let run := json2file Samples.no_json (PyDict (str_items Samples.traversal_dict))
               Samples.work Samples.out (s2py "demo") ∅ in
  let tmp := joinpath Samples.work (Path (s2py "demo")) in
  let zp := joinpath Samples.out (Path (s2py "demo" ++ s2py ".zip")) in
  (UnsafePath ≠ UnsafePath → run.2 = ∅)
  ∧ files_outside tmp ∅ run.2
  ∧ (¬ tmp `prefix_of` zp →
     ∀ c, stat run.2 zp = Some (File c) ↔ stat ∅ zp = Some (File c))
  ∧ (UnsafePath = UnsafePath → tmp ≠ [] →
     ∀ q : path, tmp `prefix_of` q → stat run.2 q = None).
Proof.
  apply (validation_failure_effects Samples.no_json
           (PyDict (str_items Samples.traversal_dict))
           Samples.work Samples.out (s2py "demo") ∅ UnsafePath).
  vm_compute. reflexivity.
Defined.

(** C4, as stated, fails: [UnsafePath] is raised inside the writing loop.
    When the second key is rejected, the first one is already a file in
    the staging directory. *)
Lemma unsafe_path_raised_after_writes :
  let staging := Samples.work ++ [s2py "demo"] in
  let body := json2file_try staging Samples.out Samples.traversal_dict
                (s2py "demo") Samples.disk2 in
  (json2file Samples.no_json (PyDict (str_items Samples.traversal_dict))
     Samples.work Samples.out (s2py "demo") ∅).1
  = Raise (FilePackError UnsafePath)
  ∧ body.1 = Raise (FilePackError UnsafePath)
  ∧ stat body.2 (staging ++ [s2py "ok.txt"]) = Some (File (Raw (s2py "x"))).
Proof. split_and!; vm_compute; reflexivity. Qed.

(** C5 (amended).  Once the mapping is parsed, the name is checked and the
    two directories exist, [json2file] ends with the outcome of the
    [try] suite, whether a result or an exception, in the state that the
    cleanup leaves; the cleanup never raises, and it removes the staging
    directory when that is a directory below the root. *)
Theorem cleanup_keeps_outcome
    (json_loads : pystr → option pyval) (file_map : pyval) (d : strdict)
    (base out : path) (name : pystr) (s s1 s2 : fs) :
  _parse_file_map json_loads file_map = Ok d →
  _validate_project_name name = Ok () →
  _ensure_dir base s = (Ok (), s1) →
  _ensure_dir out s1 = (Ok (), s2) →
  let tmp := joinpath base (Path name) in
  let body := json2file_try tmp out d name s2 in
  json2file json_loads file_map base out name s
  = (body.1, (_safe_remove_dir tmp body.2).2)
  ∧ (_safe_remove_dir tmp body.2).1 = Ok ()
  ∧ (tmp ≠ [] → path_ok tmp = true → dir_at body.2 tmp = true →
     stat (_safe_remove_dir tmp body.2).2 tmp = None).
Proof.
  intros Hp Hn Hb Ho tmp body. split_and!.
  - unfold json2file.
    rewrite (bind_ok _ _ s d s) by (by unfold lift; rewrite Hp).
    rewrite (bind_ok _ _ s () s) by (by unfold lift; rewrite Hn).
    rewrite (bind_ok _ _ s () s1) by done.
    rewrite (bind_ok _ _ s1 () s2) by done.
    by rewrite try_finally_safe_remove.
  - apply safe_remove_dir_ok.
  - intros Htmp Hok Hdir. rewrite safe_remove_dir_state, Hok, Hdir. simpl.
    rewrite stat_nonroot by done. rewrite filter_outside.
    by rewrite decide_True.
Qed.

Lemma cleanup_keeps_outcome_witness :
  let tmp := joinpath Samples.work (Path (s2py "demo")) in
  let body := json2file_try tmp Samples.out Samples.traversal_dict (s2py "demo")
                Samples.disk2 in
  json2file Samples.no_json (PyDict (str_items Samples.traversal_dict))
    Samples.work Samples.out (s2py "demo") ∅
  = (body.1, (_safe_remove_dir tmp body.2).2)
  ∧ (_safe_remove_dir tmp body.2).1 = Ok ()
  ∧ (tmp ≠ [] → path_ok tmp = true → dir_at body.2 tmp = true →
     stat (_safe_remove_dir tmp body.2).2 tmp = None).
Proof.
  apply (cleanup_keeps_outcome Samples.no_json _ Samples.traversal_dict
           Samples.work Samples.out (s2py "demo") ∅ Samples.disk1 Samples.disk2).
  - by_eval.
  - by_eval.
  - by_eval.
  - by_eval.
Defined.

(** C5, as stated, fails: an exit before the [try] statement does not run
    the cleanup.  With an invalid mapping, a staging directory left by an
    earlier run is still there afterwards, although the cleanup would have
    removed it. *)
Lemma early_exit_skips_cleanup :
  let staging := Samples.work ++ [s2py "demo"] in
  let run := json2file Samples.no_json (PyInt 5) Samples.work Samples.out
               (s2py "demo") Samples.stale_disk in
  run.1 = Raise (FilePackError InvalidFileMap)
  ∧ stat run.2 staging = Some Dir
  ∧ stat run.2 (staging ++ [s2py "stale.txt"]) = Some (File (Raw []))
  ∧ stat (_safe_remove_dir staging run.2).2 staging = None.
Proof. split_and!; vm_compute; reflexivity. Qed.



Lemma normalize_plain_from (comps acc : list pystr) :
  [dot; dot] ∉ comps →
  fold_left (λ acc c, if bool_decide (c = [dot; dot]) then parent acc
                      else acc ++ [c]) comps acc = acc ++ comps.
Proof.
  revert acc. induction comps as [|c comps IH]; intros acc Hn; simpl.
  - by rewrite app_nil_r.
  - apply not_elem_of_cons in Hn as [Hc Hn].
    rewrite bool_decide_eq_false_2 by done.
    rewrite IH by done. by rewrite <- app_assoc.
Qed.

Lemma normalize_plain (comps : list pystr) :
  [dot; dot] ∉ comps → normalize comps = comps.
Proof. intros H. unfold normalize. by rewrite normalize_plain_from. Qed.






(** An existing regular file whose name is not UTF-8 gets no URL: [quote]
    encodes strictly, where [Path.as_uri] goes through [os.fsencode]. *)
Lemma file2storage_odd_name :
  stat Samples.odd_disk Samples.odd_file = Some (File (Raw []))
  ∧ resolved_arg Samples.homes [] (posix_str Samples.odd_file)
    = Ok Samples.odd_file
  ∧ file2storage Samples.homes [] (posix_str Samples.odd_file) Samples.odd_disk
    = (Raise ValueError, Samples.odd_disk).
Proof. split_and!; vm_compute; reflexivity. Qed.

(** What [_sanitize_relpath] does reject: an absolute path and a [".."]
    component. *)
Lemma sanitize_rejects (k : pystr) :
  is_absolute (Path k) = true ∨ [dot; dot] ∈ tail (Path k) →
  _sanitize_relpath k = Raise (FilePackError UnsafePath).
Proof.
  intros H. destruct (sanitize_total k) as [(_ & Hr & Hc)|?]; [|done].
  destruct H as [Habs|Hin].
  - unfold is_absolute in Habs. rewrite Hr in Habs. done.
  - exfalso. revert Hc Hin.
    induction (tail (Path k)) as [|x l IH]; intros Hc Hin;
      [by apply elem_of_nil in Hin|].
    simpl in Hc. case_bool_decide as Hx; [done|].
    apply elem_of_cons in Hin as [<-|Hin]; [|by apply IH].
    apply Hx. left.
Qed.

(** No component of a parsed path is empty: the test for [""] in line 159
    never fires. *)
Lemma parts_never_empty (k : pystr) : [] ∉ tail (Path k).
Proof.
  unfold Path. destruct k as [|c k]; [by intros ?%elem_of_nil|].
  destruct (splitroot (c :: k)) as [r rel]. simpl.
  intros [[? _] _]%list_elem_of_filter. done.
Qed.

(** C1 (the code at the failing inputs).  With [PosixPath] a backslash is
    not a separator: the keys ["..\evil.txt"] and ["C:\abs\path.txt"] pass
    [_sanitize_relpath] as single components and are packed; a doubled
    separator passes too.  The keys with a [".."] component or a leading
    slash are rejected. *)
Theorem backslash_keys_are_packed :
  let run := json2file Samples.no_json
               (PyDict (str_items [(s2py "..\evil.txt", s2py "boom")]))
               Samples.work Samples.out (s2py "safe") ∅ in
  _sanitize_relpath (s2py "..\evil.txt") = Ok (mkPurePath [] [s2py "..\evil.txt"])
  ∧ _sanitize_relpath (s2py "C:\abs\path.txt")
    = Ok (mkPurePath [] [s2py "C:\abs\path.txt"])
  ∧ _sanitize_relpath (s2py "a//b.txt") = Ok (mkPurePath [] [s2py "a"; s2py "b.txt"])
  ∧ run.1 = Ok (mkPackResult (s2py "/tmp/out/safe.zip"))
  ∧ stat run.2 (Samples.out ++ [s2py "safe.zip"])
    = Some (File (Zip [(s2py "safe/..\evil.txt", Raw (s2py "boom"))]))
  ∧ _sanitize_relpath (s2py "../evil.txt") = Raise (FilePackError UnsafePath)
  ∧ _sanitize_relpath (s2py "/abs/path.txt") = Raise (FilePackError UnsafePath)
  ∧ _sanitize_relpath (s2py "dir/../../evil.txt") = Raise (FilePackError UnsafePath).
Proof. split_and!; vm_compute; reflexivity. Qed.

(** C3.  [_validate_project_name] raises [InvalidProjectName] exactly for
    the empty name, a name with a slash or a backslash, and a name that
    contains [".."]; it accepts every other name.  With a mapping that
    parses, [json2file] raises it for each of the six names listed below,
    before it touches the file system. *)
Theorem project_name_validation (name : pystr) :
  (_validate_project_name name = Raise (FilePackError InvalidProjectName)
   ↔ name = [] ∨ slash ∈ name ∨ backslash ∈ name
     ∨ ∃ a b, name = a ++ [dot; dot] ++ b)
  ∧ (_validate_project_name name = Ok ()
     ∨ _validate_project_name name = Raise (FilePackError InvalidProjectName))
  ∧ ∀ (json_loads : pystr → option pyval) (file_map : pyval) (d : strdict)
      (base out : path) (s : fs) (bad : pystr),
      bad ∈ [[]; s2py "a/b"; s2py "a\b"; s2py ".."; s2py "demo..";
             s2py "de..mo"] →
      _parse_file_map json_loads file_map = Ok d →
      json2file json_loads file_map base out bad s
      = (Raise (FilePackError InvalidProjectName), s).
Proof.
  split_and!.
  - apply validate_project_name_iff.
  - apply validate_project_name_total.
  - intros json_loads fm d base out s bad Hbad Hp.
    eapply json2file_name_error; [done|].
    repeat (apply elem_of_cons in Hbad as [->|Hbad]; [reflexivity|]).
    by apply elem_of_nil in Hbad.
Qed.

Lemma project_name_validation_witness :
  json2file Samples.loads (PyStr Samples.json_text) Samples.work Samples.out
    (s2py "de..mo") ∅
  = (Raise (FilePackError InvalidProjectName), ∅).
Proof.
  destruct (project_name_validation (s2py "de..mo")) as (_ & _ & H).
  apply (H Samples.loads (PyStr Samples.json_text)
           [(s2py "a.txt", s2py "A" ++ [10]); (s2py "dir/b.txt", s2py "B" ++ [10])]).
  - by_decide.
  - by_eval.
Defined.



(** C10.  Let every key pass [_sanitize_relpath] and let the project name
    be valid, the staging directory not being the root directory.  If a
    key names the staging directory itself, or if the path of one key is a
    proper prefix of the path of another, [json2file] raises an exception
    that is not a [FilePackError]. *)
Theorem colliding_keys_not_a_pack_error
    (json_loads : pystr → option pyval) (file_map : pyval) (d : strdict)
    (base out : path) (name : pystr) (s : fs) :
  _parse_file_map json_loads file_map = Ok d →
  _validate_project_name name = Ok () →
  joinpath base (Path name) ≠ [] →
  (∀ k v, (k, v) ∈ d → ∃ p, _sanitize_relpath k = Ok p) →
  conflicting d →
  ∃ e, (json2file json_loads file_map base out name s).1 = Raise e
       ∧ (e = OSError ∨ e = ValueError).
Proof.
  intros Hp Hn Hr Hs Hc.
  destruct (json2file_exit json_loads file_map base out name s)
    as [e H|d' e H1 H2|d' e s1 H1 H2 H3|d' e s1 s2 H1 H2 H3 H4
        |d' s1 s2 r s3 H1 H2 H3 H4 H5]; try congruence.
  - exists e. split; [done|]. by eapply mkdir_raises.
  - exists e. split; [done|]. by eapply mkdir_raises.
  - assert (d' = d) as -> by congruence.
    by eapply json2file_try_conflict.
Qed.

Lemma colliding_keys_not_a_pack_error_witness :
  ∃ e, (json2file Samples.no_json (PyDict (str_items Samples.colliding_dict))
          Samples.work Samples.out (s2py "safe") ∅).1 = Raise e
       ∧ (e = OSError ∨ e = ValueError).
Proof.
  apply (colliding_keys_not_a_pack_error Samples.no_json _ Samples.colliding_dict).
  - by_eval.
  - by_eval.
  - by_eval.
  - intros k v Hin. repeat (apply elem_of_cons in Hin as [[= -> ->]|Hin];
      [eexists; by_eval|]). by apply elem_of_nil in Hin.
  - right. exists (s2py "a"), (s2py "x"), (s2py "a/b"), (s2py "y").
    split_and!; [by_decide|by_decide|by_decide|by_eval].
Defined.

(** The keys [""] and ["."] name the staging directory: writing them is an
    [OSError]; so is writing ["a"] and ["a/b"], in either order. *)
Lemma root_and_prefix_keys_raise_os_error :
  Forall (λ d, Forall (λ kv, _sanitize_relpath kv.1 = Ok (Path kv.1)) d
               ∧ (json2file Samples.no_json (PyDict (str_items d))
                    Samples.work Samples.out (s2py "safe") ∅).1 = Raise OSError)
    [[([], s2py "x")]; [(s2py ".", s2py "x")]; Samples.colliding_dict;
     reverse Samples.colliding_dict].
Proof. repeat constructor; vm_compute; reflexivity. Qed.

(** * Further properties *)

(** ** The directory helpers *)

(** X1.  When [_ensure_dir] succeeds, the path and all its ancestors are
    directories, nothing that existed before has changed, and running it
    again changes nothing. *)
Theorem ensure_dir_idempotent (p : path) (s s' : fs) :
  _ensure_dir p s = (Ok (), s') →
  (∀ q : path, q `prefix_of` p → stat s' q = Some Dir)
  ∧ (∀ (q : path) n, stat s q = Some n → stat s' q = Some n)
  ∧ _ensure_dir p s' = (Ok (), s').
Proof.
  intros H. unfold _ensure_dir in *.
  assert (Hd : ∀ q : path, q `prefix_of` p → stat s' q = Some Dir).
  { intros q Hq. by apply (mkdir_ok_dirs _ _ _ _ H). }
  split_and!; [done| |].
  - intros q n. apply (mkdir_stat_keeps _ _ _ _ H).
  - apply mkdir_noop; [by eapply mkdir_ok_path|done].
Qed.

Lemma ensure_dir_idempotent_witness :
  (∀ q : path, q `prefix_of` Samples.work → stat Samples.disk1 q = Some Dir)
  ∧ (∀ (q : path) n, stat ∅ q = Some n → stat Samples.disk1 q = Some n)
  ∧ _ensure_dir Samples.work Samples.disk1 = (Ok (), Samples.disk1).
Proof.
  apply (ensure_dir_idempotent Samples.work ∅ Samples.disk1).
  vm_compute. reflexivity.
Defined.

(** X2.  When a regular file lies on the path, [_ensure_dir] raises
    [OSError] and no regular file is created, changed or removed. *)
Theorem ensure_dir_blocked_by_file (p q : path) (c : content) (s : fs) :
  path_ok p = true → q `prefix_of` p → stat s q = Some (File c) →
  (_ensure_dir p s).1 = Raise OSError
  ∧ ∀ (f : path) c', stat (_ensure_dir p s).2 f = Some (File c')
                     ↔ stat s f = Some (File c').
Proof.
  intros Hok Hq Hf. unfold _ensure_dir.
  destruct (mkdir p s) as [r s'] eqn:H. simpl. split.
  - destruct r as [[]|e].
    + pose proof (mkdir_ok_dirs _ _ _ _ H q eq_refl Hq) as Hd.
      apply (mkdir_stat_keeps _ _ _ _ H) in Hf. congruence.
    + unfold mkdir in H. rewrite Hok in H.
      apply mkdir_from_spec in H as (_ & _ & _ & [?|?]); congruence.
  - intros f c'. destruct f; [done|]. simpl. apply (mkdir_files _ _ _ _ H).
Qed.

Lemma ensure_dir_blocked_by_file_witness :
  let s : fs := <[[s2py "tmp"] := File (Raw [])]> ∅ in
  (_ensure_dir Samples.work s).1 = Raise OSError
  ∧ ∀ (f : path) c', stat (_ensure_dir Samples.work s).2 f = Some (File c')
                     ↔ stat s f = Some (File c').
Proof.
  intros s.
  apply (ensure_dir_blocked_by_file Samples.work [s2py "tmp"] (Raw []) s).
  - vm_compute. reflexivity.
  - apply (bool_decide_unpack _). vm_compute. exact I.
  - vm_compute. reflexivity.
Defined.

(** X3.  When [_recreate_dir] succeeds on an existing directory, the
    directory is there and empty afterwards, and no regular file outside it
    is created, changed or removed. *)
Theorem recreate_dir_empties (p : path) (s s' : fs) :
  p ≠ [] → dir_at s p = true →
  _recreate_dir p s = (Ok (), s') →
  stat s' p = Some Dir
  ∧ (∀ q : path, p `prefix_of` q → q ≠ p → stat s' q = None)
  ∧ files_outside p s s'.
Proof.
  intros Hp Hdir Hrun.
  pose proof (recreate_dir_frame p _ _ _ Hrun) as Hframe.
  pose proof (recreate_dir_ok_path _ _ _ Hrun) as Hok.
  split_and!; [|  |done].
  - by apply recreate_dir_run in Hrun as [(e & ? & _)|[_ ?]].
  - unfold _recreate_dir, bind, exists_ in Hrun. rewrite Hok in Hrun.
    unfold dir_at in Hdir. destruct (stat s p) as [[|c]|] eqn:Hs; try done.
    simpl in Hrun.
    destruct (rmtree p s) as [[[]|e] s1] eqn:Hrm; [|done].
    intros q Hq Hne.
    assert (q ≠ []) by (intros ->; by apply prefix_nil_inv in Hq).
    rewrite stat_nonroot by done.
    destruct (s' !! q) as [n|] eqn:Hsq; [|done].
    apply (mkdir_adds_dirs _ _ _ _ Hrun) in Hsq as [Hsq|(_ & _ & _ & Hq')].
    + by rewrite (rmtree_inside _ _ _ _ Hrm Hq) in Hsq.
    + destruct Hne. by apply (anti_symm prefix).
Qed.

Lemma recreate_dir_empties_witness :
  let p := Samples.work ++ [s2py "demo"] in
  let s' := (_recreate_dir p Samples.stale_disk).2 in
  stat s' p = Some Dir
  ∧ (∀ q : path, p `prefix_of` q → q ≠ p → stat s' q = None)
  ∧ files_outside p Samples.stale_disk s'.
Proof.
  intros p s'. apply (recreate_dir_empties p Samples.stale_disk s').
  - done.
  - vm_compute. reflexivity.
  - vm_compute. reflexivity.
Defined.

(** X4.  On a regular file [_recreate_dir] raises [OSError] (the file is
    not a directory tree) and leaves the file system as it is. *)
Theorem recreate_dir_on_file (p : path) (c : content) (s : fs) :
  path_ok p = true → stat s p = Some (File c) →
  _recreate_dir p s = (Raise OSError, s).
Proof.
  intros Hok Hf. unfold _recreate_dir, bind, exists_, rmtree.
  rewrite Hok, Hf. simpl. by rewrite Hf.
Qed.

Lemma recreate_dir_on_file_witness :
  let s : fs := <[[s2py "tmp"] := File (Raw [])]> ∅ in
  _recreate_dir [s2py "tmp"] s = (Raise OSError, s).
Proof.
  intros s. apply (recreate_dir_on_file [s2py "tmp"] (Raw []) s).
  - vm_compute. reflexivity.
  - vm_compute. reflexivity.
Defined.

(** X5.  [_safe_remove_dir] never raises.  A directory is removed with all
    it holds; anything else (a missing path, a regular file) leaves the
    file system as it is; no regular file outside the path is touched. *)
Theorem safe_remove_dir_effect (p : path) (s : fs) :
  (_safe_remove_dir p s).1 = Ok ()
  ∧ files_outside p s (_safe_remove_dir p s).2
  ∧ (p ≠ [] → path_ok p = true → dir_at s p = true →
     ∀ q : path, p `prefix_of` q → stat (_safe_remove_dir p s).2 q = None)
  ∧ (dir_at s p = false → (_safe_remove_dir p s).2 = s).
Proof.
  split_and!.
  - apply safe_remove_dir_ok.
  - apply safe_remove_dir_frame.
  - intros Hp Hok Hdir q Hq. rewrite safe_remove_dir_state, Hok, Hdir. simpl.
    assert (q ≠ []) by (intros ->; by apply prefix_nil_inv in Hq).
    rewrite stat_nonroot by done. rewrite filter_outside.
    by rewrite decide_True.
  - intros Hdir. rewrite safe_remove_dir_state, Hdir.
    by rewrite andb_false_r.
Qed.

Lemma safe_remove_dir_effect_witness :
  let tmp := Samples.work ++ [s2py "demo"] in
  let run := _safe_remove_dir tmp Samples.stale_disk in
  run.1 = Ok ()
  ∧ files_outside tmp Samples.stale_disk run.2
  ∧ ∀ q : path, tmp `prefix_of` q → stat run.2 q = None.
Proof.
  intros tmp run.
  destruct (safe_remove_dir_effect tmp Samples.stale_disk) as (H1 & H2 & H3 & _).
  split_and!; [exact H1|exact H2|].
  apply H3; [done|reflexivity|reflexivity].
Defined.

(** ** Sanitising a key *)

Lemma is_absolute_iff (k : pystr) :
  is_absolute (Path k) = true ↔ ∃ rest, k = slash :: rest.
Proof.
  destruct k as [|c k]; [split; [done|by intros [? ?]]|].
  destruct (decide (c = slash)) as [->|Hc].
  - split; [eauto|]. intros _.
    assert (Hr : ∃ r rel, splitroot (slash :: k) = (slash :: r, rel)).
    { unfold splitroot, slice. simpl.
      repeat (case_bool_decide; simpl); try done; eauto. }
    destruct Hr as (r & rel & Hr). unfold is_absolute, Path. by rewrite Hr.
  - assert (Hsr : splitroot (c :: k) = ([], c :: k)).
    { unfold splitroot, slice. simpl.
      rewrite bool_decide_eq_false_2 by congruence. done. }
    unfold is_absolute, Path. rewrite Hsr. simpl.
    split; [done|]. intros [rest [= ? _]]. done.
Qed.

Lemma tail_relative (k : pystr) :
  is_absolute (Path k) = false →
  root (Path k) = []
  ∧ tail (Path k) = filter (λ x, x ≠ [] ∧ x ≠ [dot]) (split slash k).
Proof.
  destruct k as [|c k]; [done|]. intros Habs.
  assert (Hc : c ≠ slash).
  { intros ->. assert (is_absolute (Path (slash :: k)) = true); [|congruence].
    apply is_absolute_iff. eauto. }
  assert (Hsr : splitroot (c :: k) = ([], c :: k)).
  { unfold splitroot, slice. simpl.
    rewrite bool_decide_eq_false_2 by congruence. done. }
  unfold Path. by rewrite Hsr.
Qed.

Lemma check_parts_ok (l : list pystr) :
  [dot; dot] ∉ l → [] ∉ l → check_parts l = Ok ().
Proof.
  induction l as [|x l IH]; [done|].
  intros [H1 H2]%not_elem_of_cons [H3 H4]%not_elem_of_cons. simpl.
  rewrite bool_decide_eq_false_2; [by apply IH|].
  intros [->|[->|[]%elem_of_nil]%elem_of_cons]%elem_of_cons; done.
Qed.

(** X6.  [_sanitize_relpath] raises [UnsafePath] exactly for a key that
    starts with a slash or has [".."] between two separators (or at an
    end); every other key is returned as [Path(key)]. *)
Theorem sanitize_relpath_iff (k : pystr) :
  (_sanitize_relpath k = Raise (FilePackError UnsafePath)
   ↔ (∃ rest, k = slash :: rest) ∨ [dot; dot] ∈ split slash k)
  ∧ (_sanitize_relpath k = Ok (Path k)
     ∨ _sanitize_relpath k = Raise (FilePackError UnsafePath)).
Proof.
  split; [|destruct (sanitize_total k) as [[? _]|?]; eauto].
  destruct (is_absolute (Path k)) eqn:Habs.
  - split; [|intros _; apply sanitize_rejects; by left].
    intros _. left. by apply is_absolute_iff.
  - destruct (tail_relative k Habs) as [Hroot Htail].
    assert (Hin : [dot; dot] ∈ tail (Path k) ↔ [dot; dot] ∈ split slash k).
    { rewrite Htail, list_elem_of_filter. split; [tauto|]. by intros ?. }
    split.
    + intros Hr. right. apply Hin.
      destruct (decide ([dot; dot] ∈ tail (Path k))) as [?|Hn]; [done|].
      exfalso. unfold _sanitize_relpath, parts in Hr.
      rewrite Habs, Hroot in Hr.
      rewrite check_parts_ok in Hr; [done..|]. apply parts_never_empty.
    + intros [Ha|Hs].
      * apply is_absolute_iff in Ha. congruence.
      * apply sanitize_rejects. right. by apply Hin.
Qed.

Lemma sanitize_relpath_iff_witness :
  _sanitize_relpath (s2py "dir/../../evil.txt") = Raise (FilePackError UnsafePath).
Proof.
  apply (proj1 (sanitize_relpath_iff (s2py "dir/../../evil.txt"))).
  right. apply (bool_decide_unpack _). vm_compute. exact I.
Defined.

Lemma split_app_sep (x r : pystr) :
  slash ∉ x → split slash (x ++ slash :: r) = x :: split slash r.
Proof.
  induction x as [|c x IH]; intros Hx; simpl.
  - reflexivity.
  - apply not_elem_of_cons in Hx as [Hc Hx].
    rewrite bool_decide_eq_false_2 by done. by rewrite IH.
Qed.

Lemma split_join (t : list pystr) :
  t ≠ [] → Forall (λ c, slash ∉ c) t → split slash (join [slash] t) = t.
Proof.
  intros Ht Hall. induction Hall as [|x t Hx Hall IH]; [done|].
  destruct t as [|y t]; simpl.
  - by apply split_no_sep.
  - rewrite split_app_sep by done. f_equal. by apply IH.
Qed.

Lemma join_head (x : pystr) (t : list pystr) :
  ∃ r, join [slash] (x :: t) = x ++ r.
Proof. destruct t; simpl; [exists []; by rewrite app_nil_r|eauto]. Qed.

(** X7.  A key built from ordinary components with single slashes passes
    [_sanitize_relpath], which gives back exactly these components; the
    path prints as the key. *)
Theorem sanitize_relpath_join (t : list pystr) :
  t ≠ [] → Forall ordinary t →
  _sanitize_relpath (join [slash] t) = Ok (mkPurePath [] t)
  ∧ pure_str (mkPurePath [] t) = join [slash] t
  ∧ normal_key (join [slash] t).
Proof.
  intros Ht Hall.
  assert (Hns : Forall (λ c, slash ∉ c) t).
  { eapply Forall_impl; [done|]. by intros c (_ & _ & _ & ?). }
  assert (Habs : is_absolute (Path (join [slash] t)) = false).
  { destruct (is_absolute _) eqn:E; [|done]. exfalso.
    apply is_absolute_iff in E as [rest E].
    destruct t as [|x t]; [done|]. destruct (join_head x t) as [r Hr].
    rewrite Hr in E. apply Forall_cons in Hall as [(Hx & _ & _ & Hsl) _].
    destruct x as [|c x]; [done|]. injection E as -> _. apply Hsl. left. }
  destruct (tail_relative _ Habs) as [Hroot Htail].
  rewrite split_join in Htail by done.
  assert (Hf : filter (λ x : pystr, x ≠ [] ∧ x ≠ [dot]) t = t).
  { clear -Hall. induction Hall as [|x t (H1 & H2 & _) _ IH]; [done|].
    rewrite filter_cons_True by done. by rewrite IH. }
  rewrite Hf in Htail.
  assert (HP : Path (join [slash] t) = mkPurePath [] t).
  { destruct (Path (join [slash] t)). simpl in *. congruence. }
  assert (Hs : _sanitize_relpath (join [slash] t) = Ok (mkPurePath [] t)).
  { unfold _sanitize_relpath, parts. rewrite Habs, HP. simpl.
    rewrite check_parts_ok; [done| |].
    - intros Hin. rewrite Forall_forall in Hall.
      by destruct (Hall _ Hin) as (_ & _ & ? & _).
    - intros Hin. rewrite Forall_forall in Hall.
      by destruct (Hall _ Hin) as (? & _). }
  split_and!; [done|by apply pure_str_relative|].
  unfold normal_key. rewrite HP. split_and!; [done|done|].
  by apply pure_str_relative.
Qed.

Lemma sanitize_relpath_join_witness :
  let t := [s2py "src"; s2py "main.py"] in
  _sanitize_relpath (join [slash] t) = Ok (mkPurePath [] t)
  ∧ pure_str (mkPurePath [] t) = join [slash] t
  ∧ normal_key (join [slash] t).
Proof.
  intros t. apply (sanitize_relpath_join t).
  - done.
  - repeat constructor; try discriminate; apply (bool_decide_unpack _);
      vm_compute; exact I.
Defined.

(** ** The writing loop *)

Lemma write_files_app (root_ : path) (d1 d2 : strdict) (s : fs) :
  _write_files root_ (d1 ++ d2) s
  = (let! _ := _write_files root_ d1 in _write_files root_ d2) s.
Proof.
  revert s. induction d1 as [|[k v] d1 IH]; intros s; [reflexivity|].
  rewrite <- app_comm_cons, !write_files_cons. unfold bind.
  destruct (write_entry root_ k v s) as [[[]|e] s1]; [|done].
  rewrite IH. reflexivity.
Qed.

Lemma write_entry_unsafe (root_ : path) (k v : pystr) (s s' : fs) :
  root_ ≠ [] →
  write_entry root_ k v s = (Raise (FilePackError UnsafePath), s') →
  _sanitize_relpath k = Raise (FilePackError UnsafePath) ∧ s' = s.
Proof.
  intros Hr [(? & _ & ?)|(_ & [[? _]|(_ & rm & s1 & Hm & H)])]%write_entry_run;
    [done|done| |done].
  destruct rm as [[]|e].
  - apply write_text_run in H as [[_ [?|?]]|(_ & _ & _ & H)]; [done..|].
    by destruct (utf8_encode v); destruct H.
  - destruct H as [[= <-] _]. by destruct (mkdir_raises _ _ _ _ Hm _ eq_refl).
Qed.

(** X8.  Below a staging directory other than the root directory,
    [_write_files] raises [UnsafePath] only for a key that
    [_sanitize_relpath] rejects (the second check, on the resolved target,
    never fires).  It stops at the first such key: the keys before it pass
    and have been written, and the state is the one they left. *)
Theorem write_files_unsafe_path (root_ : path) (d : strdict) (s s' : fs) :
  root_ ≠ [] →
  _write_files root_ d s = (Raise (FilePackError UnsafePath), s') →
  ∃ d1 k v d2,
    d = d1 ++ (k, v) :: d2
    ∧ _sanitize_relpath k = Raise (FilePackError UnsafePath)
    ∧ Forall (λ kv, _sanitize_relpath kv.1 = Ok (Path kv.1)) d1
    ∧ _write_files root_ d1 s = (Ok (), s').
Proof.
  intros Hr. revert s. induction d as [|[k v] d IH]; intros s; [done|].
  rewrite write_files_cons.
  intros [(e & H & [= <-])|([] & s1 & H & H')]%bind_run.
  - apply write_entry_unsafe in H as [Hs ->]; [|done].
    exists [], k, v, d. done.
  - destruct (IH _ H') as (d1 & k' & v' & d2 & -> & Hs & Hall & Hrun).
    exists ((k, v) :: d1), k', v', d2. split_and!; [done..| |].
    + constructor; [|done]. simpl.
      apply write_entry_run in H as [(_ & ? & _)|[? _]]; done.
    + rewrite write_files_cons. by rewrite (bind_ok _ _ s () s1).
Qed.

Lemma write_files_unsafe_path_witness :
  let root_ := Samples.work ++ [s2py "demo"] in
  let s := (_recreate_dir root_ Samples.disk2).2 in
  let s' := (_write_files root_ Samples.traversal_dict s).2 in
  ∃ d1 k v d2,
    Samples.traversal_dict = d1 ++ (k, v) :: d2
    ∧ _sanitize_relpath k = Raise (FilePackError UnsafePath)
    ∧ Forall (λ kv, _sanitize_relpath kv.1 = Ok (Path kv.1)) d1
    ∧ _write_files root_ d1 s = (Ok (), s').
Proof.
  intros root_ s s'.
  apply (write_files_unsafe_path root_ Samples.traversal_dict s s').
  - done.
  - vm_compute. reflexivity.
Defined.

Lemma write_entry_written (root_ : path) (k v : pystr) (s s' : fs) :
  root_ ≠ [] →
  write_entry root_ k v s = (Ok (), s') →
  ∃ b, utf8_encode v = Some b
       ∧ s' !! target_of root_ k = Some (File (Raw b))
       ∧ ∀ (f : path) c, f ≠ target_of root_ k →
           (s' !! f = Some (File c) ↔ s !! f = Some (File c)).
Proof.
  intros Hr [(_ & ? & _)|(_ & [[? _]|(_ & rm & s1 & Hm & H)])]%write_entry_run;
    [done..| |done].
  destruct rm as [[]|e]; [|by destruct H].
  apply write_text_run in H as [[_ [?|?]]|(_ & _ & _ & H)]; [done..|].
  destruct (utf8_encode v) as [b|]; destruct H as [? ->]; [|done].
  exists b. split_and!; [done|by rewrite lookup_insert_eq|].
  intros f c Hf. rewrite lookup_insert_ne by done.
  apply (mkdir_files _ _ _ _ Hm).
Qed.

Lemma write_files_keeps_file (root_ : path) (d : strdict) (s s' : fs)
    (f : path) (c : content) :
  root_ ≠ [] →
  Forall (λ kv, target_of root_ kv.1 ≠ f) d →
  _write_files root_ d s = (Ok (), s') →
  s !! f = Some (File c) → s' !! f = Some (File c).
Proof.
  intros Hr Hall. revert s. induction Hall as [|[k v] d Hk _ IH]; intros s.
  - by intros [= <-].
  - rewrite write_files_cons.
    intros [(e & _ & ?)|([] & s1 & H & H')]%bind_run; [done|].
    intros Hf. apply (IH _ H').
    destruct (write_entry_written _ _ _ _ _ Hr H) as (b & _ & _ & Hsame).
    apply Hsame; [by intros ->|done].
Qed.

(** X9.  [_write_files] overwrites: after a successful run, the target of
    a key holds the UTF-8 bytes of the text of the last item written to
    that target, whatever was there before. *)
Theorem write_files_last_wins (root_ : path) (d1 d2 : strdict) (k v : pystr)
    (s s' : fs) :
  root_ ≠ [] →
  Forall (λ kv, target_of root_ kv.1 ≠ target_of root_ k) d2 →
  _write_files root_ (d1 ++ (k, v) :: d2) s = (Ok (), s') →
  ∃ b, utf8_encode v = Some b
       ∧ stat s' (target_of root_ k) = Some (File (Raw b)).
Proof.
  intros Hr Hall. rewrite write_files_app.
  intros [(e & _ & ?)|([] & s1 & _ & H)]%bind_run; [done|].
  rewrite write_files_cons in H.
  apply bind_run in H as [(e & _ & ?)|([] & s2 & H & H')]; [done|].
  destruct (write_entry_written _ _ _ _ _ Hr H) as (b & Hb & Hf & _).
  exists b. split; [done|].
  rewrite stat_nonroot by (by apply target_of_nonempty).
  by eapply write_files_keeps_file.
Qed.

Lemma write_files_last_wins_witness :
  let root_ := Samples.work ++ [s2py "demo"] in
  let s := (_recreate_dir root_ Samples.disk2).2 in
  let s' := (_write_files root_ Samples.same_file_dict s).2 in
  ∃ b, utf8_encode (s2py "2") = Some b
       ∧ stat s' (target_of root_ (s2py "./a.txt")) = Some (File (Raw b)).
Proof.
  intros root_ s s'.
  apply (write_files_last_wins root_ [(s2py "a.txt", s2py "1")] []
           (s2py "./a.txt") (s2py "2") s s').
  - done.
  - constructor.
  - vm_compute. reflexivity.
Defined.

(** ** The parsed mapping *)

Lemma dict_set_keys (k v : pystr) (out : strdict) (x : pystr) :
  x ∈ (dict_set k v out).*1 ↔ x = k ∨ x ∈ out.*1.
Proof.
  induction out as [|[k' v'] out IH]; simpl.
  - rewrite elem_of_cons. by rewrite elem_of_nil.
  - case_bool_decide as E; simpl; rewrite !elem_of_cons.
    + subst. tauto.
    + rewrite IH. tauto.
Qed.

Lemma dict_set_NoDup (k v : pystr) (out : strdict) :
  NoDup out.*1 → NoDup (dict_set k v out).*1.
Proof.
  induction out as [|[k' v'] out IH]; simpl.
  - intros _. apply NoDup_singleton.
  - intros [Hk Hnd]%NoDup_cons. case_bool_decide as E; simpl.
    + subst. by apply NoDup_cons.
    + apply NoDup_cons. split; [|by apply IH].
      rewrite dict_set_keys. simpl in *. intros [?|?]; done.
Qed.

Lemma dict_set_items (k v : pystr) (out : strdict) (kv : pystr * pystr) :
  kv ∈ dict_set k v out → kv = (k, v) ∨ kv ∈ out.
Proof.
  induction out as [|[k' v'] out IH]; simpl.
  - intros ->%list_elem_of_singleton. by left.
  - case_bool_decide; rewrite !elem_of_cons; [tauto|].
    intros [?|?%IH]; tauto.
Qed.

Lemma ensure_str_str_dict_from_result items (out d : strdict) :
  _ensure_str_str_dict_from items out = Ok d →
  (NoDup out.*1 → NoDup d.*1)
  ∧ (∀ x, x ∈ d.*1 ↔ x ∈ out.*1 ∨ ∃ v, (PyStr x, v) ∈ items)
  ∧ (∀ kv, kv ∈ d → kv ∈ out ∨ (PyStr kv.1, PyStr kv.2) ∈ items)
  ∧ Forall (λ it, is_str it.1 ∧ is_str it.2) items.
Proof.
  revert out. induction items as [|[k v] items IH]; intros out; simpl.
  - intros [= ->]. split_and!; [done| |by left|constructor].
    intros x. split; [by left|]. intros [?|[v Hv]]; [done|].
    by apply elem_of_nil in Hv.
  - destruct k as [| | |k| |]; try done. destruct v as [| | |v| |]; try done.
    intros (H1 & H2 & H3 & H4)%IH. split_and!.
    + intros Hnd. by apply H1, dict_set_NoDup.
    + intros x. rewrite H2, dict_set_keys. split.
      * intros [[->|?]|[v' Hv']]; [right; exists (PyStr v); left|by left|].
        right. exists v'. by right.
      * intros [?|[v' [[= -> ->]|Hv']%elem_of_cons]]; [tauto|tauto|eauto].
    + intros kv [[->|?]%dict_set_items|?]%H3; [right; left|by left|].
      right. by right.
    + constructor; [|done]. simpl. split; eexists; done.
Qed.

(** X10.  When [_ensure_str_str_dict] succeeds, every key and value of its
    argument is a string, and the result has no repeated key, has exactly
    the keys of the argument, and each of its items is an item of the
    argument. *)
Theorem ensure_str_str_dict_result (items : list (pyval * pyval)) (d : strdict) :
  _ensure_str_str_dict items = Ok d →
  NoDup d.*1
  ∧ (∀ x, x ∈ d.*1 ↔ ∃ v, (PyStr x, v) ∈ items)
  ∧ (∀ kv, kv ∈ d → (PyStr kv.1, PyStr kv.2) ∈ items)
  ∧ Forall (λ it, is_str it.1 ∧ is_str it.2) items.
Proof.
  intros (H1 & H2 & H3 & H4)%ensure_str_str_dict_from_result.
  split_and!; [|  | |done].
  - apply H1. constructor.
  - intros x. rewrite H2. split; [|by right].
    intros [Hx|?]; [|done]. by apply elem_of_nil in Hx.
  - intros kv [Hx|?]%H3; [|done]. by apply elem_of_nil in Hx.
Qed.

Lemma ensure_str_str_dict_result_witness :
  let d := [(s2py "a.txt", s2py "2"); (s2py "b.txt", s2py "3")] in
  let items := str_items [(s2py "a.txt", s2py "1"); (s2py "b.txt", s2py "3");
                          (s2py "a.txt", s2py "2")] in
  NoDup d.*1
  ∧ (∀ x, x ∈ d.*1 ↔ ∃ v, (PyStr x, v) ∈ items)
  ∧ (∀ kv, kv ∈ d → (PyStr kv.1, PyStr kv.2) ∈ items)
  ∧ Forall (λ it, is_str it.1 ∧ is_str it.2) items.
Proof.
  intros d items. apply (ensure_str_str_dict_result items d).
  vm_compute. reflexivity.
Defined.

(** ** The project name as the staging directory *)

Lemma staging_dir_of_valid_name (base : path) (name : pystr) :
  _validate_project_name name = Ok () →
  joinpath base (Path name)
  = if bool_decide (name = [dot]) then base else base ++ [name].
Proof.
  intros Hn. case_bool_decide as E.
  - subst. unfold joinpath. simpl. by rewrite app_nil_r.
  - by rewrite Path_project_name.
Qed.

(** ** Building the archive *)

Global Instance same_except_preorder (zp : path) : PreOrder (same_except zp).
Proof.
  split; [by intros s q|].
  intros s1 s2 s3 H1 H2 q Hq. by rewrite H2, H1.
Qed.

Lemma preserves_try_finally {A : Type} R `{!Transitive R} (m : M A) (fin : M ()) :
  preserves R m → preserves R fin → preserves R (try_finally m fin).
Proof.
  intros Hm Hf s r s'. unfold try_finally.
  destruct (m s) as [r1 s1] eqn:E1. destruct (fin s1) as [[[]|e] s2] eqn:E2;
    intros [= <- <-]; (etrans; [by eapply Hm|by eapply Hf]).
Qed.

Lemma insert_same_except (zp : path) (n : node) (s : fs) :
  same_except zp s (<[zp := n]> s).
Proof. intros q Hq. by rewrite lookup_insert_ne. Qed.

Lemma zip_member_same (zp src file : path) :
  preserves (same_except zp) (zip_member zp src file).
Proof.
  intros s r s'. unfold zip_member, bind, is_file, lift, zf_write, bind, read_file.
  destruct (path_ok file && _); [|by intros [= <- <-]].
  destruct (relative_to file (parent src)) as [arc|e]; [|by intros [= <- <-]].
  destruct (stat s file) as [[|c]|]; try by intros [= <- <-].
  destruct (utf8_encode (pure_str arc)); [|by intros [= <- <-]].
  destruct (stat s zp) as [[|[]]|]; intros [= <- <-]; try done.
  apply insert_same_except.
Qed.

Lemma make_zip_same (src out : path) (zn : pystr) :
  preserves (same_except (joinpath out (Path zn))) (_make_zip src out zn).
Proof.
  set (zp0 := joinpath out (Path zn)).
  assert (Hp : preserves (same_except zp0)
    (let! e := exists_ zp0 in
     let! _ := (if e then unlink zp0 else ret ()) in
     let! _ := zf_open zp0 in
     let! _ := try_finally
                 (let! files := rglob src in for_each files (zip_member zp0 src))
                 (zf_close zp0) in
     ret zp0)).
  { apply preserves_bind; [apply _|by intros s0 r s' [= _ <-]|]. intros b.
    apply preserves_bind; [apply _| |].
    { destruct b; [|by intros s0 r s' [= _ <-]].
      intros s0 r s'. unfold unlink. destruct (negb _); [by intros [= _ <-]|].
      destruct (stat s0 zp0) as [[|c]|]; intros [= _ <-]; try done.
      intros q Hq. by rewrite lookup_delete_ne. }
    intros _. apply preserves_bind; [apply _| |].
    { intros s0 r s' [[-> _]|(_ & _ & _ & _ & ->)]%open_w_run; [done|].
      apply insert_same_except. }
    intros _. apply preserves_bind; [apply _| |by intros ? s0 r s' [= _ <-]].
    apply preserves_try_finally; [apply _| |].
    - apply preserves_bind; [apply _|by intros s0 r s' [= _ <-]|].
      intros files. apply preserves_for_each; [apply _|].
      intros f. apply zip_member_same.
    - intros s0 r s'. unfold zf_close.
      destruct (stat s0 zp0) as [[|[]]|]; intros [= _ <-]; try done.
      apply insert_same_except. }
  intros s r s'. unfold _make_zip. fold zp0.
  intros [(e & [_ ->]%lift_run & _)|(zp & s1 & [Hr ->]%lift_run & H)]%bind_run;
    [done|].
  assert (zp = zp0) as ->.
  { unfold resolve in Hr. by destruct (path_ok zp0); simplify_eq. }
  by eapply Hp.
Qed.

Lemma zip_member_inv (zp src file : path) (es0 : list (pystr * content))
    (s s' : fs) :
  zp ≠ [] → stat s zp = Some (File (ZipOpen es0)) →
  zip_member zp src file s = (Ok (), s') →
  s' = <[zp := File (ZipOpen (es0 ++ option_list (zip_entry src s file)))]> s.
Proof.
  intros Hzp Hopen.
  assert (Hid : <[zp := File (ZipOpen (es0 ++ []))]> s = s).
  { rewrite app_nil_r. apply insert_id. by rewrite <- stat_nonroot. }
  unfold zip_member, zip_entry, bind, is_file.
  destruct (path_ok file); simpl; [|by intros [= <-]].
  destruct (stat s file) as [[|c]|] eqn:Hf; simpl; try by intros [= <-].
  unfold lift, relative_to. case_bool_decide; [|done].
  unfold zf_write, bind, read_file. rewrite Hf.
  fold (arcname_of src file).
  destruct (utf8_encode (arcname_of src file)); [|done].
  rewrite Hopen. by intros [= <-].
Qed.

Lemma zip_loop_inv (zp src : path) files :
  zp ≠ [] →
  ∀ (es0 : list (pystr * content)) (s s' : fs),
    stat s zp = Some (File (ZipOpen es0)) →
    Forall (λ f, f ≠ zp) files →
    for_each files (zip_member zp src) s = (Ok (), s') →
    s' = <[zp := File (ZipOpen (es0 ++ omap (zip_entry src s) files))]> s.
Proof.
  intros Hzp. induction files as [|f files IH]; intros es0 s s' Hopen Hall.
  - intros [= <-]. rewrite app_nil_r. symmetry.
    apply insert_id. by rewrite <- stat_nonroot.
  - apply Forall_cons in Hall as [Hne Hall].
    change (for_each (f :: files) (zip_member zp src))
      with (let! _ := zip_member zp src f in for_each files (zip_member zp src)).
    intros [(e & _ & ?)|([] & s1 & H1 & H2)]%bind_run; [done|].
    apply (zip_member_inv _ _ _ es0) in H1; [|done..]. subst s1.
    apply (IH (es0 ++ option_list (zip_entry src s f))) in H2;
      [|by apply stat_insert_eq|done].
    rewrite H2, insert_insert_eq. do 3 f_equal. rewrite <- app_assoc. f_equal.
    csimpl.
    rewrite (list_omap_ext (zip_entry src (<[zp:=_]> s)) (zip_entry src s) files files).
    + by destruct (zip_entry src s f).
    + apply Forall_Forall2_diag. eapply Forall_impl; [done|].
      intros f' Hne'. simpl. by rewrite zip_entry_insert.
Qed.

Lemma make_zip_inv (src out : path) (zn : pystr) (p : path) (s s' : fs) :
  _make_zip src out zn s = (Ok p, s') →
  p = joinpath out (Path zn)
  ∧ p ≠ [] ∧ path_ok p = true
  ∧ stat s (parent p) = Some Dir ∧ stat s p ≠ Some Dir
  ∧ (∃ es, s' !! p = Some (File (Zip es)))
  ∧ (¬ src `prefix_of` p →
     s' = <[p := File (Zip (omap (zip_entry src s) (below src s)))]> s).
Proof.
  unfold _make_zip. set (zp := joinpath out (Path zn)).
  intros [(e & _ & ?)|(zp' & s1 & [Hr ->]%lift_run & H)]%bind_run; [done|].
  assert (zp' = zp ∧ path_ok zp = true) as [-> Hok].
  { unfold resolve in Hr. by destruct (path_ok zp); simplify_eq. }
  apply bind_run in H as [(e & _ & ?)|(b & s1 & He & H)]; [done|].
  injection He as <- <-.
  apply bind_run in H as [(e & _ & ?)|([] & s1 & Hu & H)]; [done|].
  apply bind_run in H as [(e & _ & ?)|([] & s_o & Ho & H)]; [done|].
  apply bind_run in H as [(e & _ & ?)|([] & sz & Hl & Hret)]; [done|].
  injection Hret as <-.
  apply open_w_run in Ho as [[_ [?|?]]|(_ & _ & Hpar & Hnd & ->)]; [done..|].
  assert (Hzp : zp ≠ []) by (intros E; by rewrite E in Hnd).
  assert (s1 = delete zp s ∧ stat s zp ≠ Some Dir) as [-> Hnd0].
  { rewrite Hok in Hu. simpl in Hu. case_bool_decide as Hex.
    - unfold unlink in Hu. rewrite Hok in Hu. simpl in Hu.
      destruct (stat s zp) as [[|c]|]; by simplify_eq.
    - injection Hu as <-. rewrite stat_nonroot in * by done.
      destruct (s !! zp) eqn:E; [by destruct Hex|].
      by rewrite delete_id. }
  assert (Hpar0 : stat s (parent zp) = Some Dir).
  { destruct (parent zp) as [|x l] eqn:E; [done|]. rewrite <- E in *.
    rewrite stat_nonroot in * by (by rewrite E).
    rewrite lookup_delete_ne in Hpar; [done|].
    intros E'. symmetry in E'. by apply parent_ne in E'. }
  rewrite insert_delete_eq in Hl.
  set (s_o := <[zp := File (ZipOpen [])]> s) in *.
  unfold try_finally, bind, rglob in Hl. fold (below src s_o) in Hl.
  destruct (for_each (below src s_o) (zip_member zp src) s_o) as [r1 s2] eqn:El.
  assert (Hsame : same_except zp s_o s2).
  { apply (preserves_for_each (same_except zp) _ (zip_member zp src)) in El;
      [done|]. intros f. apply zip_member_same. }
  unfold zf_close in Hl.
  destruct (stat s2 zp) as [[|[| |es]]|] eqn:E2; simplify_eq.
  split_and!; [done..| |].
  - exists es. by rewrite lookup_insert_eq.
  - intros Hsrc.
    assert (Hb : below src s_o = below src s) by by apply below_insert_outside.
    rewrite Hb in El.
    apply (zip_loop_inv zp src _ Hzp []) in El; [|by apply stat_insert_eq|].
    2:{ apply Forall_forall. intros f (_ & Hf & _)%below_spec. by intros ->. }
    subst s2. rewrite stat_insert_eq in E2 by done. injection E2 as <-.
    unfold s_o. rewrite !insert_insert_eq. do 3 f_equal. simpl.
    apply list_omap_ext, Forall_Forall2_diag. apply Forall_forall.
    intros f (_ & Hf & _)%below_spec. simpl. rewrite zip_entry_insert; [done|].
    by intros ->.
Qed.

Lemma zip_entries_spec (src : path) (s : fs) (n : pystr) (c : content) :
  (n, c) ∈ omap (zip_entry src s) (below src s)
  ↔ ∃ f : path, src `prefix_of` f ∧ f ≠ src ∧ path_ok f = true
                ∧ s !! f = Some (File c) ∧ n = arcname_of src f.
Proof.
  rewrite list_elem_of_omap. split.
  - intros (f & (Hs & Hp & Hne)%below_spec & Hz). exists f.
    unfold zip_entry in Hz. destruct (path_ok f); [|done].
    assert (f ≠ []) by (intros ->; apply Hne; symmetry; by apply prefix_nil_inv).
    rewrite stat_nonroot in Hz by done.
    destruct (s !! f) as [[|c']|]; by simplify_eq.
  - intros (f & Hp & Hne & Hok & Hs & ->). exists f. split.
    + apply below_spec. by rewrite Hs.
    + assert (f ≠ []) by (intros ->; apply Hne; symmetry; by apply prefix_nil_inv).
      unfold zip_entry. rewrite Hok, stat_nonroot by done. by rewrite Hs.
Qed.

(** X11.  [_make_zip] changes nothing but the entry at the archive path
    [out_dir/zip_name].  When it returns, it returns that path, the output
    directory existed, no directory was in the way, and, for an archive
    path outside [src_dir], the path holds a closed archive with one member
    for each regular file strictly below [src_dir], named by its path
    relative to the parent of [src_dir], in the order of [rglob].  A
    directory at the archive path is not replaced: the call raises and
    leaves the file system as it was. *)
Theorem make_zip_result (src out : path) (zn : pystr) (s : fs) :
  let zp := joinpath out (Path zn) in
  let run := _make_zip src out zn s in
  (∀ q : path, q ≠ zp → run.2 !! q = s !! q)
  ∧ (∀ p : path, run.1 = Ok p →
       p = zp ∧ stat s (parent zp) = Some Dir ∧ stat s zp ≠ Some Dir
       ∧ (¬ src `prefix_of` zp →
          stat run.2 zp
          = Some (File (Zip (omap (zip_entry src s) (below src s))))))
  ∧ (stat s zp = Some Dir →
     run = (Raise (if path_ok zp then OSError else ValueError), s)).
Proof.
  intros zp run. split_and!.
  - intros q Hq. destruct run as [r s'] eqn:E. by apply (make_zip_same _ _ _ _ _ _ E).
  - intros p Hp. destruct run as [r s'] eqn:E. simpl in Hp. subst r.
    apply make_zip_inv in E as (-> & Hne & _ & Hpar & Hnd & _ & Hs').
    split_and!; [done..|]. intros Hsrc. simpl.
    rewrite (Hs' Hsrc), stat_insert_eq; done.
  - intros Hd. unfold run, _make_zip, bind, lift, resolve. fold zp.
    destruct (path_ok zp) eqn:Hok; [|done].
    unfold exists_. rewrite Hok, Hd. simpl.
    unfold unlink. by rewrite Hok, Hd.
Qed.

Lemma make_zip_result_witness :
  let src := Samples.work ++ [s2py "demo"] in
  let s := (_write_files src Samples.demo_dict
              (_recreate_dir src Samples.disk2).2).2 in
  let run := _make_zip src Samples.out (s2py "demo.zip") s in
  (∀ q : path, q ≠ Samples.demo_zip → run.2 !! q = s !! q)
  ∧ stat s Samples.out = Some Dir
  ∧ stat run.2 Samples.demo_zip
    = Some (File (Zip (omap (zip_entry src s) (below src s)))).
Proof.
  intros src s run.
  destruct (make_zip_result src Samples.out (s2py "demo.zip") s) as (H1 & H2 & _).
  split; [exact H1|].
  destruct (H2 Samples.demo_zip) as (_ & Hp & _ & H3).
  { vm_compute. reflexivity. }
  split; [exact Hp|]. apply H3.
  apply (bool_decide_unpack _). vm_compute. exact I.
Defined.

(** ** Runs of [json2file] *)

Section Runs.
Variable json_loads : pystr → option pyval.
Context (file_map : pyval) (base out : path) (name : pystr).

Let tmp : path := joinpath base (Path name).
Let zp : path := joinpath out (Path (name ++ s2py ".zip")).

Lemma json2file_staged (d : strdict) (s s1 s2 : fs) :
  _parse_file_map json_loads file_map = Ok d →
  _validate_project_name name = Ok () →
  _ensure_dir base s = (Ok (), s1) →
  _ensure_dir out s1 = (Ok (), s2) →
  json2file json_loads file_map base out name s
  = ((json2file_try tmp out d name s2).1,
     (_safe_remove_dir tmp (json2file_try tmp out d name s2).2).2).
Proof.
  intros Hp Hn Hb Ho. unfold json2file.
  rewrite (bind_ok _ _ s d s) by (by unfold lift; rewrite Hp).
  rewrite (bind_ok _ _ s () s) by (by unfold lift; rewrite Hn).
  rewrite (bind_ok _ _ s () s1) by done.
  rewrite (bind_ok _ _ s1 () s2) by done.
  by rewrite try_finally_safe_remove.
Qed.

Lemma exit_path_ok (s : fs) (r : res PackResult) (s' : fs) :
  exit_path json_loads file_map base out name s r s' →
  ∀ r0, r = Ok r0 →
  ∃ d s1 s2 s3,
    _parse_file_map json_loads file_map = Ok d
    ∧ _validate_project_name name = Ok ()
    ∧ _ensure_dir base s = (Ok (), s1)
    ∧ _ensure_dir out s1 = (Ok (), s2)
    ∧ json2file_try tmp out d name s2 = (Ok r0, s3)
    ∧ s' = (_safe_remove_dir tmp s3).2.
Proof.
  intros [e ?|d e ? ?|d e s1 ? ? ?|d e s1 s2 ? ? ? ?|d s1 s2 r' s3 ? ? ? ? Ht] r0;
    [done..|].
  intros ->. by exists d, s1, s2, s3.
Qed.

Lemma json2file_ok_inv (s : fs) (r0 : PackResult) (s' : fs) :
  json2file json_loads file_map base out name s = (Ok r0, s') →
  ∃ d s1 s2 s3,
    _parse_file_map json_loads file_map = Ok d
    ∧ _validate_project_name name = Ok ()
    ∧ _ensure_dir base s = (Ok (), s1)
    ∧ _ensure_dir out s1 = (Ok (), s2)
    ∧ json2file_try tmp out d name s2 = (Ok r0, s3)
    ∧ s' = (_safe_remove_dir tmp s3).2.
Proof.
  intros H. pose proof (json2file_exit json_loads file_map base out name s) as He.
  rewrite H in He. by apply (exit_path_ok _ _ _ He).
Qed.

Lemma json2file_try_ok_inv (d : strdict) (s2 s3 : fs) (r0 : PackResult) :
  json2file_try tmp out d name s2 = (Ok r0, s3) →
  ∃ sa sb,
    _recreate_dir tmp s2 = (Ok (), sa)
    ∧ _write_files tmp d sa = (Ok (), sb)
    ∧ _make_zip tmp out (name ++ s2py ".zip") sb = (Ok zp, s3)
    ∧ r0 = mkPackResult (posix_str zp).
Proof.
  unfold json2file_try.
  intros [(e & _ & ?)|([] & sa & Hr & H)]%bind_run; [done|].
  apply bind_run in H as [(e & _ & ?)|([] & sb & Hw & H)]; [done|].
  apply bind_run in H as [(e & _ & ?)|(p & sc & Hz & H)]; [done|].
  injection H as <- <-.
  pose proof (make_zip_inv _ _ _ _ _ _ Hz) as (-> & _).
  by exists sa, sb.
Qed.

Lemma recreate_dir_nonroot (p : path) (s s' : fs) :
  _recreate_dir p s = (Ok (), s') → p ≠ [].
Proof. by intros H ->. Qed.

End Runs.

Lemma filter_ordinary (t : list pystr) :
  Forall ordinary t → filter (λ x : pystr, x ≠ [] ∧ x ≠ [dot]) t = t.
Proof.
  induction 1 as [|x t (H1 & H2 & _) _ IH]; [done|].
  rewrite filter_cons_True by done. by rewrite IH.
Qed.

Lemma Path_posix_str (p : path) :
  Forall ordinary p → Path (posix_str p) = mkPurePath [slash] p.
Proof.
  intros Hall. unfold posix_str, Path.
  assert (Hsr : splitroot (slash :: join [slash] p) = ([slash], join [slash] p)).
  { unfold splitroot, slice. simpl.
    destruct p as [|x t]; [done|]. destruct (join_head x t) as [r ->].
    apply Forall_cons in Hall as [(Hx & _ & _ & Hsl) _].
    destruct x as [|c x]; [done|]. simpl.
    rewrite bool_decide_eq_false_2; [done|].
    intros [= ->]. apply Hsl. left. }
  rewrite Hsr. f_equal. destruct p as [|x t]; [done|].
  rewrite split_join; [by apply filter_ordinary|done|].
  eapply Forall_impl; [done|]. by intros c (_ & _ & _ & ?).
Qed.

Lemma ordinary_zip_name (name : pystr) :
  _validate_project_name name = Ok () → ordinary (name ++ s2py ".zip").
Proof.
  intros (Hne & Hsl & _)%validate_project_name_ok.
  assert (Hlen : (4 < length (name ++ s2py ".zip"))%nat).
  { rewrite length_app, zip_suffix_length. destruct name; [done|simpl; lia]. }
  split_and!.
  - intros E. rewrite E in Hlen. simpl in Hlen. lia.
  - intros E. rewrite E in Hlen. simpl in Hlen. lia.
  - intros E. rewrite E in Hlen. simpl in Hlen. lia.
  - rewrite elem_of_app. intros [?|?]; [done|]. by apply zip_suffix_no_slash.
Qed.

Lemma resolved_arg_absolute
    (home_of : pystr → option pystr) (cwd q : path) :
  Forall ordinary q → path_ok q = true →
  resolved_arg home_of cwd (posix_str q) = Ok q.
Proof.
  intros Hord Hok. unfold resolved_arg. rewrite Path_posix_str by done.
  unfold expanduser, resolve_pure, joinpath. simpl.
  assert (Hall : forallb (λ c, bool_decide (c = [dot; dot]) || name_ok c) q = true).
  { apply forallb_forall. intros c Hc. unfold path_ok in Hok.
    rewrite forallb_forall in Hok. rewrite (Hok c Hc). apply orb_true_r. }
  rewrite Hall. f_equal. apply normalize_plain.
  intros Hin. rewrite Forall_forall in Hord.
  by destruct (Hord _ Hin) as (_ & _ & ? & _).
Qed.

(** ** Packing, then publishing *)

(** X12.  The flow of the example at the end of the module.  When
    [json2file] returns and the archive path [out_dir/project_name.zip] is
    not inside the staging directory, the returned [zip_path] reads back
    as that path, a closed archive is there, and [file2storage] on the
    returned string does not raise [StorageError]: it returns the URL of
    the path, or raises [ValueError] when the path cannot be encoded as
    strict UTF-8. *)
Theorem pack_then_publish
    (json_loads : pystr → option pyval) (home_of : pystr → option pystr)
    (file_map : pyval) (base out cwd : path) (name : pystr) (s s' : fs)
    (r : PackResult) :
  Forall ordinary out →
  ¬ joinpath base (Path name) `prefix_of` out ++ [name ++ s2py ".zip"] →
  json2file json_loads file_map base out name s = (Ok r, s') →
  let p := joinpath cwd (Path (zip_path r)) in
  p = out ++ [name ++ s2py ".zip"]
  ∧ (∃ es, stat s' p = Some (File (Zip es)))
  ∧ ((∃ u, _to_file_url p = Ok u
           ∧ file2storage home_of cwd (zip_path r) s'
             = (Ok (mkStorageResult u), s'))
     ∨ (utf8_encode (zip_path r) = None
        ∧ file2storage home_of cwd (zip_path r) s' = (Raise ValueError, s'))).
Proof.
  intros Hord Hsep Hrun p.
  apply json2file_ok_inv in Hrun
    as (d & s1 & s2 & s3 & _ & Hn & _ & _ & Ht & ->).
  apply json2file_try_ok_inv in Ht as (sa & sb & _ & _ & Hz & ->).
  apply make_zip_inv in Hz as (_ & Hne & Hok & _ & _ & [es Hes] & _).
  assert (Hj : joinpath out (Path (name ++ s2py ".zip")) = out ++ [name ++ s2py ".zip"]).
  { unfold joinpath. by rewrite Path_zip_name. }
  assert (Hordz : Forall ordinary (out ++ [name ++ s2py ".zip"])).
  { apply Forall_app. split; [done|]. constructor; [|done].
    by apply ordinary_zip_name. }
  assert (Hp : p = out ++ [name ++ s2py ".zip"]).
  { unfold p. cbn [zip_path]. by rewrite Hj, Path_posix_str. }
  cbn [zip_path]. rewrite Hj in *.
  set (zp := out ++ [name ++ s2py ".zip"]) in *.
  rewrite Hp. clear p Hp.
  set (s' := (_safe_remove_dir _ s3).2).
  assert (Hs' : stat s' zp = Some (File (Zip es))).
  { rewrite stat_nonroot by done. unfold s'. rewrite safe_remove_dir_state.
    destruct (_ && _); [|done]. rewrite filter_outside.
    by rewrite decide_False. }
  split_and!; [done|by exists es|].
  unfold file2storage, bind, lift.
  rewrite (resolved_arg_absolute home_of cwd zp Hordz Hok).
  unfold exists_, is_file. rewrite Hok, Hs'. simpl.
  unfold _to_file_url, quote.
  destruct (utf8_encode (posix_str zp)) as [bs|]; simpl.
  - left. eauto.
  - by right.
Qed.

Lemma pack_then_publish_witness :
  let run := json2file Samples.no_json (PyDict (str_items Samples.demo_dict))
               Samples.work Samples.out (s2py "demo") ∅ in
  let p := joinpath [] (Path (posix_str Samples.demo_zip)) in
  p = Samples.out ++ [s2py "demo" ++ s2py ".zip"]
  ∧ (∃ es, stat run.2 p = Some (File (Zip es)))
  ∧ ((∃ u, _to_file_url p = Ok u
           ∧ file2storage Samples.homes [] (posix_str Samples.demo_zip) run.2
             = (Ok (mkStorageResult u), run.2))
     ∨ (utf8_encode (posix_str Samples.demo_zip) = None
        ∧ file2storage Samples.homes [] (posix_str Samples.demo_zip) run.2
          = (Raise ValueError, run.2))).
Proof.
  intros run.
  apply (pack_then_publish Samples.no_json Samples.homes
           (PyDict (str_items Samples.demo_dict))
           Samples.work Samples.out [] (s2py "demo") ∅ run.2
           (mkPackResult (posix_str Samples.demo_zip))).
  - repeat constructor; try discriminate; apply (bool_decide_unpack _);
      vm_compute; exact I.
  - by_decide.
  - vm_compute. reflexivity.
Defined.

(** ** What a run leaves on disk *)

Lemma json2file_try_untouched (tmp out : path) (d : strdict) (name : pystr)
    (s : fs) (r : res PackResult) (s' : fs) :
  json2file_try tmp out d name s = (r, s') →
  ∀ (q : path) c, ¬ tmp `prefix_of` q →
    q ≠ joinpath out (Path (name ++ s2py ".zip")) →
    (stat s q = Some (File c) ↔ stat s' q = Some (File c)).
Proof.
  intros H q c Hq Hz. unfold json2file_try in H.
  apply bind_run in H as [(e & H & _)|([] & sa & Hr & H)].
  { by apply (recreate_dir_frame tmp _ _ _ H). }
  rewrite (recreate_dir_frame tmp _ _ _ Hr q c Hq).
  apply bind_run in H as [(e & H & _)|([] & sb & Hw & H)].
  { by apply (write_files_frame tmp d _ _ _ H). }
  rewrite (write_files_frame tmp d _ _ _ Hw q c Hq).
  assert (Hsame : same_except (joinpath out (Path (name ++ s2py ".zip"))) sb s').
  { apply bind_run in H as [(e & H & _)|(p & sc & Hm & H)].
    - by apply (make_zip_same _ _ _ _ _ _ H).
    - injection H as _ <-. by apply (make_zip_same _ _ _ _ _ _ Hm). }
  destruct q as [|x q]; [done|]. simpl. by rewrite (Hsame _ Hz).
Qed.

(** X13.  Whatever its outcome, [json2file] neither creates, changes nor
    removes a regular file that is outside the staging directory and is
    not the archive path. *)
Theorem json2file_touches_only_staging_and_archive
    (json_loads : pystr → option pyval) (file_map : pyval)
    (base out : path) (name : pystr) (s : fs) :
  let s' := (json2file json_loads file_map base out name s).2 in
  let tmp := joinpath base (Path name) in
  let zp := joinpath out (Path (name ++ s2py ".zip")) in
  ∀ (q : path) c, ¬ tmp `prefix_of` q → q ≠ zp →
    (stat s q = Some (File c) ↔ stat s' q = Some (File c)).
Proof.
  intros s' tmp zp q c Hq Hz. unfold s'.
  destruct (json2file_exit json_loads file_map base out name s)
    as [e ?|d e ? ?|d e s1 ? ? Hb|d e s1 s2 ? ? Hb Ho|d s1 s2 r' s3 ? ? Hb Ho Ht];
    [done|done|..].
  - by apply (mkdir_frame tmp base _ _ _ Hb).
  - rewrite (mkdir_frame tmp base _ _ _ Hb q c Hq).
    by apply (mkdir_frame tmp out _ _ _ Ho).
  - rewrite (mkdir_frame tmp base _ _ _ Hb q c Hq).
    rewrite (mkdir_frame tmp out _ _ _ Ho q c Hq).
    rewrite (json2file_try_untouched _ _ _ _ _ _ _ Ht q c Hq Hz).
    by apply safe_remove_dir_frame.
Qed.

Lemma json2file_touches_only_staging_and_archive_witness :
  let run := json2file Samples.no_json (PyDict (str_items Samples.demo_dict))
               Samples.work Samples.out (s2py "demo") Samples.odd_disk in
  stat Samples.odd_disk Samples.odd_file = Some (File (Raw []))
  ↔ stat run.2 Samples.odd_file = Some (File (Raw [])).
Proof.
  apply (json2file_touches_only_staging_and_archive Samples.no_json
           (PyDict (str_items Samples.demo_dict)) Samples.work Samples.out
           (s2py "demo") Samples.odd_disk Samples.odd_file (Raw [])).
  - apply (bool_decide_unpack _). vm_compute. exact I.
  - apply (bool_decide_unpack _). vm_compute. exact I.
Defined.

Lemma recreate_dir_succeeds (tmp : path) (s : fs) :
  tmp ≠ [] → path_ok tmp = true →
  (∀ q : path, q `prefix_of` tmp → q ≠ tmp → stat s q = Some Dir) →
  (∀ c, stat s tmp ≠ Some (File c)) →
  ∃ s', _recreate_dir tmp s = (Ok (), s') ∧ stat s' tmp = Some Dir.
Proof.
  intros Hne Hok Hpar Hnf.
  assert (Hmk : ∀ sr : fs,
    (∀ q : path, q `prefix_of` tmp → q ≠ tmp → stat sr q = Some Dir) →
    (∀ c, stat sr tmp ≠ Some (File c)) →
    ∃ s', mkdir tmp sr = (Ok (), s') ∧ stat s' tmp = Some Dir).
  { intros sr Hpar' Hnf'. destruct (mkdir_succeeds tmp sr Hok) as [s' Hm].
    - intros q c Hq. destruct (decide (q = tmp)) as [->|Hqn]; [done|].
      by rewrite Hpar'.
    - exists s'. split; [done|]. by apply (mkdir_ok_dirs tmp sr s' (Ok ()) Hm). }
  unfold _recreate_dir, bind, exists_. rewrite Hok. simpl.
  destruct (stat s tmp) as [[|c]|] eqn:Hs.
  - rewrite bool_decide_eq_true_2 by eauto. unfold rmtree.
    rewrite Hok, Hs. simpl.
    destruct tmp as [|x t] eqn:E; [done|]. rewrite <- E in *. apply Hmk.
    + intros q Hq Hqn. destruct q as [|y q]; [done|]. cbn [stat].
      rewrite filter_outside, decide_False; [by apply (Hpar (y :: q))|].
      intros Hp. apply Hqn. by apply (anti_symm prefix).
    + intros c. rewrite stat_nonroot, filter_outside by done.
      by rewrite decide_True.
  - by destruct (Hnf c).
  - rewrite bool_decide_eq_false_2 by (by intros []). apply Hmk; [done|].
    intros c. by rewrite Hs.
Qed.

Lemma make_zip_keeps_dirs (src out : path) (zn : pystr) (s : fs)
    (r : res path) (s' : fs) :
  _make_zip src out zn s = (r, s') →
  ∀ q : path, stat s q = Some Dir → stat s' q = Some Dir.
Proof.
  intros H q Hq. destruct q as [|x q]; [done|].
  destruct (decide (x :: q = joinpath out (Path zn))) as [E|Hne].
  - rewrite E in *. clear E. revert H.
    unfold _make_zip, bind, lift, resolve.
    destruct (path_ok _) eqn:Hok; [|by intros [= _ <-]].
    unfold exists_. rewrite Hok, Hq. simpl.
    unfold unlink. rewrite Hok, Hq. simpl. by intros [= _ <-].
  - simpl in *. by rewrite (make_zip_same _ _ _ _ _ _ H _ Hne).
Qed.

Lemma json2file_try_leaves_dir (tmp out : path) (d : strdict) (name : pystr)
    (s : fs) (r : res PackResult) (s' : fs) :
  tmp ≠ [] → path_ok tmp = true →
  (∀ q : path, q `prefix_of` tmp → q ≠ tmp → stat s q = Some Dir) →
  (∀ c, stat s tmp ≠ Some (File c)) →
  json2file_try tmp out d name s = (r, s') →
  stat s' tmp = Some Dir.
Proof.
  intros Hne Hok Hpar Hnf H.
  destruct (recreate_dir_succeeds tmp s Hne Hok Hpar Hnf) as (sa & Hr & Hd).
  unfold json2file_try in H. rewrite (bind_ok _ _ s () sa Hr) in H.
  apply bind_run in H as [(e & H & _)|([] & sb & Hw & H)].
  { by apply (write_files_kind _ _ _ _ _ Hne H). }
  assert (Hb : stat sb tmp = Some Dir) by by apply (write_files_kind _ _ _ _ _ Hne Hw).
  apply bind_run in H as [(e & H & _)|(p & sc & Hm & H)].
  - by apply (make_zip_keeps_dirs _ _ _ _ _ _ H).
  - injection H as _ <-. by apply (make_zip_keeps_dirs _ _ _ _ _ _ Hm).
Qed.

Section Staged.
Variable json_loads : pystr → option pyval.
Context (file_map : pyval) (d : strdict) (base out : path) (name : pystr).
Context (s s1 s2 : fs).

Let tmp : path := joinpath base (Path name).

Hypothesis Hparse : _parse_file_map json_loads file_map = Ok d.
Hypothesis Hname : _validate_project_name name = Ok ().
Hypothesis Hnok : name_ok name = true.
Hypothesis Hbase : _ensure_dir base s = (Ok (), s1).
Hypothesis Hout : _ensure_dir out s1 = (Ok (), s2).

Lemma staging_path_ok : path_ok tmp = true.
Proof.
  assert (Hokb : path_ok base = true) by by eapply mkdir_ok_path.
  unfold tmp. rewrite staging_dir_of_valid_name by done.
  case_bool_decide; [done|]. by rewrite path_ok_snoc, Hokb, Hnok.
Qed.

Lemma staging_parents (q : path) :
  q `prefix_of` tmp → q ≠ tmp → stat s2 q = Some Dir.
Proof.
  intros Hq Hqn.
  assert (Hqb : q `prefix_of` base).
  { unfold tmp in *. rewrite staging_dir_of_valid_name in * by done.
    case_bool_decide; [done|].
    apply prefix_parent in Hq; [|done]. by rewrite parent_snoc in Hq. }
  apply (mkdir_stat_keeps out s1 s2 (Ok ()) Hout).
  by apply (mkdir_ok_dirs base s s1 (Ok ()) Hbase).
Qed.

Lemma json2file_staging_gone :
  tmp ≠ [] → (∀ c, stat s2 tmp ≠ Some (File c)) →
  ∀ q : path, tmp `prefix_of` q →
    stat (json2file json_loads file_map base out name s).2 q = None.
Proof.
  intros Hne Hnf q Hq.
  rewrite (json2file_staged json_loads file_map base out name d s s1 s2) by done.
  fold tmp.
  destruct (json2file_try tmp out d name s2) as [r s3] eqn:Ht. cbn [fst snd].
  pose proof (json2file_try_leaves_dir _ _ _ _ _ _ _ Hne staging_path_ok
                staging_parents Hnf Ht) as Hd.
  rewrite safe_remove_dir_state, staging_path_ok. unfold dir_at. rewrite Hd.
  simpl. assert (q ≠ []) by (intros ->; by apply prefix_nil_inv in Hq).
  rewrite stat_nonroot by done. rewrite filter_outside. by rewrite decide_True.
Qed.

End Staged.

(** X14.  Let the mapping parse, the name pass and the two directories
    exist.  Then no run leaves the staging directory behind, whether it
    returns or raises: nothing is left at or below it, unless a regular
    file had its place; in that case the run raises [OSError] and changes
    nothing. *)
Theorem staging_dir_removed
    (json_loads : pystr → option pyval) (file_map : pyval) (d : strdict)
    (base out : path) (name : pystr) (s s1 s2 : fs) :
  _parse_file_map json_loads file_map = Ok d →
  _validate_project_name name = Ok () →
  name_ok name = true →
  _ensure_dir base s = (Ok (), s1) →
  _ensure_dir out s1 = (Ok (), s2) →
  let tmp := joinpath base (Path name) in
  let run := json2file json_loads file_map base out name s in
  tmp ≠ [] →
  ((∀ c, stat s2 tmp ≠ Some (File c)) →
   ∀ q : path, tmp `prefix_of` q → stat run.2 q = None)
  ∧ (∀ c, stat s2 tmp = Some (File c) → run = (Raise OSError, s2)).
Proof.
  intros Hp Hn Hnok Hb Ho tmp run Hne. split.
  - intros Hnf. by apply (json2file_staging_gone json_loads file_map d base out
                            name s s1 s2).
  - intros c Hc. unfold run.
    rewrite (json2file_staged json_loads file_map base out name d s s1 s2) by done.
    fold tmp.
    pose proof (staging_path_ok base name s s1 Hn Hnok Hb) as Hok.
    fold tmp in Hok.
    assert (Ht : json2file_try tmp out d name s2 = (Raise OSError, s2)).
    { unfold json2file_try, _recreate_dir, bind, exists_, rmtree.
      rewrite Hok, Hc. simpl. by rewrite Hc. }
    rewrite Ht. cbn [fst snd]. rewrite safe_remove_dir_state.
    unfold dir_at. rewrite Hc. by rewrite andb_false_r.
Qed.

Lemma staging_dir_removed_witness :
  let tmp := joinpath Samples.work (Path (s2py "demo")) in
  let run := json2file Samples.no_json (PyDict (str_items Samples.traversal_dict))
               Samples.work Samples.out (s2py "demo") Samples.stale_disk in
  tmp ≠ [] ∧ ∀ q : path, tmp `prefix_of` q → stat run.2 q = None.
Proof.
  intros tmp run.
  assert (Hne : tmp ≠ []) by by_eval.
  split; [exact Hne|].
  destruct (staging_dir_removed Samples.no_json
              (PyDict (str_items Samples.traversal_dict)) Samples.traversal_dict
              Samples.work Samples.out (s2py "demo")
              Samples.stale_disk Samples.stale_disk Samples.stale_disk)
    as [H _]; [by_eval..|exact Hne|].
  apply H. intros c. by_eval.
Defined.

(** X15.  The project name ["."] passes [_validate_project_name] and makes
    the base directory itself the staging directory: once the mapping
    parses and the two directories exist, the run, whatever its outcome,
    removes the base directory with everything that was in it. *)
Theorem dot_project_name_clears_base
    (json_loads : pystr → option pyval) (file_map : pyval) (d : strdict)
    (base out : path) (s s1 s2 : fs) :
  base ≠ [] →
  _parse_file_map json_loads file_map = Ok d →
  _ensure_dir base s = (Ok (), s1) →
  _ensure_dir out s1 = (Ok (), s2) →
  _validate_project_name [dot] = Ok ()
  ∧ ∀ q : path, base `prefix_of` q →
      stat (json2file json_loads file_map base out [dot] s).2 q = None.
Proof.
  intros Hne Hp Hb Ho. split; [reflexivity|].
  assert (Hj : joinpath base (Path [dot]) = base).
  { by rewrite staging_dir_of_valid_name. }
  pose proof (json2file_staging_gone json_loads file_map d base out [dot]
                s s1 s2 Hp eq_refl eq_refl Hb Ho) as H.
  rewrite Hj in H. apply H; [done|].
  intros c.
  assert (Hd : stat s2 base = Some Dir).
  { apply (mkdir_stat_keeps out s1 s2 (Ok ()) Ho).
    by apply (mkdir_ok_dirs base s s1 (Ok ()) Hb). }
  by rewrite Hd.
Qed.

Lemma dot_project_name_clears_base_witness :
  _validate_project_name [dot] = Ok ()
  ∧ ∀ q : path, Samples.work ++ [s2py "demo"] `prefix_of` q →
      stat (json2file Samples.no_json (PyDict (str_items Samples.demo_dict))
              (Samples.work ++ [s2py "demo"]) Samples.out [dot]
              Samples.stale_disk).2 q = None.
Proof.
  apply (dot_project_name_clears_base Samples.no_json
           (PyDict (str_items Samples.demo_dict)) Samples.demo_dict
           (Samples.work ++ [s2py "demo"]) Samples.out
           Samples.stale_disk Samples.stale_disk Samples.stale_disk).
  - done.
  - by_eval.
  - by_eval.
  - by_eval.
Defined.

(** ** The archive of a run that returns *)

Lemma write_entry_ok_path (root_ : path) (k v : pystr) (s s' : fs) :
  root_ ≠ [] → write_entry root_ k v s = (Ok (), s') →
  path_ok (target_of root_ k) = true.
Proof.
  intros Hr [(_ & ? & _)|(_ & [[? _]|(? & _)])]%write_entry_run; done.
Qed.

Lemma write_files_sound (root_ : path) (d : strdict) (s s' : fs) :
  root_ ≠ [] →
  _write_files root_ d s = (Ok (), s') →
  ∀ (f : path) c, s' !! f = Some (File c) →
    s !! f = Some (File c)
    ∨ ∃ k v b, (k, v) ∈ d ∧ f = target_of root_ k
               ∧ utf8_encode v = Some b ∧ c = Raw b.
Proof.
  intros Hr. revert s. induction d as [|[k v] d IH]; intros s.
  - intros [= <-]. by left.
  - rewrite write_files_cons.
    intros [(e & _ & ?)|([] & s1 & H & H')]%bind_run; [done|].
    intros f c Hf. destruct (IH _ H' f c Hf) as [Hs1|(k' & v' & b & ? & ?)].
    + destruct (write_entry_written _ _ _ _ _ Hr H) as (b & Hb & Ht & Hsame).
      destruct (decide (f = target_of root_ k)) as [->|Hne].
      * right. exists k, v, b. rewrite Ht in Hs1. injection Hs1 as <-.
        split_and!; [left|done..].
      * left. by apply Hsame.
    + right. exists k', v', b. split; [by right|done].
Qed.

Lemma free_after_ensure (tmp p : path) (s s' : fs) :
  _ensure_dir p s = (Ok (), s') →
  (dir_at s tmp = true ∨ ∀ q : path, tmp `prefix_of` q → s !! q = None) →
  dir_at s' tmp = true ∨ ∀ q : path, tmp `prefix_of` q → s' !! q = None.
Proof.
  intros Hm [Hd|Hfree].
  - left. unfold dir_at in *. destruct (stat s tmp) as [[|c]|] eqn:E; try done.
    by rewrite (mkdir_stat_keeps p s s' (Ok ()) Hm tmp Dir E).
  - destruct (decide (tmp `prefix_of` p)) as [Hp|Hp].
    + left. unfold dir_at. by rewrite (mkdir_ok_dirs p s s' (Ok ()) Hm tmp).
    + right. intros q Hq. destruct (s' !! q) as [n|] eqn:E; [|done].
      apply (mkdir_adds_dirs p s s' (Ok ()) Hm) in E as [E|(_ & _ & _ & Hqp)].
      * by rewrite Hfree in E.
      * destruct Hp. by etrans.
Qed.

(** X16.  The archive of any run that returns, for any mapping.  Let the
    staging directory be a directory, or nothing be at or below it, before
    the run, and let the archive path be outside it.  Then the archive
    holds members of the current mapping only: each member is the UTF-8
    text of an item, under the name of its target relative to the parent of
    the staging directory; nothing of an earlier run is in it.  And each
    item that is the last one written to its target has its member. *)
Theorem archive_of_any_map
    (json_loads : pystr → option pyval) (file_map : pyval)
    (base out : path) (name : pystr) (s s' : fs) (r : PackResult) :
  let tmp := joinpath base (Path name) in
  let zp := joinpath out (Path (name ++ s2py ".zip")) in
  json2file json_loads file_map base out name s = (Ok r, s') →
  ¬ tmp `prefix_of` zp →
  (dir_at s tmp = true ∨ ∀ q : path, tmp `prefix_of` q → s !! q = None) →
  ∃ d es,
    _parse_file_map json_loads file_map = Ok d
    ∧ stat s' zp = Some (File (Zip es))
    ∧ (∀ n c, (n, c) ∈ es →
         ∃ k v b, (k, v) ∈ d ∧ n = arcname_of tmp (target_of tmp k)
                  ∧ utf8_encode v = Some b ∧ c = Raw b)
    ∧ (∀ d1 k v d2, d = d1 ++ (k, v) :: d2 →
         Forall (λ kv, target_of tmp kv.1 ≠ target_of tmp k) d2 →
         ∃ b, utf8_encode v = Some b
              ∧ (arcname_of tmp (target_of tmp k), Raw b) ∈ es).
Proof.
  intros tmp zp Hrun Hsep Hfree.
  apply json2file_ok_inv in Hrun
    as (d & s1 & s2 & s3 & Hp & Hn & Hb & Ho & Ht & ->).
  apply json2file_try_ok_inv in Ht as (sa & sb & Hr & Hw & Hz & ->).
  fold tmp in Hr, Hw, Hz. fold zp in Hz.
  pose proof (recreate_dir_nonroot _ _ _ Hr) as Hne.
  pose proof (recreate_dir_ok_path _ _ _ Hr) as Hok.
  apply make_zip_inv in Hz as (_ & Hzne & Hzok & _ & _ & _ & Hs3).
  fold zp in Hzne, Hzok, Hs3. specialize (Hs3 Hsep).
  set (es := omap (zip_entry tmp sb) (below tmp sb)) in *.
  exists d, es. split; [done|].
  assert (Hpar : ∀ q : path, q `prefix_of` tmp → q ≠ tmp → stat s2 q = Some Dir).
  { intros q Hq Hqn. apply (mkdir_stat_keeps out s1 s2 (Ok ()) Ho).
    apply (mkdir_ok_dirs base s s1 (Ok ()) Hb); [done|].
    unfold tmp in *. rewrite staging_dir_of_valid_name in * by done.
    case_bool_decide; [done|].
    apply prefix_parent in Hq; [|done]. by rewrite parent_snoc in Hq. }
  assert (Hfree2 : dir_at s2 tmp = true
                   ∨ ∀ q : path, tmp `prefix_of` q → s2 !! q = None).
  { apply (free_after_ensure tmp out s1 s2 Ho).
    by apply (free_after_ensure tmp base s s1 Hb). }
  destruct (recreate_dir_fresh tmp s2 Hne Hok Hpar Hfree2)
    as (sa' & Hr' & Hda & Hempty & _).
  rewrite Hr in Hr'. injection Hr' as <-.
  split_and!.
  - rewrite stat_nonroot by done. rewrite safe_remove_dir_state.
    destruct (_ && _); [rewrite filter_outside, decide_False by done|];
      by rewrite Hs3, lookup_insert_eq.
  - intros n c (f & Hf & Hfn & _ & Hsb & ->)%zip_entries_spec.
    destruct (write_files_sound _ _ _ _ Hne Hw f c Hsb)
      as [Hsa|(k & v & b & Hin & -> & Hb' & ->)].
    + by rewrite Hempty in Hsa.
    + by exists k, v, b.
  - intros d1 k v d2 -> Hall.
    assert (Hdir : stat sa tmp = Some Dir) by by rewrite stat_nonroot.
    destruct (write_files_post _ _ _ _ Hne Hdir Hw k v) as (Htl & _).
    { rewrite elem_of_app. right. left. }
    rewrite write_files_app in Hw.
    apply bind_run in Hw as [(e & _ & ?)|([] & sm & _ & Hw)]; [done|].
    rewrite write_files_cons in Hw.
    apply bind_run in Hw as [(e & _ & ?)|([] & sn & He & Hw)]; [done|].
    destruct (write_entry_written _ _ _ _ _ Hne He) as (b & Hb' & Hfile & _).
    exists b. split; [done|]. apply zip_entries_spec.
    exists (target_of tmp k). split_and!.
    + by apply prefix_app_r.
    + by apply target_of_ne_root.
    + by apply (write_entry_ok_path _ _ _ _ _ Hne He).
    + by apply (write_files_keeps_file _ _ _ _ _ _ Hne Hall Hw).
    + done.
Qed.

Lemma archive_of_any_map_witness :
  let tmp := joinpath Samples.work (Path (s2py "demo")) in
  let zp := joinpath Samples.out (Path (s2py "demo" ++ s2py ".zip")) in
  let run := json2file Samples.no_json (PyDict (str_items Samples.same_file_dict))
               Samples.work Samples.out (s2py "demo") Samples.stale_disk in
  ∃ d es,
    _parse_file_map Samples.no_json (PyDict (str_items Samples.same_file_dict)) = Ok d
    ∧ stat run.2 zp = Some (File (Zip es))
    ∧ (∀ n c, (n, c) ∈ es →
         ∃ k v b, (k, v) ∈ d ∧ n = arcname_of tmp (target_of tmp k)
                  ∧ utf8_encode v = Some b ∧ c = Raw b)
    ∧ (∀ d1 k v d2, d = d1 ++ (k, v) :: d2 →
         Forall (λ kv, target_of tmp kv.1 ≠ target_of tmp k) d2 →
         ∃ b, utf8_encode v = Some b
              ∧ (arcname_of tmp (target_of tmp k), Raw b) ∈ es).
Proof.
  intros tmp zp run.
  apply (archive_of_any_map Samples.no_json
           (PyDict (str_items Samples.same_file_dict))
           Samples.work Samples.out (s2py "demo") Samples.stale_disk run.2
           (mkPackResult (posix_str Samples.demo_zip))).
  - vm_compute. reflexivity.
  - by_decide.
  - left. reflexivity.
Defined.

(** ** The URL of a path *)

Lemma quote_safe_ascii (c : N) : quote_safe c = true → c < 128.
Proof.
  unfold quote_safe.
  rewrite !orb_true_iff, !andb_true_iff, !N.leb_le, bool_decide_eq_true.
  rewrite !elem_of_cons, elem_of_nil. lia.
Qed.

Lemma utf8_char_bytes (c : N) (bs : list N) :
  utf8_char c = Some bs → Forall (λ b, b < 256) bs.
Proof.
  unfold utf8_char.
  destruct (c <? 0x80) eqn:E1; [intros [= <-]; apply N.ltb_lt in E1;
    repeat constructor; lia|].
  destruct (c <? 0x800) eqn:E2.
  { intros [= <-]. apply N.ltb_lt in E2. repeat constructor.
    - assert (c / 64 < 32) by (apply N.Div0.div_lt_upper_bound; lia). lia.
    - assert (c mod 64 < 64) by (by apply N.mod_lt). lia. }
  destruct (surrogate c); [done|].
  destruct (c <? 0x10000) eqn:E3.
  { intros [= <-]. apply N.ltb_lt in E3. repeat constructor.
    - assert (c / 4096 < 16) by (apply N.Div0.div_lt_upper_bound; lia). lia.
    - assert ((c / 64) mod 64 < 64) by (by apply N.mod_lt). lia.
    - assert (c mod 64 < 64) by (by apply N.mod_lt). lia. }
  destruct (c <? 0x110000) eqn:E4; [|done].
  intros [= <-]. apply N.ltb_lt in E4. repeat constructor.
  - assert (c / 262144 < 5) by (apply N.Div0.div_lt_upper_bound; lia). lia.
  - assert ((c / 4096) mod 64 < 64) by (by apply N.mod_lt). lia.
  - assert ((c / 64) mod 64 < 64) by (by apply N.mod_lt). lia.
  - assert (c mod 64 < 64) by (by apply N.mod_lt). lia.
Qed.

Lemma utf8_encode_bytes (s : pystr) (bs : list N) :
  utf8_encode s = Some bs → Forall (λ b, b < 256) bs.
Proof.
  unfold utf8_encode. revert bs. induction s as [|c s IH]; intros bs.
  - intros [= <-]. constructor.
  - csimpl. destruct (utf8_char c) as [b1|] eqn:Ec; [|done]. csimpl.
    destruct (mapM utf8_char s) as [l|]; [|done]. csimpl. intros [= <-].
    apply Forall_app. split; [by eapply utf8_char_bytes|by apply IH].
Qed.

Lemma utf8_encode_ascii (s : pystr) :
  Forall (λ c, c < 128) s → utf8_encode s = Some s.
Proof.
  unfold utf8_encode. induction 1 as [|c s Hc _ IH]; [done|].
  assert (Hu : utf8_char c = Some [c]).
  { unfold utf8_char. apply N.ltb_lt in Hc. by rewrite Hc. }
  csimpl. rewrite Hu. csimpl.
  destruct (mapM utf8_char s) as [l|]; [|done]. csimpl in *.
  by injection IH as ->.
Qed.

Lemma hex_digit_safe (n : N) : n < 16 → quote_safe (hex_digit n) = true.
Proof.
  intros Hn.
  assert (Hall : forallb (λ m, quote_safe (hex_digit (N.of_nat m))) (seq 0 16) = true)
    by (vm_compute; reflexivity).
  rewrite forallb_forall in Hall.
  specialize (Hall (N.to_nat n)). rewrite N2Nat.id in Hall. apply Hall.
  apply in_seq. lia.
Qed.

Lemma quote_byte_chars (b : N) :
  b < 256 → Forall (λ c, quote_safe c = true ∨ c = 37) (quote_byte b).
Proof.
  intros Hb. unfold quote_byte. destruct (quote_safe b) eqn:E.
  - apply Forall_singleton. by left.
  - apply Forall_cons. split; [by right|].
    apply Forall_cons. split; [|apply Forall_singleton]; left;
      apply hex_digit_safe.
    + apply N.Div0.div_lt_upper_bound. lia.
    + by apply N.mod_lt.
Qed.

Lemma quote_chars (s q : pystr) :
  quote s = Some q → Forall (λ c, quote_safe c = true ∨ c = 37) q.
Proof.
  unfold quote. destruct (utf8_encode s) as [bs|] eqn:E; [|done].
  intros [= <-]. apply utf8_encode_bytes in E.
  induction E as [|b bs Hb _ IH]; [constructor|]. csimpl.
  apply Forall_app. split; [by apply quote_byte_chars|done].
Qed.

Lemma quote_plain (s : pystr) :
  Forall (λ c, quote_safe c = true) s → quote s = Some s.
Proof.
  intros Hall. unfold quote. rewrite utf8_encode_ascii.
  2:{ eapply Forall_impl; [done|]. apply quote_safe_ascii. }
  csimpl. f_equal. induction Hall as [|c s Hc _ IH]; [done|].
  csimpl. unfold quote_byte at 1. rewrite Hc. simpl. by rewrite IH.
Qed.

(** X17.  Whenever [_to_file_url] returns, the URL is ["file://"] followed
    by unreserved ASCII characters, slashes and percent signs only.  A path
    whose text consists of such characters (letters, digits, [_.-~] and the
    slash) is kept as it is. *)
Theorem to_file_url_shape (p : path) :
  (∀ u, _to_file_url p = Ok u →
     ∃ q, u = s2py "file://" ++ q
          ∧ Forall (λ c, c < 128 ∧ (quote_safe c = true ∨ c = 37)) q)
  ∧ (Forall (λ c, quote_safe c = true) (posix_str p) →
     _to_file_url p = Ok (s2py "file://" ++ posix_str p)).
Proof.
  unfold _to_file_url. split.
  - intros u. destruct (quote (posix_str p)) as [q|] eqn:E; [|done].
    intros [= <-]. exists q. split; [done|].
    apply quote_chars in E. eapply Forall_impl; [done|].
    intros c [Hc| ->]; (split; [|by eauto]).
    + by apply quote_safe_ascii.
    + lia.
  - intros Hall. by rewrite quote_plain.
Qed.

Lemma to_file_url_shape_witness :
  _to_file_url Samples.demo_zip = Ok (s2py "file:///tmp/out/demo.zip")
  ∧ ∃ q, s2py "file:///tmp/out/demo.zip" = s2py "file://" ++ q
         ∧ Forall (λ c, c < 128 ∧ (quote_safe c = true ∨ c = 37)) q.
Proof.
  destruct (to_file_url_shape Samples.demo_zip) as [H1 H2].
  assert (H : _to_file_url Samples.demo_zip = Ok (s2py "file:///tmp/out/demo.zip")).
  { apply H2. apply (bool_decide_unpack _). vm_compute. exact I. }
  split; [exact H|]. apply H1, H.
Defined.
